(** * BLIP-Cpp: outgoing messages, the loopback socket and the GCD mailbox

    A shallow embedding of
    - [src/blip/MessageOut.cc] (with the accessors of [include/blip_cpp/Message.hh]),
    - [include/blip_cpp/LoopbackProvider.hh],
    - [src/util/GCDMailbox.cc] and [src/util/ChannelManifest.hh],
    followed by the properties of the protocol description that concern them.

    Conventions.  C++ unsigned integers are [Z] values kept in range by an
    explicit reduction ([u8], [u32], [u64]); [size_t] is 64 bits wide.  A
    [fleece::slice] that is read from is the list of the bytes it still
    covers; a slice that is written to is the list of bytes already stored
    behind its start together with the room left.  Functions that mutate an
    object return the new object. *)

From Stdlib Require Import String Ascii DecimalString.
From Stdlib.Strings Require Import Byte.
From Stdlib Require Import ZArith Znumtheory List Bool Lia.
Import ListNotations.
Open Scope Z_scope.

(* ================================================================== *)
(** ** Machine integers and bytes *)

Module Int.

Definition wrap (bits x : Z) : Z := x mod 2 ^ bits.

(** [uint8_t], [uint32_t] and [size_t]. *)
Definition u8 (x : Z) : Z := wrap 8 x.
Definition u32 (x : Z) : Z := wrap 32 x.
Definition u64 (x : Z) : Z := wrap 64 x.

Definition is_u32 (x : Z) : Prop := 0 <= x < 2 ^ 32.
Definition is_u64 (x : Z) : Prop := 0 <= x < 2 ^ 64.

(** [slice::size] of a list of bytes. *)
Definition len {A : Type} (l : list A) : Z := Z.of_nat (length l).

Definition byte_of_Z (z : Z) : byte :=
  match Byte.of_N (Z.to_N (z mod 256)) with
  | Some b => b
  | None => x00
  end.

Definition Z_of_byte (b : byte) : Z := Z.of_N (Byte.to_N b).

(** The four bytes of a 32-bit value, most significant first. *)
Definition bigEndian32 (x : Z) : list byte :=
  [ byte_of_Z (Z.shiftr x 24); byte_of_Z (Z.shiftr x 16);
    byte_of_Z (Z.shiftr x 8); byte_of_Z x ].

Definition bytes_eqb (a b : list byte) : bool :=
  if list_eq_dec Byte.byte_eq_dec a b then true else false.

End Int.
Import Int.

(* ================================================================== *)
(** ** Frame flags and progress notifications *)

Module Protocol.

(** Modelled from the spec: BLIPProtocol.hh is not among the sources; the
    protocol description gives the layout of the flag byte ("low 3 bits =
    type; bit 3 = MoreComing; bit 4 = Urgent; bit 5 = NoReply; bit 6 =
    Compressed") and the message types.  Nothing proved below depends on
    the positions beyond each flag being a non-zero mask. *)
Definition kTypeMask : Z := 7.
Definition kMoreComing : Z := 8.
Definition kUrgent : Z := 16.
Definition kNoReply : Z := 32.
Definition kCompressed : Z := 64.

Definition kRequestType : Z := 0.
Definition kResponseType : Z := 1.
Definition kErrorType : Z := 2.
Definition kAckRequestType : Z := 4.
Definition kAckResponseType : Z := 5.

(** [MessageProgress::State], Message.hh. *)
Inductive State : Type :=
| kQueued
| kSending
| kAwaitingReply
| kReceivingReply
| kComplete
| kDisconnected.

(** [struct MessageProgress]; the [reply] member is always [nullptr] in the
    calls embedded here and is left out. *)
Record MessageProgress : Type := mkProgress {
  state : State;
  bytesSent : Z;
  bytesReceived : Z
}.

End Protocol.
Import Protocol.

(* ================================================================== *)
(** ** Slices that are written to *)

Module Slice.

(** The destination of a frame: [written] are the bytes stored so far, in
    order, immediately before [buf]; [size] is the slice's [size] member. *)
Record slice : Type := mk {
  written : list byte;
  size : Z
}.

Definition setSize (s : slice) (n : Z) : slice :=
  mk (written s) (u64 n).

(** Store [out] at the start and move the start past it. *)
Definition put (s : slice) (out : list byte) : slice :=
  mk (written s ++ out) (u64 (size s - len out)).

(** [moveStart(delta)] is [buf += delta; size -= delta].  It is only called
    with [delta = -4]: the start moves back over the last bytes stored. *)
Definition moveStart (s : slice) (delta : Z) : slice :=
  mk (firstn (Z.to_nat (len (written s) + delta)) (written s))
     (u64 (size s - delta)).

(** [slice::writeFrom] belongs to the fleece library: it stores [src] and
    advances when [src] fits, and otherwise stores nothing. *)
Definition writeFrom (s : slice) (src : list byte) : slice :=
  if len src >? size s then s else put s src.

(** The last [n] bytes stored before the start. *)
Definition tail (n : nat) (s : slice) : list byte :=
  skipn (length (written s) - n) (written s).

End Slice.

(* ================================================================== *)
(** ** The codec interface *)

Module Codec.

Inductive Mode : Type := Raw | SyncFlush.

(** Modelled from the spec: [Codec::kChecksumSize] (Codec.hh), the "4-byte
    checksum" at the end of each frame. *)
Definition kChecksumSize : Z := 4.

(** The marker that ends every sync-flushed deflate output. *)
Definition syncFlushMarker : list byte := [x00; x00; xff; xff].

(** Codec.hh and Codec.cc are not among the sources.  The frame writer uses
    three operations, taken here as an interface:
    - [write c input room mode] consumes a prefix of [input] and produces
      output for a destination with [room] bytes left; it returns the new
      codec, the number of input bytes consumed and the output bytes;
    - [unflushedBytes];
    - [checksum], the running checksum that [writeChecksum] stores. *)
Class Ops (C : Type) : Type := {
  write : C -> list byte -> Z -> Mode -> C * nat * list byte;
  unflushedBytes : C -> Z;
  checksum : C -> Z
}.

(** What a codec owes its caller: it never reads past the input nor writes
    past the room it was given. *)
Class Lawful (C : Type) `{Ops C} : Prop := {
  write_consumed : forall c input room mode,
    (snd (fst (write c input room mode)) <= length input)%nat;
  write_fits : forall c input room mode,
    0 <= room -> len (snd (write c input room mode)) <= room
}.

(** A codec that makes progress: given input and at least 1024 bytes of
    room, it produces output. *)
Class Productive (C : Type) `{Ops C} : Prop := {
  write_progress : forall c input room mode,
    input <> [] -> 1024 <= room -> snd (write c input room mode) <> []
}.

(** Modelled from the spec: a codec that flushes.  "After SyncFlush,
    deflate always ends with 00 00 FF FF", and "codec must have zero
    unflushed bytes when a frame ends": every write leaves nothing
    unflushed, and the output of a sync-flush write, if there is any, ends
    with the marker. *)
Class Flushing (C : Type) `{Ops C} : Prop := {
  write_flushed : forall c input room mode,
    unflushedBytes (fst (fst (write c input room mode))) = 0;
  syncFlush_marker : forall c input room,
    snd (write c input room SyncFlush) = []
    \/ exists body,
         snd (write c input room SyncFlush) = body ++ syncFlushMarker
}.

(** Modelled from the spec: [Codec::writeChecksum] ("appends the 4-byte
    big-endian checksum at end of each non-ack frame"); a destination too
    small for it fails the codec's assertion. *)
Definition writeChecksum {C : Type} `{Ops C} (c : C) (dst : Slice.slice)
  : option Slice.slice :=
  if Slice.size dst <? kChecksumSize then None
  else Some (Slice.put dst (bigEndian32 (checksum c))).

End Codec.

(* ================================================================== *)
(** ** MessageOut::Contents *)

Module Contents.

Definition kDataBufferSize : Z := 16384.

(** One call of a [MessageDataSource]: the callback either stores [bytes]
    in the buffer and returns their number, or returns a negative [code]. *)
Inductive SourceResult : Type :=
| Wrote (bytes : list byte)
| Failed (code : Z).

(** A data source is a stateful callback; it is represented by the answer
    it gives to its k-th call (k from 0) for a given capacity. *)
Definition MessageDataSource : Type := nat -> Z -> SourceResult.

Record t : Type := mk {
  _payload : list byte;            (* alloc_slice: message data            *)
  _unsentPayload : list byte;      (* unsent subrange of _payload          *)
  _dataSource : option MessageDataSource;
  _sourceCalls : nat;              (* calls made to _dataSource so far     *)
  _dataBuffer : bool;              (* is the 16 KiB buffer allocated?      *)
  _unsentDataBuffer : list byte    (* unsent subrange of _dataBuffer       *)
}.

(** [Contents::Contents(payload, dataSource)]. *)
Definition new (payload : list byte) (dataSource : option MessageDataSource) : t :=
  mk payload payload dataSource 0 false [].

(** [readFromDataSource], called with [_dataSource] set to [src].

    [bytesWritten < _dataBuffer.size] compares a signed count with a
    [size_t]; a count of [n] bytes with [0 <= n <= capacity] drops the
    source exactly when [n < capacity].  A negative count, or more bytes
    than the capacity, leaves [_unsentDataBuffer] covering memory outside
    the buffer: the result is [None]. *)
Definition readFromDataSource (c : t) (src : MessageDataSource) : option t :=
  let capacity := kDataBufferSize in
  match src (_sourceCalls c) capacity with
  | Wrote bytes =>
      if len bytes <=? capacity then
        Some (mk (_payload c) (_unsentPayload c)
                 (if len bytes <? capacity then None else Some src)
                 (S (_sourceCalls c))
                 true
                 bytes)
      else None
  | Failed _ => None
  end.

(** Which member [dataToSend] returned a reference to. *)
Inductive Ref : Type := UnsentPayload | UnsentDataBuffer.

Definition get (r : Ref) (c : t) : list byte :=
  match r with
  | UnsentPayload => _unsentPayload c
  | UnsentDataBuffer => _unsentDataBuffer c
  end.

Definition set (r : Ref) (data : list byte) (c : t) : t :=
  match r with
  | UnsentPayload =>
      mk (_payload c) data (_dataSource c) (_sourceCalls c) (_dataBuffer c)
         (_unsentDataBuffer c)
  | UnsentDataBuffer =>
      mk (_payload c) (_unsentPayload c) (_dataSource c) (_sourceCalls c)
         (_dataBuffer c) data
  end.

(** [dataToSend]: the slice (by reference) holding the next data to send. *)
Definition dataToSend (c : t) : option (Ref * t) :=
  if len (_unsentPayload c) >? 0 then Some (UnsentPayload, c)
  else
    let c1 := mk [] (_unsentPayload c) (_dataSource c) (_sourceCalls c)
                 (_dataBuffer c) (_unsentDataBuffer c) in
    match _dataSource c1 with
    | Some src =>
        if len (_unsentDataBuffer c1) =? 0 then
          match readFromDataSource c1 src with
          | Some c2 =>
              if len (_unsentDataBuffer c2) =? 0 then
                Some (UnsentDataBuffer,
                      mk (_payload c2) (_unsentPayload c2) (_dataSource c2)
                         (_sourceCalls c2) false (_unsentDataBuffer c2))
              else Some (UnsentDataBuffer, c2)
          | None => None
          end
        else Some (UnsentDataBuffer, c1)
    | None => Some (UnsentDataBuffer, c1)
    end.

(** A data source that keeps to its contract: every call writes some
    number of bytes within the capacity it was given. *)
Definition sourceBehaves (c : t) : Prop :=
  match _dataSource c with
  | Some src =>
      forall k, exists bytes,
        src k kDataBufferSize = Wrote bytes /\ len bytes <= kDataBufferSize
  | None => True
  end.

Definition hasMoreDataToSend (c : t) : bool :=
  (len (_unsentPayload c) >? 0) || (len (_unsentDataBuffer c) >? 0)
  || (match _dataSource c with Some _ => true | None => false end).

End Contents.

(* ================================================================== *)
(** ** Message and MessageOut *)

Module MessageOut.

Import Codec.

(** The data members of [Message] and [MessageOut] that the embedded
    functions read or write.  [_connection] and the callback object
    [_onProgress] are not represented: what is recorded of the callback is
    the list of notifications handed to it. *)
Record t : Type := mk {
  _flags : Z;                      (* FrameFlags, a uint8_t              *)
  _number : Z;                     (* MessageNo                          *)
  _contents : Contents.t;
  _uncompressedBytesSent : Z;      (* uint32_t                           *)
  _bytesSent : Z;                  (* uint32_t                           *)
  _unackedBytes : Z                (* uint32_t                           *)
}.

(** [MessageOut::MessageOut(connection, flags, payload, dataSource, number)]. *)
Definition new (flags : Z) (payload : list byte)
    (dataSource : option Contents.MessageDataSource) (number : Z) : t :=
  mk (u8 flags) number (Contents.new payload dataSource) 0 0 0.

(** Accessors of Message.hh. *)
Definition flags (m : t) : Z := _flags m.
Definition hasFlag (m : t) (f : Z) : bool := negb (Z.land (_flags m) f =? 0).
Definition type (m : t) : Z := Z.land (_flags m) kTypeMask.
Definition isAck (m : t) : bool :=
  (type m =? kAckRequestType) || (type m =? kAckResponseType).
Definition noReply (m : t) : bool := hasFlag m kNoReply.
Definition urgent (m : t) : bool := hasFlag m kUrgent.

(** The same test on a flags value returned to the caller. *)
Definition flagSet (fl f : Z) : bool := negb (Z.land fl f =? 0).

(** Modelled from the spec: [Message::sendProgress] (Message.cc is not
    among the sources) hands the notification to the progress callback. *)
Definition sendProgress (st : State) (sent received : Z) : list MessageProgress :=
  [ mkProgress st sent received ].

(** Modelled from the spec: [Message::disconnected] (Message.cc) invokes
    the progress callback with state [kDisconnected]. *)
Definition Message_disconnected (m : t) : list MessageProgress :=
  sendProgress kDisconnected 0 0.

Definition set_contents (c : Contents.t) (m : t) : t :=
  mk (_flags m) (_number m) c (_uncompressedBytesSent m) (_bytesSent m)
     (_unackedBytes m).

Definition set_uncompressedBytesSent (n : Z) (m : t) : t :=
  mk (_flags m) (_number m) (_contents m) n (_bytesSent m) (_unackedBytes m).

Definition set_bytesSent (n : Z) (m : t) : t :=
  mk (_flags m) (_number m) (_contents m) (_uncompressedBytesSent m) n
     (_unackedBytes m).

Definition set_unackedBytes (n : Z) (m : t) : t :=
  mk (_flags m) (_number m) (_contents m) (_uncompressedBytesSent m)
     (_bytesSent m) n.

(** *** The frame-writing loop

    [do { data = dataToSend(); if (data.size == 0) break; ...
          codec.write(data, dst, mode); ... } while (dst.size >= 1024);]

    [data] is a reference into the contents, so the bytes the codec
    consumed are gone from the member it refers to. *)
Inductive LoopResult (C : Type) : Type :=
| LoopDone (codec : C) (dst : Slice.slice) (m : t)
| LoopUndefined
| LoopOutOfFuel.
Arguments LoopDone {C} codec dst m.
Arguments LoopUndefined {C}.
Arguments LoopOutOfFuel {C}.

Fixpoint nextFrameToSend_loop {C : Type} `{Ops C} (fuel : nat) (mode : Mode)
    (codec : C) (dst : Slice.slice) (m : t) : LoopResult C :=
  match fuel with
  | O => LoopOutOfFuel
  | S fuel' =>
      match Contents.dataToSend (_contents m) with
      | None => LoopUndefined
      | Some (ref, c1) =>
          let data := Contents.get ref c1 in
          if len data =? 0 then LoopDone codec dst (set_contents c1 m)
          else
            let u1 := u32 (_uncompressedBytesSent m + u32 (len data)) in
            let '(codec1, consumed, out) := write codec data (Slice.size dst) mode in
            let rest := skipn consumed data in
            let dst1 := Slice.put dst out in
            let u2 := u32 (u1 - u32 (len rest)) in
            let m1 := set_uncompressedBytesSent u2
                        (set_contents (Contents.set ref rest c1) m) in
            if Slice.size dst1 >=? 1024
            then nextFrameToSend_loop fuel' mode codec1 dst1 m1
            else LoopDone codec1 dst1 m1
      end
  end.

(** *** nextFrameToSend *)

(** What a call that returns normally leaves behind. *)
Record Sent (C : Type) : Type := mkSent {
  codec' : C;
  dst' : Slice.slice;
  outFlags : Z;
  msg : t;
  progress : list MessageProgress
}.
Arguments mkSent {C}.
Arguments codec' {C}.
Arguments dst' {C}.
Arguments outFlags {C}.
Arguments msg {C}.
Arguments progress {C}.

Inductive Outcome (C : Type) : Type :=
| Returned (r : Sent C)
| Threw (what : string) (codec : C) (dst : Slice.slice) (m : t)
| UndefinedBehaviour
| OutOfFuel.
Arguments Returned {C} r.
Arguments Threw {C} what codec dst m.
Arguments UndefinedBehaviour {C}.
Arguments OutOfFuel {C}.

(** [if (mode == Codec::Mode::SyncFlush) { ... dst.moveStart(-4); }]:
    when the frame holds compressed output, its last four bytes must be the
    sync-flush marker and are given back to the destination.  [Assert]
    (Error.hh, not among the sources) is checked in every build and raises
    an exception when it fails: the result is then [None]. *)
Definition stripSyncFlushMarker (mode : Mode) (frameSize : Z)
    (dst1 : Slice.slice) : option Slice.slice :=
  match mode with
  | SyncFlush =>
      let bytesWritten := u64 ((frameSize - kChecksumSize) - Slice.size dst1) in
      if bytesWritten >? 0 then
        if (bytesWritten >=? 4)
           && bytes_eqb (Slice.tail 4 dst1) syncFlushMarker
        then Some (Slice.moveStart dst1 (-4))
        else None
      else Some dst1
  | Raw => Some dst1
  end.

(** The update of the running totals and the choice of flags and state
    that end [nextFrameToSend], once the checksum is in [dst4]. *)
Definition finishFrame {C : Type} (codec1 : C) (frameSize : Z)
    (dst4 : Slice.slice) (outFlags0 : Z) (m1 : t) : Sent C :=
  let frameSize' := u64 (frameSize - Slice.size dst4) in
  let m2 := set_unackedBytes
              (u32 (_unackedBytes m1 + u32 frameSize'))
              (set_bytesSent (u32 (_bytesSent m1 + u32 frameSize')) m1) in
  let more := Contents.hasMoreDataToSend (_contents m2) in
  let outFlags1 :=
    if more then u8 (Z.lor outFlags0 kMoreComing) else outFlags0 in
  let st :=
    if more then kSending
    else if noReply m2 then kComplete
    else kAwaitingReply in
  mkSent codec1 dst4 outFlags1 m2
         (sendProgress st (_uncompressedBytesSent m2) 0).

Definition nextFrameToSend {C : Type} `{Ops C} (fuel : nat)
    (codec : C) (dst : Slice.slice) (m : t) : Outcome C :=
  let outFlags0 := flags m in
  if isAck m then
    (* Acks have no checksum and don't go through the codec *)
    match Contents.dataToSend (_contents m) with
    | None => UndefinedBehaviour
    | Some (ref, c1) =>
        let data := Contents.get ref c1 in
        let dst1 := Slice.writeFrom dst data in
        let m1 := set_bytesSent (u32 (_bytesSent m + u32 (len data)))
                                (set_contents c1 m) in
        Returned (mkSent codec dst1 outFlags0 m1 [])
    end
  else
    let frameSize := Slice.size dst in
    (* Reserve room for checksum at end *)
    let dst0 := Slice.setSize dst (Slice.size dst - kChecksumSize) in
    let mode := if hasFlag m kCompressed then SyncFlush else Raw in
    match nextFrameToSend_loop fuel mode codec dst0 m with
    | LoopOutOfFuel => OutOfFuel
    | LoopUndefined => UndefinedBehaviour
    | LoopDone codec1 dst1 m1 =>
        if unflushedBytes codec1 >? 0
        then Threw "Compression buffer overflow" codec1 dst1 m1
        else
          match stripSyncFlushMarker mode frameSize dst1 with
          | None => Threw "Assertion failed" codec1 dst1 m1
          | Some dst2 =>
              (* Undo "Reserve room..." above, write the checksum *)
              let dst3 := Slice.setSize dst2 (Slice.size dst2 + kChecksumSize) in
              match writeChecksum codec1 dst3 with
              | None => Threw "Assertion failed" codec1 dst3 m1
              | Some dst4 =>
                  Returned (finishFrame codec1 frameSize dst4 outFlags0 m1)
              end
          end
    end.

(** [receivedAck(byteCount)], [byteCount] a [uint32_t]. *)
Definition receivedAck (byteCount : Z) (m : t) : t :=
  if byteCount <=? _bytesSent m
  then set_unackedBytes
         (Z.min (_unackedBytes m) (u32 (_bytesSent m - byteCount))) m
  else m.

(** [disconnected()]. *)
Definition disconnected (m : t) : list MessageProgress :=
  if negb (type m =? kRequestType) || noReply m then []
  else Message_disconnected m.

End MessageOut.

(* ================================================================== *)
(** ** LoopbackWebSocket *)

Module LoopbackWebSocket.

Definition kSendBufferSize : Z := 32 * 1024.

(** What a call hands on: the base-class [MockWebSocket::send(msg, binary)]
    (MockProvider.hh, not among the sources) and the delegate's callback. *)
Inductive Event : Type :=
| MockWebSocket_send (msg : list byte) (binary : bool)
| onWebSocketWriteable.

(** [_bufferedBytes] is a [std::atomic<size_t>]; [_isOpen] is the flag of
    [MockWebSocket] that [connected()] reports.  The peer, the latencies
    and [_readyToUse] play no part in [send] and [_ack]. *)
Record t : Type := mk {
  _isOpen : bool;
  _bufferedBytes : Z
}.

Definition connected (s : t) : bool := _isOpen s.

(** [send(msg, binary)]: the result, the socket afterwards, what was
    handed on. *)
Definition send (msg : list byte) (binary : bool) (s : t)
  : bool * t * list Event :=
  let newValue := u64 (_bufferedBytes s + len msg) in
  (newValue <=? kSendBufferSize,
   mk (_isOpen s) newValue,
   [MockWebSocket_send msg binary]).

(** [_ack(msgSize)], [msgSize] a [size_t]. *)
Definition _ack (msgSize : Z) (s : t) : t * list Event :=
  if negb (connected s) then (s, [])
  else
    let newValue := u64 (_bufferedBytes s - msgSize) in
    (mk (_isOpen s) newValue,
     if (newValue <=? kSendBufferSize)
        && (u64 (newValue + msgSize) >? kSendBufferSize)
     then [onWebSocketWriteable] else []).

End LoopbackWebSocket.

(* ================================================================== *)
(** ** ChannelManifest *)

Module ChannelManifest.

Record ChannelManifestEntry : Type := mkEntry {
  elapsed : Z;                     (* milliseconds since _start *)
  name : string
}.

Record t : Type := mk {
  _start : Z;                      (* clock reading at construction, ms *)
  _enqueueCalls : list ChannelManifestEntry;
  _executions : list ChannelManifestEntry;
  _limit : Z;                      (* uint8_t  *)
  _truncatedEnqueue : Z;           (* uint32_t *)
  _truncatedExecution : Z          (* uint32_t *)
}.

Definition new (now : Z) : t := mk now [] [] 100 0 0.

(** [while (list.size() > _limit) { list.pop_front(); truncated++; }] *)
Fixpoint truncate (limit : Z) (l : list ChannelManifestEntry) (truncated : Z)
  : list ChannelManifestEntry * Z :=
  match l with
  | [] => ([], truncated)
  | _ :: rest =>
      if len l >? limit then truncate limit rest (u32 (truncated + 1))
      else (l, truncated)
  end.

(** [addEnqueueCall(name)] with the default [after = 0.0], as
    [GCDMailbox::enqueue] calls it; [now] is the clock reading. *)
Definition addEnqueueCall (now : Z) (nm : string) (m : t) : t :=
  let '(calls, truncated) :=
    truncate (_limit m) (_enqueueCalls m ++ [mkEntry (now - _start m) nm])
             (_truncatedEnqueue m) in
  mk (_start m) calls (_executions m) (_limit m) truncated (_truncatedExecution m).

Definition addExecution (now : Z) (nm : string) (m : t) : t :=
  let '(execs, truncated) :=
    truncate (_limit m) (_executions m ++ [mkEntry (now - _start m) nm])
             (_truncatedExecution m) in
  mk (_start m) (_enqueueCalls m) execs (_limit m) (_truncatedEnqueue m) truncated.

Definition endl : string := String (ascii_of_nat 10) EmptyString.
Definition tab : string := String (ascii_of_nat 9) EmptyString.
Definition decimal (z : Z) : string := NilZero.string_of_int (Z.to_int z).

Definition dumpEntry (e : ChannelManifestEntry) : string :=
  (tab ++ "[" ++ decimal (elapsed e) ++ " ms] " ++ name e ++ endl)%string.

Definition dumpTruncated (n : Z) : string :=
  if n >? 0 then (tab ++ "..." ++ decimal n ++ " truncated frames...")%string
  else EmptyString.

(** [dump(out)]: the text written to the stream. *)
Definition dump (m : t) : string :=
  (("List of enqueue calls:" ++ endl)
   ++ dumpTruncated (_truncatedEnqueue m)
   ++ String.concat EmptyString (map dumpEntry (_enqueueCalls m))
   ++ ("Resulting execution calls:" ++ endl)
   ++ dumpTruncated (_truncatedExecution m)
   ++ String.concat EmptyString (map dumpEntry (_executions m)))%string.

End ChannelManifest.

(* ================================================================== *)
(** ** GCDMailbox *)

Module GCDMailbox.

(** What leaves a block that does not return normally: an object of a
    class derived from [std::exception] (with its [what()]), or any other
    thrown object. *)
Inductive Thrown : Type :=
| StdException (what : string)
| OtherObject (description : string).

(** The body of an actor method as the mailbox sees it: the calls of
    [enqueue] it makes on this mailbox, in order, and then how it ends. *)
#[local] Set Warnings "-register-all".
Inductive Block : Type :=
| MkBlock (enqueues : list (string * Block)) (ending : option Thrown).
#[local] Set Warnings "+register-all".

Definition enqueues (b : Block) : list (string * Block) :=
  match b with MkBlock e _ => e end.
Definition ending (b : Block) : option Thrown :=
  match b with MkBlock _ t => t end.

(** The block handed to [dispatch_async]: [wrappedBlock] with what it
    captured. *)
Record WrappedBlock : Type := mkWrapped {
  currentManifest : nat;           (* shared_ptr<ChannelManifest>: a heap index *)
  methodName : string;
  block : Block
}.

(** What the actor and the log are told. *)
Inductive Event : Type :=
| caughtException (what : string)  (* _actor->caughtException(x) *)
| Warn (text : string)             (* Warn("%s", dumped.c_str()) *)
| actor_afterEvent.                (* _actor->afterEvent()       *)

(** The mailbox with the pieces of the world its code touches, seen from
    the thread that runs it: the clock, the heap of shared manifests, the
    thread-local [sCurrentManifest], the serial dispatch queue (first in,
    first out), the actor's reference count. *)
Record t : Type := mk {
  now : Z;
  heap : list ChannelManifest.t;
  sCurrentManifest : option nat;
  _eventCount : Z;
  actorRefs : Z;
  _queue : list WrappedBlock;
  log : list Event
}.

Definition update (id : nat) (f : ChannelManifest.t -> ChannelManifest.t)
    (h : list ChannelManifest.t) : list ChannelManifest.t :=
  match nth_error h id with
  | Some m => firstn id h ++ f m :: skipn (S id) h
  | None => h
  end.

(** [enqueue(methodName, block)]. *)
Definition enqueue (nm : string) (b : Block) (w : t) : t :=
  let '(id, h) :=
    match sCurrentManifest w with
    | Some id => (id, heap w)
    | None => (length (heap w), heap w ++ [ChannelManifest.new (now w)])
    end in
  let h' := update id (ChannelManifest.addEnqueueCall (now w) nm) h in
  mk (now w) h' (sCurrentManifest w) (_eventCount w + 1) (actorRefs w + 1)
     (_queue w ++ [mkWrapped id nm b]) (log w).

Definition add_log (es : list Event) (w : t) : t :=
  mk (now w) (heap w) (sCurrentManifest w) (_eventCount w) (actorRefs w)
     (_queue w) (log w ++ es).

Definition set_sCurrentManifest (c : option nat) (w : t) : t :=
  mk (now w) (heap w) c (_eventCount w) (actorRefs w) (_queue w) (log w).

(** Running the body of a block: its [enqueue] calls, then its ending. *)
Definition call (b : Block) (w : t) : t * option Thrown :=
  (fold_left (fun w' nb => enqueue (fst nb) (snd nb) w') (enqueues b) w,
   ending b).

Inductive Outcome : Type :=
| Done (w : t)                     (* returned normally                    *)
| Uncaught (x : Thrown) (w : t)    (* an exception left the function       *)
| NullManifest.                    (* sCurrentManifest was null or dangling *)

(** [safelyCall(block)]: only [const std::exception &] is caught. *)
Definition safelyCall (b : Block) (w : t) : Outcome :=
  match call b w with
  | (w1, None) => Done w1
  | (w1, Some (StdException what)) =>
      let w2 := add_log [caughtException what] w1 in
      match sCurrentManifest w2 with
      | Some id =>
          match nth_error (heap w2) id with
          | Some manifest => Done (add_log [Warn (ChannelManifest.dump manifest)] w2)
          | None => NullManifest
          end
      | None => NullManifest
      end
  | (w1, Some (OtherObject d)) => Uncaught (OtherObject d) w1
  end.

(** [afterEvent()]. *)
Definition afterEvent (w : t) : t :=
  let w1 := add_log [actor_afterEvent] w in
  mk (now w1) (heap w1) (sCurrentManifest w1) (_eventCount w1 - 1)
     (actorRefs w1 - 1) (_queue w1) (log w1).

(** The body of [wrappedBlock] in [enqueue]. *)
Definition wrappedBlock (wb : WrappedBlock) (w : t) : Outcome :=
  let w1 := mk (now w)
               (update (currentManifest wb)
                       (ChannelManifest.addExecution (now w) (methodName wb))
                       (heap w))
               (Some (currentManifest wb))
               (_eventCount w) (actorRefs w) (_queue w) (log w) in
  match safelyCall (block wb) w1 with
  | Done w2 => Done (set_sCurrentManifest None (afterEvent w2))
  | other => other
  end.

(** The serial queue takes its first block off and runs it. *)
Definition runNext (w : t) : option Outcome :=
  match _queue w with
  | [] => None
  | wb :: rest =>
      Some (wrappedBlock wb
              (mk (now w) (heap w) (sCurrentManifest w) (_eventCount w)
                  (actorRefs w) rest (log w)))
  end.

(** Draining: run blocks until the queue is empty, an exception leaves a
    block, or [fuel] blocks have run. *)
Fixpoint drain (fuel : nat) (w : t) : Outcome :=
  match fuel with
  | O => Done w
  | S fuel' =>
      match runNext w with
      | None => Done w
      | Some (Done w') => drain fuel' w'
      | Some other => other
      end
  end.

(** The wrapped blocks that the [enqueue] calls of a running block add:
    they share the running block's manifest. *)
Definition children (id : nat) (b : Block) : list WrappedBlock :=
  map (fun nb => mkWrapped id (fst nb) (snd nb)) (enqueues b).

End GCDMailbox.

(* ================================================================== *)
(** ** A reference codec and sample inputs

    The properties below hold for every implementation of [Codec.Ops].  To
    run the embedded functions, this section provides one implementation
    that follows the protocol description. *)

Module StoredCodec.

Import Codec.

(** Modelled from the spec: the codec of §4.1.  [Raw] passes the input
    through; [SyncFlush] produces a deflate stream that ends at a byte
    boundary with [00 00 FF FF].  The deflate stream produced here uses
    stored (uncompressed) blocks only: a block header [00], the 16-bit
    length and its complement, the bytes, and then the empty stored block
    [00 00 00 FF FF] of a sync flush.  The checksum is the CRC-32 of all
    input consumed so far. *)
Definition crcPolynomial : Z := 3988292384.   (* 0xEDB88320 *)

Definition crcShift (c : Z) : Z :=
  if Z.odd c then Z.lxor (Z.shiftr c 1) crcPolynomial else Z.shiftr c 1.

Definition crcByte (c : Z) (b : byte) : Z :=
  let c0 := Z.lxor c (Z_of_byte b) in
  crcShift (crcShift (crcShift (crcShift
    (crcShift (crcShift (crcShift (crcShift c0))))))).

Definition crcBytes (c : Z) (l : list byte) : Z := fold_left crcByte l c.

(** The codec's state: the CRC register. *)
Definition t : Type := Z.

Definition new : t := 4294967295.

Definition storedBlock (data : list byte) : list byte :=
  let n := len data in
  let nn := 65535 - n in
  [x00; byte_of_Z n; byte_of_Z (Z.shiftr n 8);
        byte_of_Z nn; byte_of_Z (Z.shiftr nn 8)] ++ data.

Definition syncFlush : list byte := x00 :: syncFlushMarker.

Definition storedWrite (c : t) (input : list byte) (room : Z) (mode : Mode)
  : t * nat * list byte :=
  match mode with
  | Raw =>
      let n := Z.to_nat (Z.min (len input) room) in
      (crcBytes c (firstn n input), n, firstn n input)
  | SyncFlush =>
      if room <? 10 then (c, O, [])
      else
        let n := Z.to_nat (Z.min (Z.min (len input) (room - 10)) 65535) in
        (crcBytes c (firstn n input), n,
         storedBlock (firstn n input) ++ syncFlush)
  end.

#[global] Instance ops : Ops t := {
  write := storedWrite;
  unflushedBytes := fun _ => 0;
  checksum := fun c => Z.lxor c 4294967295
}.

End StoredCodec.

Module Samples.

Import Contents.

(** A data source that fills the whole buffer with zero bytes on every
    call, and the buffer it leaves. *)
Definition zeros : MessageDataSource :=
  fun _ capacity => Wrote (repeat x00 (Z.to_nat capacity)).

Definition zeroChunk : list byte := repeat x00 (Z.to_nat kDataBufferSize).

(** A data source that hands out the given chunks, one per call, and
    reports end of data (zero bytes) afterwards. *)
Definition chunks (l : list (list byte)) : MessageDataSource :=
  fun k _ => Wrote (nth k l []).

Definition hello : list byte := [x68; x65; x6c; x6c; x6f].

(** An empty destination with [n] bytes of room. *)
Definition buffer (n : Z) : Slice.slice := Slice.mk [] n.

End Samples.

(* ================================================================== *)
(** ** Sequences of calls on one MessageOut *)

Module Trace.

Import MessageOut.

(** The states a [MessageOut] takes between calls of [nextFrameToSend]
    (with any codec state, destination and amount of fuel, whether the call
    returns or throws) and [receivedAck], from its construction on. *)
Inductive reachable {C : Type} `{Codec.Ops C} : MessageOut.t -> Prop :=
| reach_new : forall flags payload dataSource number,
    reachable (MessageOut.new flags payload dataSource number)
| reach_sent : forall m fuel codec dst r,
    reachable m ->
    nextFrameToSend fuel codec dst m = Returned r ->
    reachable (msg r)
| reach_threw : forall m fuel codec dst what codec1 dst1 m1,
    reachable m ->
    nextFrameToSend fuel codec dst m = Threw what codec1 dst1 m1 ->
    reachable m1
| reach_ack : forall m byteCount,
    reachable m -> is_u32 byteCount ->
    reachable (receivedAck byteCount m).

(** The same states, each with the number of bytes the calls so far have
    added to [_bytesSent], counted without wrapping.  A call adds a 32-bit
    amount to the 32-bit counter, so the amount is the difference of the
    counter's two readings modulo 2^32. *)
Inductive sentInTotal {C : Type} `{Codec.Ops C} : MessageOut.t -> Z -> Prop :=
| total_new : forall flags payload dataSource number,
    sentInTotal (MessageOut.new flags payload dataSource number) 0
| total_sent : forall m total fuel codec dst r,
    sentInTotal m total ->
    nextFrameToSend fuel codec dst m = Returned r ->
    sentInTotal (msg r) (total + u32 (_bytesSent (msg r) - _bytesSent m))
| total_threw : forall m total fuel codec dst what codec1 dst1 m1,
    sentInTotal m total ->
    nextFrameToSend fuel codec dst m = Threw what codec1 dst1 m1 ->
    sentInTotal m1 total
| total_ack : forall m total byteCount,
    sentInTotal m total -> is_u32 byteCount ->
    sentInTotal (receivedAck byteCount m) total.

(** [n] frames in a row, each into a fresh destination with [room] bytes,
    threading the codec. *)
Definition sendFrame {C : Type} `{Codec.Ops C} (room : Z)
    (s : option (C * MessageOut.t)) : option (C * MessageOut.t) :=
  match s with
  | Some (codec, m) =>
      match nextFrameToSend 2 codec (Samples.buffer room) m with
      | Returned r => Some (codec' r, msg r)
      | _ => None
      end
  | None => None
  end.

Definition sendFrames {C : Type} `{Codec.Ops C} (n : N) (room : Z)
    (codec : C) (m : MessageOut.t) : option (C * MessageOut.t) :=
  N.iter n (sendFrame room) (Some (codec, m)).

Definition ackAll (s : option (StoredCodec.t * MessageOut.t))
  : option (StoredCodec.t * MessageOut.t) :=
  match s with
  | Some (codec, m) => Some (codec, receivedAck (_bytesSent m) m)
  | None => None
  end.

(** Request 1 while it streams from [Samples.zeros]: no payload, nothing
    buffered, [k] calls made to the source so far. *)
Definition streaming (k : nat) (allocated : bool) (uncompressed sent unacked : Z)
  : MessageOut.t :=
  MessageOut.mk kRequestType 1
    (Contents.mk [] [] (Some Samples.zeros) k allocated [])
    uncompressed sent unacked.

(** A message that streams more than 4 GiB from a data source: 262080
    frames of 16388 bytes, an acknowledgement of everything sent, and one
    more frame. *)
Definition longStream : option (StoredCodec.t * MessageOut.t) :=
  sendFrame 16388
    (ackAll
       (sendFrames 262080 16388 StoredCodec.new
          (MessageOut.new kRequestType [] (Some Samples.zeros) 1))).

End Trace.

(* ================================================================== *)
(** ** The multiplexer's disconnect, and sample messages *)

Module BLIPIO.

(** Modelled from the spec: BLIPIO.cc is not among the sources.  On
    disconnect "the multiplexer empties outbox and icebox" and tells each
    message it held, by calling its [disconnected()]; the result lists the
    notifications the progress callbacks receive. *)
Definition disconnect (outbox icebox : list MessageOut.t) : list MessageProgress :=
  flat_map MessageOut.disconnected (outbox ++ icebox).

(** The messages that expect a reply: requests sent without [kNoReply]. *)
Definition expectsReply (m : MessageOut.t) : bool :=
  (MessageOut.type m =? kRequestType) && negb (MessageOut.noReply m).

End BLIPIO.

Module SampleMessages.

Import MessageOut.

(** The message a call left behind, [m] itself if the call did not return. *)
Definition after {C : Type} (o : Outcome C) (m : MessageOut.t) : MessageOut.t :=
  match o with
  | Returned r => msg r
  | _ => m
  end.

(** A request with body "hello" and no properties block. *)
Definition helloRequest : MessageOut.t :=
  MessageOut.new kRequestType Samples.hello None 1.

(** The same request after its only frame went into a 100-byte buffer. *)
Definition helloSent : MessageOut.t :=
  after (nextFrameToSend 2 StoredCodec.new (Samples.buffer 100) helloRequest)
        helloRequest.

Definition helloCompressed : MessageOut.t :=
  MessageOut.new (Z.lor kRequestType kCompressed) Samples.hello None 1.

(** A request sent with [kNoReply], and a response. *)
Definition noReplyRequest : MessageOut.t :=
  MessageOut.new (Z.lor kRequestType kNoReply) Samples.hello None 2.

Definition response : MessageOut.t :=
  MessageOut.new kResponseType Samples.hello None 3.

(** The acknowledgement of 5 bytes of request 1, as [MessageIn] builds it:
    urgent, no reply, the count as a one-byte varint. *)
Definition ack : MessageOut.t :=
  MessageOut.new (Z.lor kAckRequestType (Z.lor kUrgent kNoReply)) [x05] None 1.

(** A request that pulls its body from a source holding two chunks. *)
Definition twoChunks : Contents.t :=
  Contents.new [] (Some (Samples.chunks [Samples.hello; Samples.hello])).

End SampleMessages.

Module SampleMailbox.

Import GCDMailbox.

(** An idle mailbox at clock reading 0. *)
Definition idle : GCDMailbox.t := mk 0 [] None 0 0 [] [].

Definition returns : Block := MkBlock [] None.
Definition throwsStd : Block := MkBlock [] (Some (StdException "boom")).
Definition throwsOther : Block := MkBlock [] (Some (OtherObject "NSException")).

(** Two methods enqueued from outside any block: the first throws. *)
Definition stdThenNext : GCDMailbox.t :=
  enqueue "second" returns (enqueue "first" throwsStd idle).

Definition otherThenNext : GCDMailbox.t :=
  enqueue "second" returns (enqueue "first" throwsOther idle).

End SampleMailbox.

(* ================================================================== *)
(** ** More of MessageOut: the pending response *)

Module Replies.

Import MessageOut.

(** The data members of [MessageIn] (Message.hh) with their initial
    values; the buffers that receive the reply start empty and are not
    represented.  [MessageIn]'s constructor is in MessageIn.cc, which is
    not among the sources: it stores its arguments in the members of the
    same name.  The progress callback it takes over from the request is,
    as in [MessageOut.t], not represented. *)
Record MessageIn : Type := mkMessageIn {
  in_flags : Z;
  in_number : Z;
  _rawBytesReceived : Z;
  in_unackedBytes : Z;
  _outgoingSize : Z;
  _complete : bool;
  _responded : bool
}.

(** [MessageOut::createResponse()]: [None] is [nullptr]. *)
Definition createResponse (m : MessageOut.t) : option MessageIn :=
  if negb (type m =? kRequestType) || noReply m then None
  else Some (mkMessageIn kResponseType (_number m) 0 0
               (_uncompressedBytesSent m) false false).

(** What a message without a data source still has to send, in the order
    [dataToSend] hands it out. *)
Definition pending (c : Contents.t) : list byte :=
  Contents._unsentPayload c ++ Contents._unsentDataBuffer c.

End Replies.

(* ================================================================== *)
(** ** More of ChannelManifest *)

Module ManifestLimit.

Import ChannelManifest.

(** [setLimit(uint8_t limit)]. *)
Definition setLimit (limit : Z) (m : ChannelManifest.t) : ChannelManifest.t :=
  mk (_start m) (_enqueueCalls m) (_executions m) (u8 limit)
     (_truncatedEnqueue m) (_truncatedExecution m).

End ManifestLimit.

(* ================================================================== *)
(** ** Runs of calls on a LoopbackWebSocket *)

Module LoopbackRuns.

Import LoopbackWebSocket.

(** [send] for each message in turn: the results and the socket afterwards. *)
Fixpoint sendAll (msgs : list (list byte)) (s : LoopbackWebSocket.t)
  : list bool * LoopbackWebSocket.t :=
  match msgs with
  | [] => ([], s)
  | msg :: rest =>
      let '(ok, s1, _) := send msg true s in
      let '(oks, s2) := sendAll rest s1 in
      (ok :: oks, s2)
  end.

(** [_ack] for each size in turn: the delegate calls and the socket
    afterwards. *)
Fixpoint ackAll (sizes : list Z) (s : LoopbackWebSocket.t)
  : list Event * LoopbackWebSocket.t :=
  match sizes with
  | [] => ([], s)
  | n :: rest =>
      let '(s1, events) := _ack n s in
      let '(more, s2) := ackAll rest s1 in
      (events ++ more, s2)
  end.

Definition total (msgs : list (list byte)) : Z :=
  fold_right (fun msg acc => len msg + acc) 0 msgs.

End LoopbackRuns.

(* ================================================================== *)
(** ** Batcher *)

Module Batcher.

(** What [push] asks of the actor: [_actor.enqueue(_processor)] or
    [_actor.enqueueAfter(_latency, _processor)]. *)
Inductive Scheduled : Type :=
| enqueue
| enqueueAfter (latency : Z).

(** [Batcher<ACTOR, ITEM>]: durations and clock readings are counts of
    clock ticks; [_capacity] is a [size_t]; [_items = None] is the null
    [unique_ptr].  The actor and the processor are fixed at construction
    and appear only in what [push] asks for. *)
Record t (ITEM : Type) : Type := mk {
  _latency : Z;
  _capacity : Z;
  _items : option (list ITEM);
  _scheduled : bool;
  _popTime : Z
}.
Arguments mk {ITEM}.
Arguments _latency {ITEM}.
Arguments _capacity {ITEM}.
Arguments _items {ITEM}.
Arguments _scheduled {ITEM}.
Arguments _popTime {ITEM}.

(** The constructor; [_popTime] is a default-constructed time point, the
    clock's epoch. *)
Definition new {ITEM : Type} (latency capacity : Z) : t ITEM :=
  mk latency capacity None false 0.

(** [timeSincePop()] at clock reading [now]. *)
Definition timeSincePop {ITEM : Type} (now : Z) (b : t ITEM) : Z :=
  now - _popTime b.

(** [push(item)] at clock reading [now]. *)
Definition push {ITEM : Type} (now : Z) (item : ITEM) (b : t ITEM)
  : t ITEM * list Scheduled :=
  let items := match _items b with
               | None => [item]
               | Some l => l ++ [item]
               end in
  if (_latency b >? 0) && (_capacity b >? 0)
     && ((len items =? _capacity b)
         || (negb (_scheduled b) && (timeSincePop now b >? _latency b)))
  then
    (* I'm full, or it's the first push in a while -- schedule a pop NOW *)
    (mk (_latency b) (_capacity b) (Some items) true (_popTime b), [enqueue])
  else if negb (_scheduled b) then
    (mk (_latency b) (_capacity b) (Some items) true (_popTime b),
     [enqueueAfter (_latency b)])
  else
    (mk (_latency b) (_capacity b) (Some items) (_scheduled b) (_popTime b), []).

(** [pop()] at clock reading [now]: the items, or [None] for [nullptr]. *)
Definition pop {ITEM : Type} (now : Z) (b : t ITEM)
  : t ITEM * option (list ITEM) :=
  (mk (_latency b) (_capacity b) None false now, _items b).

(** A sequence of calls, each with the clock reading at which it is made. *)
Inductive Call (ITEM : Type) : Type :=
| Push (now : Z) (item : ITEM)
| Pop (now : Z).
Arguments Push {ITEM}.
Arguments Pop {ITEM}.

Definition step {ITEM : Type} (b : t ITEM) (c : Call ITEM) : t ITEM :=
  match c with
  | Push now item => fst (push now item b)
  | Pop now => fst (pop now b)
  end.

Definition run {ITEM : Type} (calls : list (Call ITEM)) (b : t ITEM) : t ITEM :=
  fold_left step calls b.

(** A burst of pushes: the batcher afterwards and everything asked of the
    actor. *)
Fixpoint pushAll {ITEM : Type} (pushes : list (Z * ITEM)) (b : t ITEM)
  : t ITEM * list Scheduled :=
  match pushes with
  | [] => (b, [])
  | (now, item) :: rest =>
      let '(b1, asked) := push now item b in
      let '(b2, more) := pushAll rest b1 in
      (b2, asked ++ more)
  end.

End Batcher.

(* ================================================================== *)
(** ** Mailboxes whose manifests are alive *)

Module MailboxRuns.

Import GCDMailbox.

(** A [shared_ptr<ChannelManifest>] keeps its manifest alive: every
    manifest that a queued block captured, and the one [sCurrentManifest]
    points to, is on the heap. *)
Definition manifestsAlive (w : GCDMailbox.t) : bool :=
  forallb (fun wb => (currentManifest wb <? length (heap w))%nat) (_queue w)
  && match sCurrentManifest w with
     | Some id => (id <? length (heap w))%nat
     | None => true
     end.

(** A block that enqueues two more and returns. *)
Definition spawnsTwo : Block :=
  MkBlock [("child1"%string, MkBlock [] None);
           ("child2"%string, MkBlock [] (Some (StdException "oops")))]
          None.

(** Three methods enqueued from outside any block; the second lets a
    foreign exception escape. *)
Definition threeQueued : GCDMailbox.t :=
  enqueue "third" (MkBlock [] None)
    (enqueue "second" (MkBlock [] (Some (OtherObject "NSException")))
       (enqueue "first" spawnsTwo (mk 0 [] None 0 0 [] []))).

End MailboxRuns.

(* ================================================================== *)
(** ** Async: providers and asynchronous functions *)

Module Async.

(** How a call can end: normally, on a failed [assert] or in [abort()]
    (the build with assertions enabled), on a null pointer, on an empty
    [std::function], or with the model's recursion budget used up. *)
Inductive Run (A : Type) : Type :=
| Ok (a : A)
| AssertionFailed
| NullPointer
| BadFunctionCall
| OutOfFuel.
Arguments Ok {A}.
Arguments AssertionFailed {A}.
Arguments NullPointer {A}.
Arguments BadFunctionCall {A}.
Arguments OutOfFuel {A}.

Section Result.

(** The result type [T] and its value-initialised value [T{}]. *)
Variable T : Type.
Variable T0 : T.

(** [struct AsyncState]; a provider is named by its address, a [nat]. *)
Record AsyncState : Type := mkState {
  _waitingOn : option nat;
  _continueAt : Z
}.

(** The data members of [AsyncProviderBase] and [AsyncProvider<T>] but
    for [_body], which is kept beside the heap. *)
Record AsyncProvider : Type := mkProvider {
  _state : AsyncState;
  _ready : bool;
  _actor : option nat;             (* Retained<Actor>  *)
  _observer : option nat;          (* AsyncProviderBase* *)
  _result : T
}.

Definition Heap : Type := nat -> option AsyncProvider.

(** A body as [next()] uses it: it reads and updates the [AsyncState] it
    is given, reads other providers through [ready()] and [result()],
    and returns a [T].  Bodies that keep variables of their own between
    calls, or create providers, are outside this model. *)
Definition Body : Type := AsyncState -> Heap -> Run (T * AsyncState).

(** The providers allocated so far, their bodies, the thread's current
    actor, and the calls [_actor->wakeAsyncProvider(this)] made (actor,
    provider); [Actor] is not among the sources. *)
Record World : Type := mkWorld {
  heap : Heap;
  bodies : nat -> option Body;
  allocated : nat;
  currentActor : option nat;
  woken : list (nat * nat)
}.

Definition store (self : nat) (x : AsyncProvider) (w : World) : World :=
  mkWorld (fun i => if Nat.eqb i self then Some x else heap w i)
          (bodies w) (allocated w) (currentActor w) (woken w).

(** [AsyncProviderBase::ready()]. *)
Definition ready (self : nat) (h : Heap) : Run bool :=
  match h self with
  | Some x => Ok (_ready x)
  | None => NullPointer
  end.

(** [AsyncProvider<T>::result()]. *)
Definition result (self : nat) (h : Heap) : Run T :=
  match h self with
  | Some x => if _ready x then Ok (_result x) else AssertionFailed
  | None => NullPointer
  end.

(** [AsyncState::mustWaitFor(a, lineNo)], [a] an [Async] of provider [a]. *)
Definition mustWaitFor (a : nat) (lineNo : Z) (st : AsyncState) (h : Heap)
  : Run (bool * AsyncState) :=
  match ready a h with
  | Ok r => Ok (negb r, mkState (Some a) lineNo)
  | AssertionFailed => AssertionFailed
  | NullPointer => NullPointer
  | BadFunctionCall => BadFunctionCall
  | OutOfFuel => OutOfFuel
  end.

(** [AsyncState::asyncResult<T>()]. *)
Definition asyncResult (st : AsyncState) (h : Heap) : Run (T * AsyncState) :=
  match _waitingOn st with
  | None => NullPointer
  | Some a =>
      match result a h with
      | Ok r => Ok (r, mkState None (_continueAt st))
      | AssertionFailed => AssertionFailed
      | NullPointer => NullPointer
      | BadFunctionCall => BadFunctionCall
      | OutOfFuel => OutOfFuel
      end
  end.

(** [setObserver(p)] on provider [self]. *)
Definition setObserver (self p : nat) (w : World) : Run World :=
  match heap w self with
  | None => NullPointer
  | Some x =>
      match _observer x with
      | Some _ => AssertionFailed
      | None =>
          Ok (store self (mkProvider (_state x) (_ready x) (_actor x)
                                     (Some p) (_result x)) w)
      end
  end.

(** [_wait()] on provider [self]. *)
Definition _wait (self : nat) (w : World) : Run World :=
  match heap w self with
  | None => NullPointer
  | Some x =>
      let w1 := store self (mkProvider (_state x) (_ready x) (currentActor w)
                                       (_observer x) (_result x)) w in
      match _waitingOn (_state x) with
      | None => NullPointer
      | Some a => setObserver a self w1
      end
  end.

Definition same (a b : option nat) : bool :=
  match a, b with
  | Some x, Some y => Nat.eqb x y
  | None, None => true
  | _, _ => false
  end.

(** [wakeUp(async)] on provider [self]; [next] is the virtual [next()]. *)
Definition wakeUp (next : nat -> World -> Run World) (self async : nat)
    (w : World) : Run World :=
  match heap w self with
  | None => NullPointer
  | Some x =>
      if negb (same (Some async) (_waitingOn (_state x))) then AssertionFailed
      else
        match _actor x with
        | Some actor =>
            Ok (mkWorld (heap w) (bodies w) (allocated w) (currentActor w)
                        (woken w ++ [(actor, self)]))
        | None => next self w
        end
  end.

(** [_gotResult()] on provider [self]. *)
Definition _gotResult (next : nat -> World -> Run World) (self : nat)
    (w : World) : Run World :=
  match heap w self with
  | None => NullPointer
  | Some x =>
      let w1 := store self (mkProvider (_state x) true (_actor x) None
                                       (_result x)) w in
      match _observer x with
      | Some observer => wakeUp next observer self w1
      | None => Ok w1
      end
  end.

(** [AsyncProvider<T>::next()] on provider [self].  A provider that wakes
    its observer runs the observer's [next()] inside its own: [fuel]
    bounds the depth of that nesting. *)
Fixpoint next (fuel : nat) (self : nat) (w : World) : Run World :=
  match fuel with
  | O => OutOfFuel
  | S fuel' =>
      match heap w self with
      | None => NullPointer
      | Some x =>
          match bodies w self with
          | None => BadFunctionCall
          | Some body =>
              match body (_state x) (heap w) with
              | Ok (r, st) =>
                  let w1 := store self (mkProvider st (_ready x) (_actor x)
                                                   (_observer x) r) w in
                  match _waitingOn st with
                  | Some _ => _wait self w1
                  | None => _gotResult (next fuel') self w1
                  end
              | AssertionFailed => AssertionFailed
              | NullPointer => NullPointer
              | BadFunctionCall => BadFunctionCall
              | OutOfFuel => OutOfFuel
              end
          end
      end
  end.

(** [setResult(result)] on provider [self]. *)
Definition setResult (fuel : nat) (self : nat) (r : T) (w : World)
  : Run World :=
  match heap w self with
  | None => NullPointer
  | Some x =>
      _gotResult (next fuel) self
        (store self (mkProvider (_state x) (_ready x) (_actor x)
                                (_observer x) r) w)
  end.

(** A provider as its member initialisers leave it. *)
Definition fresh : AsyncProvider :=
  mkProvider (mkState None 0) false None None T0.

Definition allocate (body : option Body) (w : World) : World :=
  mkWorld (fun i => if Nat.eqb i (allocated w) then Some fresh else heap w i)
          (fun i => if Nat.eqb i (allocated w) then body else bodies w i)
          (S (allocated w)) (currentActor w) (woken w).

(** [AsyncProvider<T>::create()]: the new provider and the world with it. *)
Definition create (w : World) : nat * World :=
  (allocated w, allocate None w).

(** [_asyncBody<T>(bodyFn)]: [new AsyncProvider<T>(bodyFn)], whose
    constructor calls [next()], and the [Async] of that provider. *)
Definition _asyncBody (fuel : nat) (bodyFn : Body) (w : World)
  : Run (nat * World) :=
  match next fuel (allocated w) (allocate (Some bodyFn) w) with
  | Ok w' => Ok (allocated w, w')
  | AssertionFailed => AssertionFailed
  | NullPointer => NullPointer
  | BadFunctionCall => BadFunctionCall
  | OutOfFuel => OutOfFuel
  end.

(** The lambda that the macros produce for
    [BEGIN_ASYNC_RETURNING(T)  asyncCall(T v, a);  return f(v);  END_ASYNC()]
    with the [asyncCall] on line [line]:
    [switch (_state._continueAt) {
       case 0:    { if (_state.mustWaitFor(a, line)) return {}; }
       case line: { T v = _state.asyncResult<T>(); return f(v); break; }
       default:   abort(); }]. *)
Definition awaiting (a : nat) (line : Z) (f : T -> T) : Body :=
  fun st h =>
    let resume (st1 : AsyncState) :=
      match asyncResult st1 h with
      | Ok (v, st2) => Ok (f v, st2)
      | AssertionFailed => AssertionFailed
      | NullPointer => NullPointer
      | BadFunctionCall => BadFunctionCall
      | OutOfFuel => OutOfFuel
      end in
    if _continueAt st =? 0 then
      match mustWaitFor a line st h with
      | Ok (true, st1) => Ok (T0, st1)
      | Ok (false, st1) => resume st1
      | AssertionFailed => AssertionFailed
      | NullPointer => NullPointer
      | BadFunctionCall => BadFunctionCall
      | OutOfFuel => OutOfFuel
      end
    else if _continueAt st =? line then resume st
    else AssertionFailed.

(** A world with nothing allocated, outside any actor. *)
Definition empty : World :=
  mkWorld (fun _ => None) (fun _ => None) O None [].

End Result.

Arguments _state {T}.
Arguments _ready {T}.
Arguments _actor {T}.
Arguments _observer {T}.
Arguments _result {T}.
Arguments heap {T}.
Arguments bodies {T}.
Arguments allocated {T}.
Arguments currentActor {T}.
Arguments woken {T}.
Arguments store {T}.
Arguments ready {T}.
Arguments result {T}.
Arguments setObserver {T}.
Arguments _wait {T}.
Arguments wakeUp {T}.
Arguments _gotResult {T}.
Arguments next {T}.
Arguments setResult {T}.
Arguments create {T}.
Arguments _asyncBody {T}.
Arguments awaiting {T}.
Arguments empty {T}.
Arguments allocate {T}.
Arguments fresh : clear implicits.

(** Reading the heap after updates. *)
Ltac heap_simpl :=
  cbn [heap bodies allocated currentActor woken store allocate
       _state _ready _actor _observer _result _waitingOn _continueAt
       fresh same negb];
  rewrite ?Nat.eqb_refl.

End Async.

(* ================================================================== *)
(** * Properties *)

(* ================================================================== *)
(** ** Arithmetic of the wrapped integers, and lists of bytes *)

Module IntFacts.

Lemma u32_range : forall x, is_u32 (u32 x).
Proof.
  intro x. unfold is_u32, u32, wrap. apply Z.mod_pos_bound. lia.
Qed.

Lemma u64_range : forall x, is_u64 (u64 x).
Proof.
  intro x. unfold is_u64, u64, wrap. apply Z.mod_pos_bound. lia.
Qed.

Lemma u32_small : forall x, is_u32 x -> u32 x = x.
Proof.
  intros x Hx. unfold u32, wrap. apply Z.mod_small. exact Hx.
Qed.

Lemma u64_small : forall x, is_u64 x -> u64 x = x.
Proof.
  intros x Hx. unfold u64, wrap. apply Z.mod_small. exact Hx.
Qed.

Lemma u32_u64 : forall x, u32 (u64 x) = u32 x.
Proof.
  intro x. unfold u32, u64, wrap.
  apply Z.mod_mod_divide. exists (2 ^ 32). reflexivity.
Qed.

Lemma u32_add_u32_r : forall a b, u32 (a + u32 b) = u32 (a + b).
Proof.
  intros a b. unfold u32, wrap. apply Zplus_mod_idemp_r.
Qed.

Lemma u32_add_u32_l : forall a b, u32 (u32 a + b) = u32 (a + b).
Proof.
  intros a b. unfold u32, wrap. apply Zplus_mod_idemp_l.
Qed.

Lemma u64_add_u64_l : forall a b, u64 (u64 a + b) = u64 (a + b).
Proof.
  intros a b. unfold u64, wrap. apply Zplus_mod_idemp_l.
Qed.

(** How far a 32-bit counter moved, recovered from its two readings. *)
Lemma u32_step : forall b a, is_u32 a -> u32 (u32 (b + a) - b) = a.
Proof.
  intros b a Ha. unfold u32, wrap.
  rewrite Zminus_mod_idemp_l.
  replace (b + a - b) with a by lia.
  apply Z.mod_small. exact Ha.
Qed.

Lemma len_nonneg : forall (A : Type) (l : list A), 0 <= len l.
Proof.
  intros A l. unfold len. lia.
Qed.

Lemma len_app : forall (A : Type) (l1 l2 : list A), len (l1 ++ l2) = len l1 + len l2.
Proof.
  intros A l1 l2. unfold len. rewrite length_app. lia.
Qed.

Lemma len_zero : forall (A : Type) (l : list A), len l = 0 <-> l = [].
Proof.
  intros A l. unfold len. destruct l as [|a l]; simpl; split; intro E;
    try reflexivity; try discriminate; lia.
Qed.

Lemma bytes_eqb_eq : forall a b, bytes_eqb a b = true <-> a = b.
Proof.
  intros a b. unfold bytes_eqb.
  destruct (list_eq_dec Byte.byte_eq_dec a b) as [E|E]; split; intro X;
    try assumption; try reflexivity; try discriminate; contradiction.
Qed.

(** The end of a list of bytes that extends [w] by [out]. *)
Lemma tail_of_app :
  forall (w out : list byte) (n : nat),
    (n <= length out)%nat ->
    skipn (length (w ++ out) - n) (w ++ out) = skipn (length out - n) out
    /\ firstn (length (w ++ out) - n) (w ++ out)
       = w ++ firstn (length out - n) out.
Proof.
  intros w out n Hn. rewrite length_app.
  replace (length w + length out - n)%nat
    with (length w + (length out - n))%nat by lia.
  split.
  - rewrite skipn_app.
    replace (length w + (length out - n) - length w)%nat
      with (length out - n)%nat by lia.
    rewrite skipn_all2 by lia. reflexivity.
  - rewrite firstn_app.
    replace (length w + (length out - n) - length w)%nat
      with (length out - n)%nat by lia.
    rewrite firstn_all2 by lia. reflexivity.
Qed.

End IntFacts.

(* ================================================================== *)
(** ** receivedAck *)

Module AckProps.

Import MessageOut IntFacts.

(** C2 (as amended).  [receivedAck(c)] with [c <= bytesSent] sets
    [unackedBytes] to [min(unackedBytes, bytesSent - c)]; with
    [c > bytesSent] it changes nothing.  In both cases [unackedBytes] does
    not grow and no other member changes. *)
Theorem receivedAck_guarded :
  forall (m : MessageOut.t) (c : Z),
    is_u32 (_bytesSent m) -> is_u32 c ->
    (c <= _bytesSent m ->
       _unackedBytes (receivedAck c m)
       = Z.min (_unackedBytes m) (_bytesSent m - c))
    /\ (_bytesSent m < c -> receivedAck c m = m)
    /\ _unackedBytes (receivedAck c m) <= _unackedBytes m
    /\ receivedAck c m = set_unackedBytes (_unackedBytes (receivedAck c m)) m.
Proof.
  intros m c Hb Hc. unfold receivedAck.
  destruct (Z.leb_spec c (_bytesSent m)) as [Hle|Hgt].
  - assert (E : u32 (_bytesSent m - c) = _bytesSent m - c).
    { apply u32_small. unfold is_u32 in *. lia. }
    rewrite E. simpl.
    split; [intros _; reflexivity|].
    split; [intro; lia|].
    split; [lia | reflexivity].
  - split; [intro; lia|].
    split; [intros _; reflexivity|].
    split; [lia|].
    destruct m; reflexivity.
Qed.

Lemma receivedAck_guarded_witness :
  _unackedBytes (receivedAck 4 SampleMessages.helloSent) = 5
  /\ _unackedBytes (receivedAck 4 SampleMessages.helloSent)
     <= _unackedBytes SampleMessages.helloSent.
Proof.
  assert (Hb : is_u32 (_bytesSent SampleMessages.helloSent))
    by (vm_compute; split; [discriminate | reflexivity]).
  assert (Hc : is_u32 4) by (vm_compute; split; [discriminate | reflexivity]).
  destruct (receivedAck_guarded SampleMessages.helloSent 4 Hb Hc)
    as [Hmin [_ [Hle _]]].
  split.
  - rewrite Hmin; [reflexivity | vm_compute; discriminate].
  - exact Hle.
Defined.

(** C2, as stated, fails: after one 9-byte frame, an acknowledgement of 10
    bytes leaves [unackedBytes] at 9, which is not [min(9, 9 - 10)]. *)
Lemma receivedAck_beyond_bytesSent :
  _bytesSent SampleMessages.helloSent = 9
  /\ _unackedBytes SampleMessages.helloSent = 9
  /\ _unackedBytes (receivedAck 10 SampleMessages.helloSent) = 9
  /\ _unackedBytes (receivedAck 10 SampleMessages.helloSent)
     <> Z.min (_unackedBytes SampleMessages.helloSent)
              (_bytesSent SampleMessages.helloSent - 10).
Proof.
  repeat split; try reflexivity. vm_compute. discriminate.
Qed.

End AckProps.

(* ================================================================== *)
(** ** disconnected *)

Module DisconnectProps.

Import MessageOut.

(** C4 (as amended).  On disconnect a [MessageOut] has its progress
    callback invoked with state [kDisconnected] exactly when it is a
    request that was not sent with [kNoReply]; a [kNoReply] request and a
    message of any other type get no notification.  Of the messages in
    outbox and icebox, the ones notified are those that expect a reply. *)
Theorem disconnected_only_when_reply_expected :
  forall (m : MessageOut.t) (outbox icebox : list MessageOut.t),
    disconnected m
    = (if BLIPIO.expectsReply m then [mkProgress kDisconnected 0 0] else [])
    /\ BLIPIO.disconnect outbox icebox
       = map (fun _ => mkProgress kDisconnected 0 0)
             (filter BLIPIO.expectsReply (outbox ++ icebox)).
Proof.
  assert (One : forall m, disconnected m
     = (if BLIPIO.expectsReply m then [mkProgress kDisconnected 0 0] else [])).
  { intro m. unfold disconnected, BLIPIO.expectsReply.
    destruct (type m =? kRequestType); destruct (noReply m); reflexivity. }
  intros m outbox icebox. split; [apply One|].
  unfold BLIPIO.disconnect.
  induction (outbox ++ icebox) as [|x l IH]; simpl; [reflexivity|].
  rewrite IH, One. destruct (BLIPIO.expectsReply x); reflexivity.
Qed.

(** C4, as stated, fails: a request sent with [kNoReply] and a response,
    both sitting in the outbox, hear nothing on disconnect. *)
Lemma disconnected_silent_for_noreply :
  hasFlag SampleMessages.noReplyRequest kNoReply = true
  /\ type SampleMessages.noReplyRequest = kRequestType
  /\ type SampleMessages.response = kResponseType
  /\ disconnected SampleMessages.noReplyRequest = []
  /\ disconnected SampleMessages.response = []
  /\ BLIPIO.disconnect [SampleMessages.noReplyRequest; SampleMessages.response] [] = [].
Proof.
  repeat split; reflexivity.
Qed.

End DisconnectProps.

(* ================================================================== *)
(** ** LoopbackWebSocket *)

Module LoopbackProps.

Import LoopbackWebSocket IntFacts.

(** C8.  [send] adds the message size to the buffered byte count and
    returns false exactly when the count after the addition exceeds
    [kSendBufferSize], 32 KiB; it returns true otherwise.  The message is
    handed to the base class either way. *)
Theorem send_false_iff_above_high_water :
  forall (msg : list byte) (binary : bool) (s : LoopbackWebSocket.t),
    kSendBufferSize = 32768
    /\ _bufferedBytes (snd (fst (send msg binary s)))
       = u64 (_bufferedBytes s + len msg)
    /\ (0 <= _bufferedBytes s -> _bufferedBytes s + len msg < 2 ^ 64 ->
        _bufferedBytes (snd (fst (send msg binary s)))
        = _bufferedBytes s + len msg)
    /\ (fst (fst (send msg binary s)) = false
        <-> kSendBufferSize < _bufferedBytes (snd (fst (send msg binary s))))
    /\ (fst (fst (send msg binary s)) = true
        <-> _bufferedBytes (snd (fst (send msg binary s))) <= kSendBufferSize)
    /\ _isOpen (snd (fst (send msg binary s))) = _isOpen s
    /\ snd (send msg binary s) = [MockWebSocket_send msg binary].
Proof.
  intros msg binary s. simpl.
  split; [reflexivity|]. split; [reflexivity|].
  split.
  { intros H0 H1. apply u64_small. pose proof (len_nonneg _ msg).
    unfold is_u64. lia. }
  split.
  { destruct (Z.leb_spec (u64 (_bufferedBytes s + len msg)) kSendBufferSize);
      split; intro; try reflexivity; try discriminate; lia. }
  split.
  { destruct (Z.leb_spec (u64 (_bufferedBytes s + len msg)) kSendBufferSize);
      split; intro; try reflexivity; try discriminate; lia. }
  split; reflexivity.
Qed.

(** C10.  [_ack(msgSize)] on a connected socket subtracts [msgSize] from
    the buffered byte count and calls [onWebSocketWriteable] exactly when
    the count was strictly above [kSendBufferSize] before and is at or
    below it afterwards; otherwise nothing is called.  On a socket that is
    not connected nothing is called and the count stays as it was. *)
Theorem ack_writeable_iff_crossing :
  forall (msgSize : Z) (s : LoopbackWebSocket.t),
    is_u64 (_bufferedBytes s) ->
    (connected s = false -> fst (_ack msgSize s) = s /\ snd (_ack msgSize s) = [])
    /\ (connected s = true ->
        _bufferedBytes (fst (_ack msgSize s)) = u64 (_bufferedBytes s - msgSize)
        /\ _isOpen (fst (_ack msgSize s)) = _isOpen s
        /\ (snd (_ack msgSize s) = [onWebSocketWriteable]
            <-> (kSendBufferSize < _bufferedBytes s
                 /\ _bufferedBytes (fst (_ack msgSize s)) <= kSendBufferSize))
        /\ (~ (kSendBufferSize < _bufferedBytes s
               /\ _bufferedBytes (fst (_ack msgSize s)) <= kSendBufferSize)
            -> snd (_ack msgSize s) = [])).
Proof.
  intros msgSize s Hb. unfold _ack.
  destruct (connected s) eqn:Hc; simpl.
  - split; [discriminate|]. intros _.
    assert (E : u64 (u64 (_bufferedBytes s - msgSize) + msgSize) = _bufferedBytes s).
    { rewrite u64_add_u64_l.
      replace (_bufferedBytes s - msgSize + msgSize) with (_bufferedBytes s) by lia.
      apply u64_small. exact Hb. }
    rewrite E.
    split; [reflexivity|]. split; [reflexivity|].
    destruct (Z.leb_spec (u64 (_bufferedBytes s - msgSize)) kSendBufferSize) as [H1|H1];
      destruct (Z.gtb_spec (_bufferedBytes s) kSendBufferSize) as [H2|H2]; simpl;
      (split; [split; [intro X; try discriminate X; lia | intro; try reflexivity; lia]
              | intro N; try reflexivity; exfalso; apply N; lia]).
  - split; [|discriminate]. intros _. split; reflexivity.
Qed.

Lemma ack_writeable_iff_crossing_witness :
  snd (_ack 1000 (mk true 33000)) = [onWebSocketWriteable]
  /\ _bufferedBytes (fst (_ack 1000 (mk true 33000))) = 32000.
Proof.
  assert (Hb : is_u64 (_bufferedBytes (mk true 33000)))
    by (vm_compute; split; [discriminate | reflexivity]).
  destruct (ack_writeable_iff_crossing 1000 (mk true 33000) Hb) as [_ Hconn].
  destruct (Hconn eq_refl) as [Hcount [_ [Hiff _]]].
  split.
  - apply Hiff. vm_compute. split; [reflexivity | discriminate].
  - exact Hcount.
Defined.

End LoopbackProps.

(* ================================================================== *)
(** ** The pull-style data source *)

Module SourceProps.

Import Contents IntFacts.

(** Without a data source [dataToSend] calls nothing and installs nothing. *)
Lemma dataToSend_without_source :
  forall c, _dataSource c = None ->
    exists r c', dataToSend c = Some (r, c')
      /\ _dataSource c' = None /\ _sourceCalls c' = _sourceCalls c
      /\ _unsentPayload c' = _unsentPayload c
      /\ _unsentDataBuffer c' = _unsentDataBuffer c.
Proof.
  intros c Hs. unfold dataToSend.
  destruct (len (_unsentPayload c) >? 0).
  - exists UnsentPayload, c. repeat split; assumption.
  - simpl. rewrite Hs. eexists _, _. split; [reflexivity|].
    simpl. repeat split; assumption.
Qed.

(** C3 (as amended).  When the payload and the buffer are used up,
    [dataToSend] calls the data source once for [kDataBufferSize] = 16384
    bytes.  The source is dropped exactly when the call returns fewer
    bytes than that capacity, zero included; after a call that fills the
    buffer the source stays and [hasMoreDataToSend] is true.  After a
    short read of at least one byte [hasMoreDataToSend] is true only
    because of the bytes just read: the source is not called again.
    After a read of zero bytes [hasMoreDataToSend] is false and the buffer
    is released. *)
Theorem source_dropped_on_short_read :
  forall (c : Contents.t) (src : MessageDataSource) (bytes : list byte),
    _unsentPayload c = [] -> _unsentDataBuffer c = [] ->
    _dataSource c = Some src ->
    src (_sourceCalls c) kDataBufferSize = Wrote bytes ->
    len bytes <= kDataBufferSize ->
    exists c',
      dataToSend c = Some (UnsentDataBuffer, c')
      /\ _unsentDataBuffer c' = bytes
      /\ _unsentPayload c' = []
      /\ _sourceCalls c' = S (_sourceCalls c)
      /\ (_dataSource c' = None <-> len bytes < kDataBufferSize)
      /\ (len bytes = kDataBufferSize ->
          _dataSource c' = Some src /\ hasMoreDataToSend c' = true)
      /\ (0 < len bytes -> hasMoreDataToSend c' = true)
      /\ (0 < len bytes < kDataBufferSize ->
          forall rest, exists r c'',
            dataToSend (set UnsentDataBuffer rest c') = Some (r, c'')
            /\ _sourceCalls c'' = _sourceCalls c'
            /\ hasMoreDataToSend c'' = negb (len rest =? 0))
      /\ (len bytes = 0 ->
          hasMoreDataToSend c' = false /\ _dataBuffer c' = false).
Proof.
  intros c src bytes Hp Hb Hs Hcall Hcap.
  unfold dataToSend. rewrite Hp, Hs. simpl. rewrite Hb. simpl.
  unfold readFromDataSource. simpl. rewrite Hcall.
  destruct (Z.leb_spec (len bytes) kDataBufferSize) as [_|Hbad]; [|lia].
  simpl.
  pose proof (len_nonneg _ bytes) as Hnn.
  destruct (Z.eqb_spec (len bytes) 0) as [Hz|Hnz].
  - (* end of data *)
    eexists. split; [reflexivity|]. simpl.
    assert (Hlt : (len bytes <? kDataBufferSize) = true).
    { apply Z.ltb_lt. rewrite Hz. reflexivity. }
    rewrite Hlt.
    split; [reflexivity|]. split; [reflexivity|]. split; [reflexivity|].
    split. { split; intros _; [rewrite Hz|]; reflexivity. }
    split. { intro E. rewrite Hz in E. discriminate E. }
    split. { intro. exfalso. lia. }
    split. { intro. exfalso. lia. }
    intros _. split; [|reflexivity].
    unfold hasMoreDataToSend. simpl.
    apply len_zero in Hz. rewrite Hz. reflexivity.
  - eexists. split; [reflexivity|]. simpl.
    assert (Hpos : (len bytes >? 0) = true).
    { apply Z.gtb_lt. lia. }
    assert (Hmore : forall s, hasMoreDataToSend
              (mk (_payload c) [] s (S (_sourceCalls c)) true bytes) = true).
    { intro s. unfold hasMoreDataToSend. simpl. rewrite Hpos. reflexivity. }
    split; [reflexivity|]. split; [reflexivity|]. split; [reflexivity|].
    destruct (Z.ltb_spec (len bytes) kDataBufferSize) as [Hlt|Hge].
    + (* a short read *)
      split. { split; intros _; [assumption | reflexivity]. }
      split. { intro. exfalso. lia. }
      split. { intros _. apply Hmore. }
      split; [|intro; exfalso; lia].
      intros _ rest. unfold set. simpl.
      destruct (dataToSend_without_source
                  (mk (_payload c) [] None (S (_sourceCalls c)) true rest)
                  eq_refl) as [r [c'' [E [Hn [Hk [Hup Hub]]]]]].
      exists r, c''. split; [exact E|]. split; [exact Hk|].
      unfold hasMoreDataToSend. rewrite Hup, Hub, Hn. simpl.
      destruct (Z.eqb_spec (len rest) 0) as [E0|E0].
      * rewrite E0. reflexivity.
      * assert (G : (len rest >? 0) = true).
        { apply Z.gtb_lt. pose proof (len_nonneg _ rest). lia. }
        rewrite G. reflexivity.
    + (* the buffer was filled *)
      split. { split; intro E; [discriminate E | exfalso; lia]. }
      split. { intros _. split; [reflexivity | apply Hmore]. }
      split. { intros _. apply Hmore. }
      split; intro; exfalso; lia.
Qed.

Lemma source_dropped_on_short_read_witness :
  exists c',
    dataToSend SampleMessages.twoChunks = Some (UnsentDataBuffer, c')
    /\ _unsentDataBuffer c' = Samples.hello
    /\ (_dataSource c' = None <-> len Samples.hello < kDataBufferSize).
Proof.
  destruct (source_dropped_on_short_read SampleMessages.twoChunks
              (Samples.chunks [Samples.hello; Samples.hello]) Samples.hello
              eq_refl eq_refl eq_refl eq_refl)
    as [c' [E [Hb [_ [_ [Hiff _]]]]]].
  - vm_compute. discriminate.
  - exists c'. split; [exact E|]. split; [exact Hb | exact Hiff].
Defined.

(** C3, as stated, fails: a source holding two chunks of five bytes is
    dropped after its first call, which returned five bytes; the second
    chunk is never asked for, and once the five bytes are sent
    [hasMoreDataToSend] is false although no call returned zero. *)
Lemma source_dropped_after_positive_count :
  Samples.chunks [Samples.hello; Samples.hello] 0%nat kDataBufferSize
    = Wrote Samples.hello
  /\ Samples.chunks [Samples.hello; Samples.hello] 1%nat kDataBufferSize
    = Wrote Samples.hello
  /\ dataToSend SampleMessages.twoChunks
     = Some (UnsentDataBuffer, mk [] [] None 1 true Samples.hello)
  /\ dataToSend (set UnsentDataBuffer [] (mk [] [] None 1 true Samples.hello))
     = Some (UnsentDataBuffer, mk [] [] None 1 true [])
  /\ hasMoreDataToSend (mk [] [] None 1 true []) = false.
Proof.
  repeat split; reflexivity.
Qed.

End SourceProps.

(* ================================================================== *)
(** ** nextFrameToSend: structure of a call *)

Module FrameProps.

Import Codec MessageOut IntFacts.

Section WithCodec.

Context {C : Type} `{Ops C}.

(** The loop touches the contents and [_uncompressedBytesSent] only. *)
Lemma loop_keeps_header :
  forall fuel mode codec dst m codec1 dst1 m1,
    nextFrameToSend_loop fuel mode codec dst m = LoopDone codec1 dst1 m1 ->
    _flags m1 = _flags m /\ _number m1 = _number m
    /\ _bytesSent m1 = _bytesSent m /\ _unackedBytes m1 = _unackedBytes m.
Proof.
  induction fuel as [|fuel IH]; intros mode codec dst m codec1 dst1 m1 E;
    simpl in E; [discriminate E|].
  destruct (Contents.dataToSend (_contents m)) as [[ref c1]|]; [|discriminate E].
  destruct (len (Contents.get ref c1) =? 0).
  - inversion E; subst. simpl. repeat split; reflexivity.
  - destruct (write codec (Contents.get ref c1) (Slice.size dst) mode)
      as [[codec2 consumed] out].
    match type of E with
    | (if ?b then _ else _) = _ => destruct b
    end.
    + apply IH in E. simpl in E. exact E.
    + inversion E; subst. simpl. repeat split; reflexivity.
Qed.

(** The shape of a call on a message that is not an ack and returns. *)
Lemma returned_inv :
  forall fuel codec dst m r,
    isAck m = false ->
    nextFrameToSend fuel codec dst m = Returned r ->
    exists codec1 dst1 m1 dst2,
      nextFrameToSend_loop fuel
        (if hasFlag m kCompressed then SyncFlush else Raw) codec
        (Slice.setSize dst (Slice.size dst - kChecksumSize)) m
      = LoopDone codec1 dst1 m1
      /\ unflushedBytes codec1 <= 0
      /\ stripSyncFlushMarker
           (if hasFlag m kCompressed then SyncFlush else Raw)
           (Slice.size dst) dst1 = Some dst2
      /\ writeChecksum codec1
           (Slice.setSize dst2 (Slice.size dst2 + kChecksumSize))
         = Some (dst' r)
      /\ r = finishFrame codec1 (Slice.size dst) (dst' r) (flags m) m1.
Proof.
  intros fuel codec dst m r Hack E. unfold nextFrameToSend in E.
  rewrite Hack in E.
  destruct (nextFrameToSend_loop fuel _ codec _ m) as [codec1 dst1 m1| |];
    try discriminate E.
  destruct (Z.gtb_spec (unflushedBytes codec1) 0) as [Hu|Hu]; [discriminate E|].
  destruct (stripSyncFlushMarker _ (Slice.size dst) dst1) as [dst2|] eqn:Hs;
    [|discriminate E].
  destruct (writeChecksum codec1 _) as [dst4|] eqn:Hw; [|discriminate E].
  inversion E; subst r. simpl.
  exists codec1, dst1, m1, dst2. repeat split; try assumption; reflexivity.
Qed.

(** A call that throws leaves the flags and the two byte counters alone. *)
Lemma threw_keeps_counters :
  forall fuel codec dst m what codec1 dst1 m1,
    nextFrameToSend fuel codec dst m = Threw what codec1 dst1 m1 ->
    _flags m1 = _flags m
    /\ _bytesSent m1 = _bytesSent m /\ _unackedBytes m1 = _unackedBytes m.
Proof.
  intros fuel codec dst m what codec1 dst1 m1 E. unfold nextFrameToSend in E.
  destruct (isAck m).
  { destruct (Contents.dataToSend (_contents m)) as [[ref c1]|]; discriminate E. }
  destruct (nextFrameToSend_loop fuel _ codec _ m) as [codec2 dst2 m2| |] eqn:L;
    try discriminate E.
  apply loop_keeps_header in L. destruct L as [L1 [_ [L2 L3]]].
  destruct (unflushedBytes codec2 >? 0).
  { inversion E; subst. repeat split; assumption. }
  destruct (stripSyncFlushMarker _ (Slice.size dst) dst2) as [dst3|].
  - destruct (writeChecksum codec2 _) as [dst4|]; [discriminate E|].
    inversion E; subst. repeat split; assumption.
  - inversion E; subst. repeat split; assumption.
Qed.

(** What a call that returns does to the two byte counters: both grow by
    the same 32-bit amount, except that an ack leaves [_unackedBytes]. *)
Lemma returned_counters :
  forall fuel codec dst m r,
    nextFrameToSend fuel codec dst m = Returned r ->
    exists a, is_u32 a
      /\ _bytesSent (msg r) = u32 (_bytesSent m + a)
      /\ _unackedBytes (msg r)
         = (if isAck m then _unackedBytes m else u32 (_unackedBytes m + a)).
Proof.
  intros fuel codec dst m r E.
  destruct (isAck m) eqn:Hack.
  - unfold nextFrameToSend in E. rewrite Hack in E.
    destruct (Contents.dataToSend (_contents m)) as [[ref c1]|]; [|discriminate E].
    inversion E; subst r. simpl.
    exists (u32 (len (Contents.get ref c1))).
    split; [apply u32_range|]. split; reflexivity.
  - destruct (returned_inv _ _ _ _ _ Hack E)
      as [codec1 [dst1 [m1 [dst2 [L [_ [_ [_ Er]]]]]]]].
    apply loop_keeps_header in L. destruct L as [_ [_ [L2 L3]]].
    rewrite Er. unfold finishFrame. simpl.
    exists (u32 (u64 (Slice.size dst - Slice.size (dst' r)))).
    split; [apply u32_range|]. rewrite L2, L3. split; reflexivity.
Qed.

End WithCodec.

End FrameProps.

(* ================================================================== *)
(** ** nextFrameToSend: flags, progress and acks *)

Module FlagProps.

Import Codec MessageOut IntFacts FrameProps.

Lemma flagSet_after_lor :
  forall fl, flagSet (u8 (Z.lor fl kMoreComing)) kMoreComing = true.
Proof.
  intro fl. unfold flagSet. apply negb_true_iff. apply Z.eqb_neq.
  intro E.
  assert (B : Z.testbit (Z.land (u8 (Z.lor fl kMoreComing)) kMoreComing) 3 = true).
  { rewrite Z.land_spec. unfold u8, wrap.
    rewrite Z.mod_pow2_bits_low by lia.
    rewrite Z.lor_spec. unfold kMoreComing.
    replace (Z.testbit 8 3) with true by reflexivity.
    rewrite orb_true_r. reflexivity. }
  rewrite E in B. rewrite Z.bits_0 in B. discriminate B.
Qed.

Section WithCodec.

Context {C : Type} `{Ops C}.

(** C6.  A message's own flags hold its type and the bits [kUrgent],
    [kNoReply] and [kCompressed]; [kMoreComing] is the bit of a single
    frame, which [nextFrameToSend] alone adds.  For such a message that
    is not an ack, the flags [nextFrameToSend] returns have [kMoreComing]
    set if and only if [hasMoreDataToSend()] is true once the frame is
    filled: they are the message's flags with [kMoreComing] in that case
    and the message's flags as they are otherwise.  The progress state
    is [kSending] when more data remains; otherwise [kComplete] when
    [kNoReply] is set and [kAwaitingReply] when it is not. *)
Theorem moreComing_iff_more_data :
  forall (fuel : nat) (codec : C) (dst : Slice.slice) (m : MessageOut.t)
         (r : Sent C),
    isAck m = false ->
    hasFlag m kMoreComing = false ->
    nextFrameToSend fuel codec dst m = Returned r ->
    (flagSet (outFlags r) kMoreComing = true
     <-> Contents.hasMoreDataToSend (_contents (msg r)) = true)
    /\ outFlags r
       = (if Contents.hasMoreDataToSend (_contents (msg r))
          then u8 (Z.lor (flags m) kMoreComing) else flags m)
    /\ progress r
       = [mkProgress
            (if Contents.hasMoreDataToSend (_contents (msg r)) then kSending
             else if noReply m then kComplete else kAwaitingReply)
            (_uncompressedBytesSent (msg r)) 0].
Proof.
  intros fuel codec dst m r Hack Hown E.
  destruct (returned_inv _ _ _ _ _ Hack E)
    as [codec1 [dst1 [m1 [dst2 [L [_ [_ [_ Er]]]]]]]].
  apply loop_keeps_header in L. destruct L as [Lf _].
  assert (Hnr : forall x y,
            noReply (set_unackedBytes x (set_bytesSent y m1)) = noReply m).
  { intros x y. unfold noReply, hasFlag. simpl. rewrite Lf. reflexivity. }
  rewrite Er. unfold finishFrame. simpl.
  rewrite Hnr.
  destruct (Contents.hasMoreDataToSend (_contents m1)) eqn:Hmore.
  - split; [|split; reflexivity].
    split; intros _; [reflexivity | apply flagSet_after_lor].
  - split; [|split; reflexivity].
    unfold hasFlag in Hown. unfold flagSet, flags.
    rewrite Hown. split; intro X; discriminate X.
Qed.

End WithCodec.

(** The first frame of "hello" into a 7-byte buffer: two bytes remain. *)
Lemma moreComing_iff_more_data_witness :
  exists r,
    nextFrameToSend 2 StoredCodec.new (Samples.buffer 7)
                    SampleMessages.helloRequest = Returned r
    /\ flagSet (outFlags r) kMoreComing = true
    /\ progress r = [mkProgress kSending 3 0].
Proof.
  eexists. split; [vm_compute; reflexivity|].
  match goal with
  | |- flagSet (outFlags ?r) _ = _ /\ _ =>
      destruct (@moreComing_iff_more_data _ StoredCodec.ops 2 StoredCodec.new
                  (Samples.buffer 7) SampleMessages.helloRequest r
                  eq_refl eq_refl eq_refl) as [Hiff [_ Hp]]
  end.
  split; [apply Hiff; reflexivity | exact Hp].
Defined.

Section AckFrames.

Context {C : Type} `{Ops C}.

(** C7.  For a message of ack type whose payload holds the ack body and a
    destination with room for it, [nextFrameToSend] stores the body in the
    destination and nothing after it, leaves the codec as it was, returns
    the message's flags unchanged, adds the size of the body to
    [_bytesSent] and changes no other member; no progress is reported. *)
Theorem ack_frame_bypasses_codec :
  forall (fuel : nat) (codec : C) (dst : Slice.slice) (m : MessageOut.t),
    isAck m = true ->
    Contents._unsentPayload (_contents m) <> [] ->
    len (Contents._unsentPayload (_contents m)) <= Slice.size dst ->
    Slice.size dst < 2 ^ 64 ->
    exists r,
      nextFrameToSend fuel codec dst m = Returned r
      /\ codec' r = codec
      /\ Slice.written (dst' r)
         = Slice.written dst ++ Contents._unsentPayload (_contents m)
      /\ Slice.size (dst' r)
         = Slice.size dst - len (Contents._unsentPayload (_contents m))
      /\ outFlags r = flags m
      /\ progress r = []
      /\ msg r
         = set_bytesSent
             (u32 (_bytesSent m + len (Contents._unsentPayload (_contents m)))) m
      /\ _unackedBytes (msg r) = _unackedBytes m
      /\ _uncompressedBytesSent (msg r) = _uncompressedBytesSent m
      /\ _contents (msg r) = _contents m
      /\ (0 <= _bytesSent m ->
          _bytesSent m + len (Contents._unsentPayload (_contents m)) < 2 ^ 32 ->
          _bytesSent (msg r)
          = _bytesSent m + len (Contents._unsentPayload (_contents m))).
Proof.
  intros fuel codec dst m Hack Hbody Hroom Hsize.
  set (body := Contents._unsentPayload (_contents m)) in *.
  assert (Hpos : 0 < len body).
  { pose proof (len_nonneg _ body) as Hn.
    destruct (Z.eq_dec (len body) 0) as [E|E]; [|lia].
    apply len_zero in E. contradiction. }
  assert (Hdata : Contents.dataToSend (_contents m)
                  = Some (Contents.UnsentPayload, _contents m)).
  { unfold Contents.dataToSend. fold body.
    replace (len body >? 0) with true; [reflexivity|].
    symmetry. apply Z.gtb_lt. exact Hpos. }
  unfold nextFrameToSend. rewrite Hack, Hdata. simpl. fold body.
  eexists. split; [reflexivity|]. simpl.
  assert (Hfit : (len body >? Slice.size dst) = false).
  { rewrite Z.gtb_ltb. apply Z.ltb_ge. exact Hroom. }
  unfold Slice.writeFrom. rewrite Hfit. simpl.
  rewrite u32_add_u32_r.
  split; [reflexivity|]. split; [reflexivity|].
  split. { apply u64_small. unfold is_u64. lia. }
  split; [reflexivity|]. split; [reflexivity|].
  split. { destruct m; reflexivity. }
  split; [reflexivity|]. split; [reflexivity|]. split; [reflexivity|].
  intros H0 H1. apply u32_small. unfold is_u32. lia.
Qed.

End AckFrames.

Lemma ack_frame_bypasses_codec_witness :
  exists r,
    nextFrameToSend 0 StoredCodec.new (Samples.buffer 100) SampleMessages.ack
      = Returned r
    /\ Slice.written (dst' r) = [x05]
    /\ _bytesSent (msg r) = 1
    /\ _unackedBytes (msg r) = 0.
Proof.
  destruct (@ack_frame_bypasses_codec _ StoredCodec.ops 0 StoredCodec.new (Samples.buffer 100)
              SampleMessages.ack eq_refl)
    as [r [E [_ [Hw [_ [_ [_ [_ [Hu [_ [_ Hb]]]]]]]]]]].
  - discriminate.
  - vm_compute. discriminate.
  - reflexivity.
  - exists r. split; [exact E|]. split; [exact Hw|].
    split; [|exact Hu].
    apply Hb; [vm_compute; discriminate | reflexivity].
Defined.

End FlagProps.

(* ================================================================== *)
(** ** The reference codec keeps the codec's obligations *)

Module StoredCodecProps.

Import Codec IntFacts.

Lemma len_firstn_le :
  forall (l : list byte) (n : nat), len (firstn n l) <= Z.of_nat n.
Proof.
  intros l n. unfold len. rewrite length_firstn. lia.
Qed.

Lemma len_storedBlock :
  forall d : list byte, len (StoredCodec.storedBlock d) = 5 + len d.
Proof.
  intro d. unfold StoredCodec.storedBlock, len.
  rewrite length_app. simpl length. lia.
Qed.

#[global] Instance lawful : Lawful StoredCodec.t.
Proof.
  constructor.
  - intros c input room mode. cbn [write StoredCodec.ops].
    unfold StoredCodec.storedWrite. destruct mode.
    + cbn [fst snd]. unfold len. lia.
    + destruct (room <? 10); cbn [fst snd]; unfold len; lia.
  - intros c input room mode Hroom. cbn [write StoredCodec.ops].
    unfold StoredCodec.storedWrite. destruct mode.
    + cbn [fst snd].
      pose proof (len_firstn_le input (Z.to_nat (Z.min (len input) room))).
      pose proof (len_nonneg _ input). lia.
    + destruct (Z.ltb_spec room 10) as [Hs|Hs]; cbn [fst snd].
      * unfold len. simpl length. lia.
      * rewrite len_app, len_storedBlock.
        pose proof (len_firstn_le input
          (Z.to_nat (Z.min (Z.min (len input) (room - 10)) 65535))) as Hf.
        pose proof (len_nonneg _ input).
        change (len StoredCodec.syncFlush) with 5.
        lia.
Qed.

#[global] Instance productive : Productive StoredCodec.t.
Proof.
  constructor. intros c input room mode Hin Hroom.
  cbn [write StoredCodec.ops]. unfold StoredCodec.storedWrite. destruct mode.
  - cbn [fst snd]. destruct input as [|b input]; [contradiction Hin; reflexivity|].
    assert (Hn : (1 <= Z.to_nat (Z.min (len (b :: input)) room))%nat).
    { unfold len. simpl length. lia. }
    destruct (Z.to_nat (Z.min (len (b :: input)) room)); [lia|].
    rewrite firstn_cons. discriminate.
  - destruct (Z.ltb_spec room 10) as [Hs|Hs]; [lia|]. cbn [fst snd].
    unfold StoredCodec.storedBlock. rewrite <- app_assoc. discriminate.
Qed.

#[global] Instance flushing : Flushing StoredCodec.t.
Proof.
  constructor.
  - intros c input room mode. reflexivity.
  - intros c input room. cbn [write StoredCodec.ops].
    unfold StoredCodec.storedWrite.
    destruct (room <? 10); cbn [fst snd]; [left; reflexivity|].
    right. exists (StoredCodec.storedBlock
                     (firstn (Z.to_nat
                                (Z.min (Z.min (len input) (room - 10)) 65535))
                             input) ++ [x00]).
    rewrite <- app_assoc. reflexivity.
Qed.

(** In [Raw] mode input that fits is passed through whole. *)
Lemma raw_write_all :
  forall (c : StoredCodec.t) (input : list byte) (room : Z),
    len input <= room ->
    write c input room Raw = (StoredCodec.crcBytes c input, length input, input).
Proof.
  intros c input room Hfit. cbn [write StoredCodec.ops].
  unfold StoredCodec.storedWrite.
  rewrite Z.min_l by exact Hfit.
  unfold len. rewrite Nat2Z.id. rewrite firstn_all. reflexivity.
Qed.

End StoredCodecProps.

(* ================================================================== *)
(** ** nextFrameToSend returns *)

Module ReturnProps.

Import Codec MessageOut IntFacts.

(** With a data source that behaves, [dataToSend] is defined. *)
Lemma dataToSend_defined :
  forall c, Contents.sourceBehaves c ->
    exists ref c', Contents.dataToSend c = Some (ref, c')
                   /\ Contents.sourceBehaves c'.
Proof.
  intros c Hc. unfold Contents.dataToSend.
  destruct (len (Contents._unsentPayload c) >? 0).
  { exists Contents.UnsentPayload, c. split; [reflexivity | exact Hc]. }
  cbn [Contents._dataSource Contents._unsentDataBuffer].
  unfold Contents.sourceBehaves in Hc.
  destruct (Contents._dataSource c) as [src|] eqn:Hs.
  - destruct (len (Contents._unsentDataBuffer c) =? 0).
    + unfold Contents.readFromDataSource.
      cbn [Contents._sourceCalls Contents._payload Contents._unsentPayload].
      destruct (Hc (Contents._sourceCalls c)) as [bytes [Hb Hl]].
      rewrite Hb.
      destruct (Z.leb_spec (len bytes) Contents.kDataBufferSize) as [_|Hbad];
        [|lia].
      cbn [Contents._unsentDataBuffer].
      assert (Hok : forall a b d e f,
                 Contents.sourceBehaves
                   (Contents.mk a b
                      (if len bytes <? Contents.kDataBufferSize
                       then None else Some src) d e f)).
      { intros. unfold Contents.sourceBehaves. cbn [Contents._dataSource].
        destruct (len bytes <? Contents.kDataBufferSize); [exact I | exact Hc]. }
      destruct (len bytes =? 0); eexists _, _; (split; [reflexivity|]);
        cbn [Contents._payload Contents._unsentPayload Contents._dataSource
             Contents._sourceCalls Contents._unsentDataBuffer]; apply Hok.
    + eexists _, _. split; [reflexivity|].
      unfold Contents.sourceBehaves. cbn [Contents._dataSource].
      exact Hc.
  - eexists _, _. split; [reflexivity|].
    unfold Contents.sourceBehaves. cbn [Contents._dataSource].
    exact I.
Qed.

Lemma set_sourceBehaves :
  forall ref data c,
    Contents.sourceBehaves c -> Contents.sourceBehaves (Contents.set ref data c).
Proof.
  intros ref data c Hc. destruct ref; exact Hc.
Qed.

Section WithCodec.

Context {C : Type} {O : Ops C} {L : @Lawful C O} {P : @Productive C O}.

(** With a codec that is lawful and makes progress, the loop ends within
    as many passes as the destination has bytes, plus one. *)
Lemma loop_has_enough_fuel :
  forall fuel mode codec dst m,
    0 <= Slice.size dst < 2 ^ 64 ->
    (Z.to_nat (Slice.size dst) < fuel)%nat ->
    nextFrameToSend_loop fuel mode codec dst m <> LoopOutOfFuel.
Proof.
  induction fuel as [|fuel IH]; intros mode codec dst m Hsz Hfuel; [lia|].
  simpl.
  destruct (Contents.dataToSend (_contents m)) as [[ref c1]|]; [|discriminate].
  destruct (Z.eqb_spec (len (Contents.get ref c1)) 0) as [E|E]; [discriminate|].
  pose proof (write_fits codec (Contents.get ref c1) (Slice.size dst) mode
                (proj1 Hsz)) as Hfit.
  pose proof (write_progress codec (Contents.get ref c1) (Slice.size dst) mode)
    as Hprog.
  destruct (write codec (Contents.get ref c1) (Slice.size dst) mode)
    as [[codec2 consumed] out]. simpl in Hfit, Hprog.
  pose proof (len_nonneg _ out) as Hout.
  assert (Hput : u64 (Slice.size dst - len out) = Slice.size dst - len out).
  { apply u64_small. unfold is_u64. lia. }
  rewrite Hput.
  destruct (Z.geb_spec (Slice.size dst - len out) 1024) as [G|G]; [|discriminate].
  apply IH.
  - simpl. rewrite Hput. lia.
  - simpl. rewrite Hput.
    assert (Hne : out <> []).
    { apply Hprog; [|lia]. intro N. apply E. rewrite N. reflexivity. }
    assert (0 < len out).
    { destruct (Z.eq_dec (len out) 0) as [Z0|Z0]; [|lia].
      apply len_zero in Z0. contradiction. }
    lia.
Qed.

Context {F : @Flushing C O}.

(** With a codec that also flushes and a data source that behaves, the
    loop ends normally; what it appended to the destination is, in
    sync-flush mode, empty or ends with the marker. *)
Lemma loop_done :
  forall fuel mode codec dst m,
    0 <= Slice.size dst < 2 ^ 64 ->
    (Z.to_nat (Slice.size dst) < fuel)%nat ->
    Contents.sourceBehaves (_contents m) ->
    unflushedBytes codec = 0 ->
    exists codec1 dst1 m1 out,
      nextFrameToSend_loop fuel mode codec dst m = LoopDone codec1 dst1 m1
      /\ Slice.written dst1 = Slice.written dst ++ out
      /\ Slice.size dst1 = Slice.size dst - len out
      /\ 0 <= Slice.size dst1
      /\ unflushedBytes codec1 = 0
      /\ (mode = SyncFlush ->
          out = [] \/ exists body, out = body ++ syncFlushMarker).
Proof.
  induction fuel as [|fuel IH]; intros mode codec dst m Hsz Hfuel Hsrc Hun;
    [lia|].
  simpl.
  destruct (dataToSend_defined _ Hsrc) as [ref [c1 [Hd Hsrc1]]].
  rewrite Hd.
  destruct (Z.eqb_spec (len (Contents.get ref c1)) 0) as [E|E].
  { exists codec, dst, (set_contents c1 m), []. rewrite app_nil_r.
    split; [reflexivity|]. split; [reflexivity|].
    split; [unfold len; simpl; lia|]. split; [lia|].
    split; [exact Hun|]. intros _. left. reflexivity. }
  pose proof (write_fits codec (Contents.get ref c1) (Slice.size dst) mode
                (proj1 Hsz)) as Hfit.
  pose proof (write_progress codec (Contents.get ref c1) (Slice.size dst) mode)
    as Hprog.
  pose proof (write_flushed codec (Contents.get ref c1) (Slice.size dst) mode)
    as Hfl.
  assert (Hmk : mode = SyncFlush ->
                snd (write codec (Contents.get ref c1) (Slice.size dst) mode) = []
                \/ exists body,
                     snd (write codec (Contents.get ref c1) (Slice.size dst) mode)
                     = body ++ syncFlushMarker).
  { intro Em. subst mode. apply syncFlush_marker. }
  destruct (write codec (Contents.get ref c1) (Slice.size dst) mode)
    as [[codec2 consumed] out]. simpl in Hfit, Hprog, Hfl, Hmk.
  pose proof (len_nonneg _ out) as Hout.
  assert (Hput : u64 (Slice.size dst - len out) = Slice.size dst - len out).
  { apply u64_small. unfold is_u64. lia. }
  rewrite Hput.
  destruct (Z.geb_spec (Slice.size dst - len out) 1024) as [G|G].
  - assert (Hne : out <> []).
    { apply Hprog; [|lia]. intro N. apply E. rewrite N. reflexivity. }
    assert (0 < len out).
    { destruct (Z.eq_dec (len out) 0) as [Z0|Z0]; [|lia].
      apply len_zero in Z0. contradiction. }
    match goal with
    | |- context [nextFrameToSend_loop fuel mode codec2 ?d ?mm] =>
        assert (Hs1 : Contents.sourceBehaves (_contents mm))
          by (apply set_sourceBehaves; exact Hsrc1);
        assert (Hd1 : Slice.size d = Slice.size dst - len out)
          by (simpl; exact Hput);
        destruct (IH mode codec2 d mm
                    ltac:(rewrite Hd1; lia) ltac:(rewrite Hd1; lia) Hs1 Hfl)
          as [codec3 [dst3 [m3 [out3 [El [Ew [Es [Ep [Eu Em]]]]]]]]]
    end.
    exists codec3, dst3, m3, (out ++ out3).
    split; [exact El|].
    simpl in Ew, Es. rewrite Hput in Es.
    split; [rewrite Ew, app_assoc; reflexivity|].
    split; [rewrite Es, len_app; lia|].
    split; [exact Ep|]. split; [exact Eu|].
    intro Hm. destruct (Em Hm) as [E3|[body E3]].
    + rewrite E3, app_nil_r. apply Hmk. exact Hm.
    + right. exists (out ++ body). rewrite E3, app_assoc. reflexivity.
  - exists codec2, (Slice.put dst out). eexists. exists out.
    split; [reflexivity|]. split; [reflexivity|].
    simpl. rewrite Hput.
    split; [reflexivity|]. split; [lia|]. split; [exact Hfl | exact Hmk].
Qed.

(** With such a codec, a data source that behaves, a destination of at
    least four bytes and more fuel than the destination has bytes, a call
    on a message that is not an ack returns. *)
Lemma frame_call_returns :
  forall fuel codec dst m,
    isAck m = false ->
    kChecksumSize <= Slice.size dst < 2 ^ 64 ->
    (Z.to_nat (Slice.size dst) < fuel)%nat ->
    Contents.sourceBehaves (_contents m) ->
    unflushedBytes codec = 0 ->
    exists r, nextFrameToSend fuel codec dst m = Returned r.
Proof.
  intros fuel codec dst m Hack Hsz Hfuel Hsrc Hun.
  unfold kChecksumSize in Hsz.
  unfold nextFrameToSend. rewrite Hack.
  set (mode := if hasFlag m kCompressed then SyncFlush else Raw).
  assert (Hs0 : Slice.size (Slice.setSize dst (Slice.size dst - kChecksumSize))
                = Slice.size dst - 4).
  { simpl. apply u64_small. unfold is_u64, kChecksumSize. lia. }
  destruct (loop_done fuel mode codec
              (Slice.setSize dst (Slice.size dst - kChecksumSize)) m
              ltac:(rewrite Hs0; lia) ltac:(rewrite Hs0; lia) Hsrc Hun)
    as [codec1 [dst1 [m1 [out [El [Ew [Es [Ep [Eu Em]]]]]]]]].
  rewrite El, Eu. rewrite Hs0 in Es. simpl in Ew.
  change (0 >? 0) with false. cbv iota.
  pose proof (len_nonneg _ out) as Hout.
  assert (Hstrip : exists dst2,
             stripSyncFlushMarker mode (Slice.size dst) dst1 = Some dst2
             /\ 0 <= Slice.size dst2 /\ Slice.size dst2 + 4 <= Slice.size dst).
  { unfold stripSyncFlushMarker. destruct mode eqn:Hmode.
    - exists dst1. split; [reflexivity|]. lia.
    - assert (Hbw : u64 (Slice.size dst - kChecksumSize - Slice.size dst1)
                    = len out).
      { unfold kChecksumSize. rewrite Es.
        replace (Slice.size dst - 4 - (Slice.size dst - 4 - len out))
          with (len out) by lia.
        apply u64_small. unfold is_u64. lia. }
      rewrite Hbw.
      destruct (Z.gtb_spec (len out) 0) as [Hpos|Hzero].
      + destruct (Em eq_refl) as [E0|[body Eb]].
        { apply (proj2 (len_zero _ out)) in E0. lia. }
        assert (H4 : len out = len body + 4).
        { rewrite Eb, len_app. reflexivity. }
        pose proof (len_nonneg _ body) as Hbody.
        assert (Hn : (4 <= length out)%nat) by (unfold len in H4, Hbody; lia).
        destruct (tail_of_app (Slice.written dst) out 4 Hn) as [Tskip _].
        assert (Htail : Slice.tail 4 dst1 = syncFlushMarker).
        { unfold Slice.tail. rewrite Ew, Tskip, Eb.
          rewrite length_app. simpl length.
          replace (length body + 4 - 4)%nat with (length body + 0)%nat by lia.
          rewrite skipn_app, Nat.add_0_r, skipn_all.
          replace (length body - length body)%nat with 0%nat by lia.
          reflexivity. }
        rewrite Htail.
        replace (len out >=? 4) with true
          by (symmetry; apply Z.geb_le; lia).
        replace (bytes_eqb syncFlushMarker syncFlushMarker) with true
          by (symmetry; apply bytes_eqb_eq; reflexivity).
        cbn [andb]. eexists. split; [reflexivity|].
        cbn [Slice.size Slice.moveStart]. rewrite Es.
        rewrite u64_small by (unfold is_u64; lia). lia.
      + exists dst1. split; [reflexivity|]. lia. }
  destruct Hstrip as [dst2 [Hs [Hlo Hhi]]]. rewrite Hs.
  unfold writeChecksum, kChecksumSize. cbn [Slice.size Slice.setSize].
  rewrite (u64_small (Slice.size dst2 + 4)) by (unfold is_u64; lia).
  destruct (Z.ltb_spec (Slice.size dst2 + 4) 4) as [Hbad|_]; [lia|].
  eexists. reflexivity.
Qed.

End WithCodec.

Section Theorems.

Context {C : Type} {O : Ops C} {L : @Lawful C O} {P : @Productive C O}
        {F : @Flushing C O}.

(** [nextFrameToSend] comes to an end: given more fuel than the
    destination has bytes, the outcome is a return, an exception or the
    undefined behaviour of a failing data source, never [OutOfFuel]. *)
Theorem nextFrameToSend_has_enough_fuel :
  forall (fuel : nat) (codec : C) (dst : Slice.slice) (m : MessageOut.t),
    kChecksumSize <= Slice.size dst < 2 ^ 64 ->
    (Z.to_nat (Slice.size dst) < fuel)%nat ->
    nextFrameToSend fuel codec dst m <> OutOfFuel.
Proof.
  intros fuel codec dst m Hsz Hfuel. unfold nextFrameToSend.
  unfold kChecksumSize in *.
  destruct (isAck m).
  { destruct (Contents.dataToSend (_contents m)) as [[ref c1]|]; discriminate. }
  pose proof (loop_has_enough_fuel fuel
                (if hasFlag m kCompressed then SyncFlush else Raw) codec
                (Slice.setSize dst (Slice.size dst - 4)) m) as Hloop.
  assert (Hs0 : Slice.size (Slice.setSize dst (Slice.size dst - 4))
                = Slice.size dst - 4).
  { simpl. apply u64_small. unfold is_u64. lia. }
  rewrite Hs0 in Hloop.
  destruct (nextFrameToSend_loop fuel _ codec _ m) as [codec1 dst1 m1| |].
  - destruct (unflushedBytes codec1 >? 0); [discriminate|].
    destruct (stripSyncFlushMarker _ (Slice.size dst) dst1) as [dst2|];
      [|discriminate].
    destruct (writeChecksum codec1 _); discriminate.
  - discriminate.
  - exfalso. apply Hloop; [lia | lia | reflexivity].
Qed.

(** [nextFrameToSend] returns: with a codec that is lawful, makes progress
    and flushes, a data source that behaves, a destination of at least
    four bytes and more fuel than the destination has bytes, every call
    returns normally, for acks and for other messages alike. *)
Theorem nextFrameToSend_returns :
  forall (fuel : nat) (codec : C) (dst : Slice.slice) (m : MessageOut.t),
    kChecksumSize <= Slice.size dst < 2 ^ 64 ->
    (Z.to_nat (Slice.size dst) < fuel)%nat ->
    Contents.sourceBehaves (_contents m) ->
    unflushedBytes codec = 0 ->
    exists r, nextFrameToSend fuel codec dst m = Returned r.
Proof.
  intros fuel codec dst m Hsz Hfuel Hsrc Hun.
  destruct (isAck m) eqn:Hack.
  - unfold nextFrameToSend. rewrite Hack.
    destruct (dataToSend_defined _ Hsrc) as [ref [c1 [Hd _]]].
    rewrite Hd. eexists. reflexivity.
  - apply frame_call_returns; assumption.
Qed.

End Theorems.

Lemma nextFrameToSend_has_enough_fuel_witness :
  nextFrameToSend 101 StoredCodec.new (Samples.buffer 100)
                  SampleMessages.helloCompressed <> OutOfFuel.
Proof.
  apply (@nextFrameToSend_has_enough_fuel _ StoredCodec.ops
           StoredCodecProps.lawful StoredCodecProps.productive).
  - vm_compute. split; [discriminate | reflexivity].
  - vm_compute. lia.
Defined.

Lemma nextFrameToSend_returns_witness :
  exists r,
    nextFrameToSend 101 StoredCodec.new (Samples.buffer 100)
                    SampleMessages.helloCompressed = Returned r.
Proof.
  apply (@nextFrameToSend_returns _ StoredCodec.ops
           StoredCodecProps.lawful StoredCodecProps.productive
           StoredCodecProps.flushing).
  - vm_compute. split; [discriminate | reflexivity].
  - vm_compute. lia.
  - exact I.
  - reflexivity.
Defined.

End ReturnProps.

(* ================================================================== *)
(** ** nextFrameToSend: the compressed frame *)

Module CompressionProps.

Import Codec MessageOut IntFacts FrameProps.

Section WithCodec.

Context {C : Type} {O : Ops C} {Lw : @Lawful C O}.

(** With a lawful codec the loop only appends to the destination and
    never overruns it. *)
Lemma loop_appends :
  forall fuel mode codec dst m codec1 dst1 m1,
    0 <= Slice.size dst < 2 ^ 64 ->
    nextFrameToSend_loop fuel mode codec dst m = LoopDone codec1 dst1 m1 ->
    exists out,
      Slice.written dst1 = Slice.written dst ++ out
      /\ Slice.size dst1 = Slice.size dst - len out
      /\ 0 <= Slice.size dst1.
Proof.
  induction fuel as [|fuel IH]; intros mode codec dst m codec1 dst1 m1 Hsz E;
    simpl in E; [discriminate E|].
  destruct (Contents.dataToSend (_contents m)) as [[ref c1]|]; [|discriminate E].
  destruct (len (Contents.get ref c1) =? 0).
  - inversion E; subst. exists []. rewrite app_nil_r.
    unfold len. simpl. split; [reflexivity|]. split; lia.
  - pose proof (write_fits codec (Contents.get ref c1) (Slice.size dst) mode
                  (proj1 Hsz)) as Hfit.
    destruct (write codec (Contents.get ref c1) (Slice.size dst) mode)
      as [[codec2 consumed] out]. simpl in Hfit.
    pose proof (len_nonneg _ out) as Hout.
    assert (Hput : Slice.size (Slice.put dst out) = Slice.size dst - len out).
    { simpl. apply u64_small. unfold is_u64. lia. }
    match type of E with
    | (if ?b then _ else _) = _ => destruct b
    end.
    + apply IH in E; [|rewrite Hput; lia].
      destruct E as [out' [Ew [Es Ep]]].
      exists (out ++ out'). rewrite Ew, Es, Hput. simpl.
      rewrite app_assoc, len_app.
      split; [reflexivity|]. split; lia.
    + inversion E; subst. exists out. rewrite Hput.
      split; [reflexivity|]. split; lia.
Qed.

(** C5.  For a message that is not an ack and has [kCompressed] set, a
    call that returns has produced this frame: the output [out] of the
    codec's sync-flush writes with its last four bytes [00 00 FF FF]
    removed whenever [out] is not empty, followed by the four bytes of the
    checksum.  When [out] is empty nothing is removed and the frame is the
    checksum alone.  The room reserved at the start makes the checksum fit:
    the frame is never longer than the destination.  And the call does
    return such a frame when the codec makes progress and flushes, the
    data source behaves and the fuel exceeds the size of the destination. *)
Theorem compressed_frame_strips_marker :
  forall (fuel : nat) (codec : C) (dst : Slice.slice) (m : MessageOut.t),
    isAck m = false ->
    hasFlag m kCompressed = true ->
    kChecksumSize <= Slice.size dst < 2 ^ 64 ->
    (forall r : Sent C,
        nextFrameToSend fuel codec dst m = Returned r ->
        exists dst1 m1 out,
          nextFrameToSend_loop fuel SyncFlush codec
            (Slice.setSize dst (Slice.size dst - kChecksumSize)) m
          = LoopDone (codec' r) dst1 m1
          /\ Slice.written dst1 = Slice.written dst ++ out
          /\ (out = [] ->
              Slice.written (dst' r)
              = Slice.written dst ++ bigEndian32 (checksum (codec' r)))
          /\ (out <> [] ->
              exists body,
                out = body ++ syncFlushMarker
                /\ Slice.written (dst' r)
                   = Slice.written dst ++ body
                       ++ bigEndian32 (checksum (codec' r)))
          /\ len (Slice.written (dst' r)) - len (Slice.written dst)
             <= Slice.size dst
          /\ Slice.size (dst' r)
             = Slice.size dst
               - (len (Slice.written (dst' r)) - len (Slice.written dst)))
    /\ (@Productive C O -> @Flushing C O ->
        Contents.sourceBehaves (_contents m) ->
        unflushedBytes codec = 0 ->
        (Z.to_nat (Slice.size dst) < fuel)%nat ->
        exists r, nextFrameToSend fuel codec dst m = Returned r).
Proof.
  intros fuel codec dst m Hack Hcomp Hsz.
  split.
  2: { intros HP HF Hsrc Hun Hfuel.
       apply (@ReturnProps.frame_call_returns C O Lw HP HF); assumption. }
  intros r E. unfold kChecksumSize in Hsz.
  destruct (returned_inv _ _ _ _ _ Hack E)
    as [codec1 [dst1 [m1 [dst2 [L [_ [Hs [Hw Er]]]]]]]].
  rewrite Hcomp in L, Hs.
  assert (Hc : codec' r = codec1) by (rewrite Er; reflexivity).
  rewrite Hc. exists dst1, m1.
  assert (Hsz0 : Slice.size (Slice.setSize dst (Slice.size dst - kChecksumSize))
                 = Slice.size dst - 4).
  { simpl. apply u64_small. unfold is_u64, kChecksumSize. lia. }
  destruct (loop_appends _ _ _ _ _ _ _ _ ltac:(rewrite Hsz0; lia) L)
    as [out [Ew [Es Ep]]].
  simpl in Ew. rewrite Hsz0 in Es.
  exists out. split; [exact L|]. split; [exact Ew|].
  pose proof (len_nonneg _ out) as Hout.
  pose proof (len_nonneg _ (Slice.written dst)) as Hwd.
  assert (Hbw : u64 (Slice.size dst - kChecksumSize - Slice.size dst1) = len out).
  { unfold kChecksumSize. rewrite Es.
    replace (Slice.size dst - 4 - (Slice.size dst - 4 - len out)) with (len out) by lia.
    apply u64_small. unfold is_u64. lia. }
  unfold stripSyncFlushMarker in Hs. rewrite Hbw in Hs.
  unfold writeChecksum, kChecksumSize in Hw.
  destruct (Z.gtb_spec (len out) 0) as [Hpos|Hzero].
  - (* compressed output was produced *)
    destruct (Z.geb_spec (len out) 4) as [H4|H4]; [|discriminate Hs].
    destruct (bytes_eqb (Slice.tail 4 dst1) syncFlushMarker) eqn:Hm;
      [|discriminate Hs].
    simpl in Hs. inversion Hs; subst dst2. clear Hs.
    apply bytes_eqb_eq in Hm. unfold Slice.tail in Hm.
    assert (Hn : (4 <= length out)%nat) by (unfold len in H4; lia).
    destruct (tail_of_app (Slice.written dst) out 4 Hn) as [Tskip Tfirst].
    rewrite Ew, Tskip in Hm.
    set (body := firstn (length out - 4) out).
    assert (Hsplit : out = body ++ syncFlushMarker).
    { rewrite <- Hm. unfold body. symmetry. apply firstn_skipn. }
    assert (Hmoved : Slice.written (Slice.moveStart dst1 (-4))
                     = Slice.written dst ++ body).
    { simpl. rewrite Ew.
      replace (Z.to_nat (len (Slice.written dst ++ out) + -4))
        with (length (Slice.written dst ++ out) - 4)%nat
        by (unfold len; lia).
      exact Tfirst. }
    assert (Hmsz : Slice.size (Slice.moveStart dst1 (-4))
                   = Slice.size dst - len out).
    { simpl. rewrite Es. replace (Slice.size dst - 4 - len out - -4)
        with (Slice.size dst - len out) by lia.
      apply u64_small. unfold is_u64. lia. }
    assert (Hlb : len out = len body + 4).
    { rewrite Hsplit. rewrite len_app. reflexivity. }
    rewrite Hmsz in Hw.
    assert (Hsz3 : u64 (Slice.size dst - len out + 4) = Slice.size dst - len out + 4).
    { apply u64_small. unfold is_u64. lia. }
    unfold Slice.setSize in Hw. cbn [Slice.size Slice.written] in Hw.
    rewrite Hsz3 in Hw.
    destruct (Z.ltb_spec (Slice.size dst - len out + 4) 4) as [Hbad|_]; [lia|].
    inversion Hw as [Hd]. clear Hw. unfold Slice.put.
    cbn [Slice.size Slice.written].
    unfold Slice.moveStart in Hmoved. cbn [Slice.written] in Hmoved.
    rewrite Hmoved.
    split. { intro E0. apply (proj2 (len_zero _ out)) in E0. lia. }
    split. { intros _. exists body. split; [exact Hsplit|].
             rewrite app_assoc. reflexivity. }
    rewrite !len_app.
    assert (Hbe : len (bigEndian32 (checksum codec1)) = 4) by reflexivity.
    rewrite Hbe.
    split; [lia|].
    rewrite u64_small by (unfold is_u64; lia). lia.
  - (* no compressed output *)
    assert (Hempty : out = []) by (apply len_zero; lia).
    inversion Hs; subst dst2. clear Hs.
    unfold Slice.setSize in Hw. simpl in Hw. rewrite Es in Hw.
    subst out. unfold len in Hw. simpl in Hw.
    replace (Slice.size dst - 4 - 0 + 4) with (Slice.size dst) in Hw by lia.
    rewrite (u64_small (Slice.size dst)) in Hw by (unfold is_u64; lia).
    destruct (Z.ltb_spec (Slice.size dst) 4) as [Hbad|_]; [lia|].
    inversion Hw as [Hd]. clear Hw. unfold Slice.put. simpl.
    rewrite Ew. rewrite app_nil_r.
    split; [intros _; reflexivity|].
    split. { intro N. contradiction N. reflexivity. }
    rewrite !len_app.
    assert (Hbe : len (bigEndian32 (checksum codec1)) = 4) by reflexivity.
    rewrite Hbe.
    split; [lia|].
    rewrite u64_small by (unfold is_u64; lia). lia.
Qed.

End WithCodec.

Lemma compressed_frame_strips_marker_witness :
  exists r,
    nextFrameToSend 101 StoredCodec.new (Samples.buffer 100)
                    SampleMessages.helloCompressed = Returned r
    /\ exists body,
         body ++ syncFlushMarker
         = StoredCodec.storedBlock Samples.hello ++ StoredCodec.syncFlush
         /\ Slice.written (dst' r) = body ++ bigEndian32 (checksum (codec' r))
         /\ len (Slice.written (dst' r)) <= 100.
Proof.
  destruct (@compressed_frame_strips_marker
              _ StoredCodec.ops StoredCodecProps.lawful
              101 StoredCodec.new (Samples.buffer 100)
              SampleMessages.helloCompressed eq_refl eq_refl)
    as [Hframe Hreturns].
  - vm_compute. split; [discriminate | reflexivity].
  - destruct (Hreturns StoredCodecProps.productive StoredCodecProps.flushing
                I eq_refl) as [r E].
    { vm_compute. lia. }
    exists r. split; [exact E|].
    destruct (Hframe r E) as [dst1 [m1 [out [L [Ew [_ [Hne [Hfit _]]]]]]]].
    assert (Hc : exists r0,
               nextFrameToSend 101 StoredCodec.new (Samples.buffer 100)
                 SampleMessages.helloCompressed = Returned r0
               /\ codec' r0 = 3387906425).
    { eexists. split; [vm_compute; reflexivity | reflexivity]. }
    destruct Hc as [r0 [E0 Hc]].
    rewrite E in E0. inversion E0; subst r0. clear E0.
    rewrite Hc in L.
    vm_compute in L. inversion L; subst dst1 m1. clear L.
    simpl in Ew. subst out.
    destruct Hne as [body [Hb Hw]]; [discriminate|].
    exists body. split; [symmetry; exact Hb|].
    split; [exact Hw|].
    change (len (Slice.written (dst' r)) - 0 <= 100) in Hfit. lia.
Defined.

End CompressionProps.

(* ================================================================== *)
(** ** The byte counters along a sequence of calls *)

Module CounterProps.

Import Codec MessageOut IntFacts FrameProps Trace.

Section WithCodec.

Context {C : Type} `{Ops C}.

Lemma sentInTotal_invariant :
  forall m total,
    sentInTotal m total ->
    0 <= total
    /\ (total < 2 ^ 32 ->
        0 <= _unackedBytes m <= _bytesSent m /\ _bytesSent m = total).
Proof.
  intros m total R. induction R as
    [ flags payload dataSource number
    | m total fuel codec dst r R IH E
    | m total fuel codec dst what codec1 dst1 m1 R IH E
    | m total byteCount R IH Hc ].
  - simpl. split; [lia|]. intros _. lia.
  - destruct IH as [Ht IH].
    destruct (returned_counters _ _ _ _ _ E) as [a [Ha [Eb Eu]]].
    rewrite Eb. rewrite (u32_step _ _ Ha).
    unfold is_u32 in Ha.
    split; [lia|]. intro Hlt.
    destruct IH as [[Hu0 Hub] Hbt]; [lia|].
    assert (Eb' : u32 (_bytesSent m + a) = _bytesSent m + a).
    { apply u32_small. unfold is_u32. lia. }
    rewrite Eu, Eb'. split; [|lia].
    destruct (isAck m); [lia|].
    rewrite u32_small by (unfold is_u32; lia). lia.
  - destruct IH as [Ht IH].
    destruct (threw_keeps_counters _ _ _ _ _ _ _ _ E) as [_ [Eb Eu]].
    rewrite Eb, Eu. split; assumption.
  - destruct IH as [Ht IH]. split; [exact Ht|]. intro Hlt.
    destruct (IH Hlt) as [[Hu0 Hub] Hbt].
    unfold receivedAck.
    destruct (Z.leb_spec byteCount (_bytesSent m)) as [Hle|Hgt]; simpl; [|lia].
    pose proof (u32_range (_bytesSent m - byteCount)) as Hr.
    unfold is_u32 in Hr. lia.
Qed.

(** C1 (as amended).  After any sequence of [nextFrameToSend] and
    [receivedAck] calls on a freshly constructed message, as long as the
    calls have added fewer than 2^32 bytes to [_bytesSent] in total, the
    counters satisfy [0 <= unackedBytes <= bytesSent], and [_bytesSent] is
    that total. *)
Theorem counters_ordered_below_wrap :
  forall (m : MessageOut.t) (total : Z),
    sentInTotal m total ->
    total < 2 ^ 32 ->
    0 <= _unackedBytes m <= _bytesSent m /\ _bytesSent m = total.
Proof.
  intros m total R Hlt. apply (sentInTotal_invariant m total R). exact Hlt.
Qed.

(** One pass through the loop body that ends the loop. *)
Lemma loop_single_write :
  forall fuel mode codec dst m ref c1 codec1 consumed out,
    Contents.dataToSend (_contents m) = Some (ref, c1) ->
    len (Contents.get ref c1) <> 0 ->
    write codec (Contents.get ref c1) (Slice.size dst) mode
      = (codec1, consumed, out) ->
    Slice.size (Slice.put dst out) < 1024 ->
    nextFrameToSend_loop (S fuel) mode codec dst m
    = LoopDone codec1 (Slice.put dst out)
        (set_uncompressedBytesSent
           (u32 (u32 (_uncompressedBytesSent m + u32 (len (Contents.get ref c1)))
                 - u32 (len (skipn consumed (Contents.get ref c1)))))
           (set_contents
              (Contents.set ref (skipn consumed (Contents.get ref c1)) c1) m)).
Proof.
  intros fuel mode codec dst m ref c1 codec1 consumed out Hd Hn Hw Hs.
  simpl. rewrite Hd.
  destruct (Z.eqb_spec (len (Contents.get ref c1)) 0) as [E|_]; [contradiction|].
  rewrite Hw. simpl in Hs.
  destruct (Z.geb_spec (u64 (Slice.size dst - len out)) 1024) as [G|_]; [lia|].
  reflexivity.
Qed.

(** Frames sent in a row keep the message among the reachable ones. *)
Lemma sendFrames_reachable :
  forall (room : Z) (n : N) (codec codec1 : C) (m m1 : MessageOut.t),
    reachable m ->
    sendFrames n room codec m = Some (codec1, m1) ->
    reachable m1.
Proof.
  intros room n codec codec1 m m1 Rm. revert codec1 m1. unfold sendFrames.
  induction n as [|n IH] using N.peano_ind; intros codec1 m1 E.
  - simpl in E. inversion E; subst. exact Rm.
  - rewrite N.iter_succ in E.
    destruct (N.iter n (sendFrame room) (Some (codec, m))) as [[c2 m2]|];
      [|discriminate E].
    simpl in E.
    destruct (nextFrameToSend 2 c2 (Samples.buffer room) m2) as [r| | |] eqn:F;
      try discriminate E.
    inversion E; subst. eapply reach_sent; [|exact F].
    apply (IH c2 m2). reflexivity.
Qed.

End WithCodec.

End CounterProps.

(* ================================================================== *)
(** ** A stream longer than 4 GiB *)

Module LongStreamProps.

Import Codec MessageOut IntFacts FrameProps Trace.

Lemma len_zeroChunk : len Samples.zeroChunk = 16384.
Proof.
  unfold Samples.zeroChunk, len. rewrite repeat_length. reflexivity.
Qed.

Lemma dataToSend_streaming :
  forall k allocated,
    Contents.dataToSend (Contents.mk [] [] (Some Samples.zeros) k allocated [])
    = Some (Contents.UnsentDataBuffer,
            Contents.mk [] [] (Some Samples.zeros) (S k) true Samples.zeroChunk).
Proof.
  intros k allocated. vm_compute. reflexivity.
Qed.

(** One frame of the stream into a destination of 16388 bytes: a whole
    buffer of 16384 bytes and the checksum. *)
Lemma streaming_frame :
  forall (codec : StoredCodec.t) k allocated uncompressed sent unacked,
    exists r uncompressed',
      nextFrameToSend 2 codec (Samples.buffer 16388)
        (streaming k allocated uncompressed sent unacked) = Returned r
      /\ msg r = streaming (S k) true uncompressed'
                   (u32 (sent + 16388)) (u32 (unacked + 16388)).
Proof.
  intros codec k allocated uncompressed sent unacked.
  pose proof len_zeroChunk as Hlen.
  pose proof (dataToSend_streaming k allocated) as Hd.
  assert (Hw : write codec Samples.zeroChunk 16384 Raw
               = (StoredCodec.crcBytes codec Samples.zeroChunk,
                  length Samples.zeroChunk, Samples.zeroChunk)).
  { apply StoredCodecProps.raw_write_all. rewrite Hlen. lia. }
  assert (L : nextFrameToSend_loop 2 Raw codec
                (Slice.setSize (Samples.buffer 16388) (16388 - kChecksumSize))
                (streaming k allocated uncompressed sent unacked)
              = LoopDone (StoredCodec.crcBytes codec Samples.zeroChunk)
                  (Slice.mk Samples.zeroChunk 0)
                  (streaming (S k) true
                     (u32 (u32 (uncompressed + u32 16384) - u32 0))
                     sent unacked)).
  { rewrite (CounterProps.loop_single_write 1 Raw codec
               (Slice.setSize (Samples.buffer 16388) (16388 - kChecksumSize))
               (streaming k allocated uncompressed sent unacked)
               Contents.UnsentDataBuffer
               (Contents.mk [] [] (Some Samples.zeros) (S k) true Samples.zeroChunk)
               (StoredCodec.crcBytes codec Samples.zeroChunk)
               (length Samples.zeroChunk) Samples.zeroChunk).
    - unfold Slice.put, streaming, set_uncompressedBytesSent, set_contents,
        Contents.set.
      cbn [Contents.get Slice.written Slice.size Slice.setSize Samples.buffer
           _flags _number _contents _uncompressedBytesSent _bytesSent
           _unackedBytes Contents._payload Contents._unsentPayload
           Contents._dataSource Contents._sourceCalls Contents._dataBuffer
           Contents._unsentDataBuffer app].
      rewrite skipn_all. rewrite Hlen.
      reflexivity.
    - exact Hd.
    - cbn [Contents.get Contents._unsentDataBuffer]. rewrite Hlen. discriminate.
    - exact Hw.
    - unfold Slice.put. cbn [Slice.size Slice.setSize Samples.buffer].
      rewrite Hlen. reflexivity. }
  unfold nextFrameToSend.
  change (isAck (streaming k allocated uncompressed sent unacked)) with false.
  change (hasFlag (streaming k allocated uncompressed sent unacked) kCompressed)
    with false.
  cbv iota. change (Slice.size (Samples.buffer 16388)) with 16388.
  rewrite L.
  eexists. eexists. split; [reflexivity|].
  reflexivity.
Qed.

(** [n] such frames in a row. *)
Lemma streaming_frames :
  forall (n : N) (codec : StoredCodec.t) k allocated uncompressed sent unacked,
    is_u32 sent -> is_u32 unacked ->
    exists codec' k' allocated' uncompressed',
      sendFrames n 16388 codec (streaming k allocated uncompressed sent unacked)
      = Some (codec',
              streaming k' allocated' uncompressed'
                (u32 (sent + Z.of_N n * 16388))
                (u32 (unacked + Z.of_N n * 16388))).
Proof.
  intros n codec k allocated uncompressed sent unacked Hs Hu.
  unfold sendFrames.
  induction n as [|n IH] using N.peano_ind.
  - exists codec, k, allocated, uncompressed. simpl.
    rewrite !Z.add_0_r, !u32_small by assumption. reflexivity.
  - destruct IH as [c1 [k1 [a1 [uc1 E]]]].
    rewrite N.iter_succ, E. unfold sendFrame.
    destruct (streaming_frame c1 k1 a1 uc1
                (u32 (sent + Z.of_N n * 16388))
                (u32 (unacked + Z.of_N n * 16388)))
      as [r [uc2 [F M]]].
    rewrite F, M.
    exists (codec' r), (S k1), true, uc2.
    rewrite !u32_add_u32_l.
    replace (Z.of_N (N.succ n)) with (Z.of_N n + 1) by lia.
    replace (sent + Z.of_N n * 16388 + 16388)
      with (sent + (Z.of_N n + 1) * 16388) by lia.
    replace (unacked + Z.of_N n * 16388 + 16388)
      with (unacked + (Z.of_N n + 1) * 16388) by lia.
    reflexivity.
Qed.

(** Where the long stream ends.  A request streams from a data source
    that always fills the 16384-byte buffer; each call of
    [nextFrameToSend] gets a destination of 16388 bytes.  After 262080
    frames [_bytesSent] is 2^32 - 256; the peer acknowledges all of it, so
    [_unackedBytes] is 0; the next frame wraps [_bytesSent] around to 16132
    while [_unackedBytes] becomes 16388. *)
Lemma longStream_counters :
  exists codec m,
    longStream = Some (codec, m)
    /\ reachable (C := StoredCodec.t) m
    /\ _bytesSent m = 16132
    /\ _unackedBytes m = 16388.
Proof.
  assert (H0 : is_u32 0) by (unfold is_u32; lia).
  destruct (streaming_frames 262080 StoredCodec.new 0 false 0 0 0 H0 H0)
    as [c1 [k1 [a1 [uc1 E]]]].
  replace (u32 (0 + Z.of_N 262080 * 16388)) with 4294967040 in E
    by (vm_compute; reflexivity).
  assert (R1 : reachable (C := StoredCodec.t)
                 (streaming k1 a1 uc1 4294967040 4294967040)).
  { apply (CounterProps.sendFrames_reachable 16388 262080 StoredCodec.new c1
             (streaming 0 false 0 0 0)); [|exact E].
    change (streaming 0 false 0 0 0)
      with (MessageOut.new kRequestType [] (Some Samples.zeros) 1).
    apply reach_new. }
  assert (A : receivedAck 4294967040 (streaming k1 a1 uc1 4294967040 4294967040)
              = streaming k1 a1 uc1 4294967040 0).
  { reflexivity. }
  assert (R2 : reachable (C := StoredCodec.t) (streaming k1 a1 uc1 4294967040 0)).
  { rewrite <- A. apply reach_ack; [exact R1|]. unfold is_u32. lia. }
  destruct (streaming_frame c1 k1 a1 uc1 4294967040 0) as [r [uc2 [F M]]].
  replace (u32 (4294967040 + 16388)) with 16132 in M by (vm_compute; reflexivity).
  replace (u32 (0 + 16388)) with 16388 in M by (vm_compute; reflexivity).
  exists (codec' r), (msg r).
  split.
  { unfold longStream.
    change (MessageOut.new kRequestType [] (Some Samples.zeros) 1)
      with (streaming 0 false 0 0 0).
    rewrite E. unfold ackAll.
    change (_bytesSent (streaming k1 a1 uc1 4294967040 4294967040))
      with 4294967040.
    rewrite A. unfold sendFrame. rewrite F. reflexivity. }
  split.
  { eapply reach_sent; [exact R2 | exact F]. }
  rewrite M. split; reflexivity.
Qed.

(** C1, as stated, fails: the long stream is a sequence of
    [nextFrameToSend] and [receivedAck] calls on a freshly constructed
    request, and it ends with [_unackedBytes] = 16388 above [_bytesSent] =
    16132. *)
Lemma counters_out_of_order_after_wrap :
  exists codec m,
    longStream = Some (codec, m)
    /\ reachable (C := StoredCodec.t) m
    /\ _bytesSent m = 16132
    /\ _unackedBytes m = 16388
    /\ ~ (0 <= _unackedBytes m <= _bytesSent m).
Proof.
  destruct longStream_counters as [codec [m [E [R [Hb Hu]]]]].
  exists codec, m. repeat (split; [assumption|]). lia.
Qed.

(** The guard of [receivedAck] is not the 32-bit subtraction in disguise:
    on the state the long stream ends in, an acknowledgement of 2^32 - 1
    bytes is ignored, while [min(unackedBytes, (uint32_t)(bytesSent - c))]
    would be 16133. *)
Lemma receivedAck_guard_matters_modulo_2_32 :
  exists codec m,
    longStream = Some (codec, m)
    /\ reachable (C := StoredCodec.t) m
    /\ _unackedBytes (receivedAck 4294967295 m) = 16388
    /\ Z.min (_unackedBytes m) (u32 (_bytesSent m - 4294967295)) = 16133.
Proof.
  destruct longStream_counters as [codec [m [E [R [Hb Hu]]]]].
  exists codec, m. split; [exact E|]. split; [exact R|].
  unfold receivedAck. rewrite Hb, Hu.
  split; [simpl; exact Hu | reflexivity].
Qed.

End LongStreamProps.

Module CounterExamples.

Import Codec MessageOut IntFacts Trace.

Lemma counters_ordered_below_wrap_witness :
  0 <= _unackedBytes (receivedAck 4 SampleMessages.helloSent)
    <= _bytesSent (receivedAck 4 SampleMessages.helloSent)
  /\ _bytesSent (receivedAck 4 SampleMessages.helloSent) = 9.
Proof.
  assert (F : exists r,
            nextFrameToSend 2 StoredCodec.new (Samples.buffer 100)
              SampleMessages.helloRequest = Returned r
            /\ msg r = SampleMessages.helloSent).
  { eexists. split; [vm_compute; reflexivity | reflexivity]. }
  destruct F as [r [F M]].
  apply (@CounterProps.counters_ordered_below_wrap _ StoredCodec.ops
           (receivedAck 4 SampleMessages.helloSent) 9).
  - change 9 with (0 + u32 (_bytesSent SampleMessages.helloSent
                            - _bytesSent SampleMessages.helloRequest)).
    apply total_ack; [|unfold is_u32; lia].
    rewrite <- M.
    eapply total_sent; [|exact F].
    apply total_new.
  - reflexivity.
Defined.

End CounterExamples.

(* ================================================================== *)
(** ** GCDMailbox: exceptions thrown by a block *)

Module MailboxProps.

Import GCDMailbox.

Lemma update_at :
  forall (h : list ChannelManifest.t) id f m,
    nth_error h id = Some m ->
    nth_error (update id f h) id = Some (f m)
    /\ length (update id f h) = length h.
Proof.
  intros h id f m Hm. unfold update. rewrite Hm.
  assert (Hlt : (id < length h)%nat).
  { apply nth_error_Some. rewrite Hm. discriminate. }
  assert (Hf : length (firstn id h) = id).
  { rewrite length_firstn. lia. }
  split.
  - rewrite nth_error_app2 by lia. rewrite Hf, Nat.sub_diag. reflexivity.
  - rewrite length_app. cbn [length]. rewrite Hf, length_skipn. lia.
Qed.

(** [enqueue] called from inside a block that runs with manifest [id]. *)
Lemma enqueue_inside :
  forall nm b w id m,
    sCurrentManifest w = Some id ->
    nth_error (heap w) id = Some m ->
    sCurrentManifest (enqueue nm b w) = Some id
    /\ (exists m', nth_error (heap (enqueue nm b w)) id = Some m')
    /\ _queue (enqueue nm b w) = _queue w ++ [mkWrapped id nm b]
    /\ log (enqueue nm b w) = log w
    /\ _eventCount (enqueue nm b w) = _eventCount w + 1.
Proof.
  intros nm b w id m Hc Hm. unfold enqueue. rewrite Hc. simpl.
  destruct (update_at (heap w) id
              (ChannelManifest.addEnqueueCall (now w) nm) m Hm) as [Hu _].
  split; [reflexivity|]. split; [eexists; exact Hu|].
  split; [reflexivity|]. split; reflexivity.
Qed.

Lemma call_inside :
  forall (l : list (string * Block)) w id m,
    sCurrentManifest w = Some id ->
    nth_error (heap w) id = Some m ->
    let w' := fold_left (fun w0 nb => enqueue (fst nb) (snd nb) w0) l w in
    sCurrentManifest w' = Some id
    /\ (exists m', nth_error (heap w') id = Some m')
    /\ _queue w' = _queue w ++ map (fun nb => mkWrapped id (fst nb) (snd nb)) l
    /\ log w' = log w
    /\ _eventCount w' = _eventCount w + Z.of_nat (length l).
Proof.
  induction l as [|[nm b] l IH]; intros w id m Hc Hm; simpl.
  - split; [exact Hc|]. split; [eexists; exact Hm|].
    rewrite app_nil_r. split; [reflexivity|]. split; [reflexivity|]. lia.
  - destruct (enqueue_inside nm b w id m Hc Hm)
      as [Hc1 [[m1 Hm1] [Hq1 [Hl1 He1]]]].
    destruct (IH (enqueue nm b w) id m1 Hc1 Hm1) as [Hc2 [Hm2 [Hq2 [Hl2 He2]]]].
    split; [exact Hc2|]. split; [exact Hm2|].
    split. { rewrite Hq2, Hq1, <- app_assoc. reflexivity. }
    split. { rewrite Hl2. exact Hl1. }
    rewrite He2, He1. lia.
Qed.

(** C9 (as amended).  When the block at the head of the queue throws an
    exception derived from [std::exception], the exception is caught at the
    mailbox boundary: the actor's [caughtException] hook receives it, the
    dump of the current channel manifest is written to the log, the
    actor's [afterEvent] runs, and the block has ended normally as far as
    the queue is concerned: the blocks behind it, and those it enqueued,
    are still queued and draining goes on with them. *)
Theorem std_exception_is_caught_and_logged :
  forall (w : GCDMailbox.t) (wb : WrappedBlock) (rest : list WrappedBlock)
         (what : string) (m0 : ChannelManifest.t),
    _queue w = wb :: rest ->
    ending (block wb) = Some (StdException what) ->
    nth_error (heap w) (currentManifest wb) = Some m0 ->
    exists w' manifest,
      runNext w = Some (Done w')
      /\ nth_error (heap w') (currentManifest wb) = Some manifest
      /\ log w'
         = log w ++ [caughtException what;
                     Warn (ChannelManifest.dump manifest);
                     actor_afterEvent]
      /\ _queue w' = rest ++ children (currentManifest wb) (block wb)
      /\ sCurrentManifest w' = None
      /\ (forall fuel, drain (S fuel) w = drain fuel w').
Proof.
  intros w wb rest what m0 Hq Hend Hm0.
  assert (Hrun : exists w' manifest,
             runNext w = Some (Done w')
             /\ nth_error (heap w') (currentManifest wb) = Some manifest
             /\ log w'
                = log w ++ [caughtException what;
                            Warn (ChannelManifest.dump manifest);
                            actor_afterEvent]
             /\ _queue w' = rest ++ children (currentManifest wb) (block wb)
             /\ sCurrentManifest w' = None).
  { unfold runNext. rewrite Hq. unfold wrappedBlock, safelyCall, call.
    rewrite Hend.
    cbn [now heap sCurrentManifest _eventCount actorRefs _queue log].
    set (id := currentManifest wb).
    set (w1 := mk (now w)
                  (update id (ChannelManifest.addExecution (now w) (methodName wb))
                          (heap w))
                  (Some id) (_eventCount w) (actorRefs w) rest (log w)).
    destruct (update_at (heap w) id
                (ChannelManifest.addExecution (now w) (methodName wb)) m0 Hm0)
      as [Hu _].
    destruct (call_inside (enqueues (block wb)) w1 id _ eq_refl Hu)
      as [Hc2 [[m2 Hm2] [Hq2 [Hl2 _]]]].
    cbv zeta in Hc2, Hm2, Hq2, Hl2.
    set (w2 := fold_left (fun w' nb => enqueue (fst nb) (snd nb) w')
                         (enqueues (block wb)) w1) in *.
    cbn [sCurrentManifest add_log heap].
    rewrite Hc2, Hm2.
    eexists. exists m2. split; [reflexivity|].
    cbn [heap afterEvent set_sCurrentManifest add_log log _queue sCurrentManifest].
    split; [exact Hm2|].
    split. { rewrite Hl2. subst w1. cbn [log]. rewrite <- !app_assoc. reflexivity. }
    split. { rewrite Hq2. reflexivity. }
    reflexivity. }
  destruct Hrun as [w' [manifest [Hr Hrest]]].
  exists w', manifest. split; [exact Hr|].
  destruct Hrest as [H1 [H2 [H3 H4]]].
  repeat (split; [assumption|]).
  intro fuel. simpl. rewrite Hr. reflexivity.
Qed.

Lemma std_exception_is_caught_and_logged_witness :
  exists w',
    drain 2 SampleMailbox.stdThenNext = Done w'
    /\ _queue w' = []
    /\ exists text,
         log w' = [caughtException "boom"; Warn text;
                   actor_afterEvent; actor_afterEvent].
Proof.
  destruct (std_exception_is_caught_and_logged SampleMailbox.stdThenNext
              (mkWrapped 0 "first" SampleMailbox.throwsStd)
              [mkWrapped 1 "second" SampleMailbox.returns]
              "boom"
              (ChannelManifest.mk 0 [ChannelManifest.mkEntry 0 "first"] [] 100 0 0)
              eq_refl eq_refl eq_refl)
    as [w1 [manifest [Hr [_ [Hlog [Hq [_ Hdrain]]]]]]].
  rewrite (Hdrain 1%nat).
  vm_compute in Hr. inversion Hr as [Hw1]. clear Hr.
  eexists. split; [vm_compute; reflexivity|].
  split; [reflexivity|].
  eexists. reflexivity.
Defined.

(** C9, as stated, fails: a block that throws an object that is not a
    [std::exception] is not caught.  The exception leaves the wrapped
    block: the [caughtException] hook is not called, nothing is logged,
    and the method queued behind it is not run. *)
Lemma other_exception_escapes :
  exists w',
    drain 2 SampleMailbox.otherThenNext
      = Uncaught (OtherObject "NSException") w'
    /\ log w' = []
    /\ map methodName (_queue w') = ["second"%string]
    /\ (forall fuel, drain (S fuel) SampleMailbox.otherThenNext
                     = Uncaught (OtherObject "NSException") w').
Proof.
  eexists. split; [vm_compute; reflexivity|].
  split; [reflexivity|]. split; [reflexivity|].
  intro fuel. reflexivity.
Qed.

End MailboxProps.

(* ================================================================== *)
(** ** More about receivedAck and the pending response *)

Module AckOrderProps.

Import MessageOut IntFacts.

(** Acknowledgements may arrive late or out of order: two calls of
    [receivedAck] give the same message in either order, and after an
    acknowledgement of [b] bytes an older one, of [a <= b] bytes, changes
    nothing. *)
Theorem receivedAck_any_order :
  forall (m : MessageOut.t) (a b : Z),
    is_u32 (_bytesSent m) -> is_u32 a -> is_u32 b ->
    receivedAck a (receivedAck b m) = receivedAck b (receivedAck a m)
    /\ (a <= b -> b <= _bytesSent m ->
        receivedAck a (receivedAck b m) = receivedAck b m).
Proof.
  intros m a b Hs Ha Hb. unfold is_u32 in *.
  unfold receivedAck.
  destruct (Z.leb_spec a (_bytesSent m)) as [La|La];
    destruct (Z.leb_spec b (_bytesSent m)) as [Lb|Lb];
    cbn [_bytesSent set_unackedBytes _unackedBytes _flags _number _contents
         _uncompressedBytesSent];
    try (destruct (Z.leb_spec a (_bytesSent m)); [|lia]);
    try (destruct (Z.leb_spec b (_bytesSent m)); [|lia]);
    try (destruct (Z.leb_spec a (_bytesSent m)); [lia|]);
    try (destruct (Z.leb_spec b (_bytesSent m)); [lia|]);
    cbn [_bytesSent set_unackedBytes _unackedBytes _flags _number _contents
         _uncompressedBytesSent].
  - rewrite (u32_small (_bytesSent m - a)) by (unfold is_u32; lia).
    rewrite (u32_small (_bytesSent m - b)) by (unfold is_u32; lia).
    split.
    + unfold set_unackedBytes. cbn. f_equal. lia.
    + intros Hab _. unfold set_unackedBytes. cbn. f_equal. lia.
  - split; [reflexivity|]. intros; lia.
  - split; [reflexivity|]. intros; lia.
  - split; [reflexivity|]. intros; lia.
Qed.

Lemma receivedAck_any_order_witness :
  receivedAck 3 (receivedAck 5 SampleMessages.helloSent)
  = receivedAck 5 SampleMessages.helloSent
  /\ _unackedBytes (receivedAck 5 SampleMessages.helloSent) = 4.
Proof.
  destruct (receivedAck_any_order SampleMessages.helloSent 3 5) as [_ Hstale].
  - vm_compute. split; [discriminate | reflexivity].
  - vm_compute. split; [discriminate | reflexivity].
  - vm_compute. split; [discriminate | reflexivity].
  - split; [|reflexivity].
    apply Hstale; vm_compute; discriminate.
Defined.

(** A pending response is created for exactly the messages that are told
    of a disconnect: requests sent without [kNoReply].  The response has
    the request's number, type Response with no other flag, and the
    request's count of uncompressed bytes as its outgoing size. *)
Theorem createResponse_iff_disconnect_notified :
  forall m : MessageOut.t,
    (Replies.createResponse m = None <-> disconnected m = [])
    /\ (forall r, Replies.createResponse m = Some r ->
          type m = kRequestType /\ noReply m = false
          /\ Replies.in_number r = _number m
          /\ Replies.in_flags r = kResponseType
          /\ Replies._outgoingSize r = _uncompressedBytesSent m
          /\ Replies._complete r = false /\ Replies._responded r = false).
Proof.
  intro m. unfold Replies.createResponse, disconnected.
  destruct (Z.eqb_spec (type m) kRequestType) as [Ht|Ht];
    destruct (noReply m) eqn:Hn; cbn [negb orb].
  - split; [split; reflexivity|]. intros r E. discriminate E.
  - split; [split; intro E; discriminate E|].
    intros r E. inversion E; subst r. cbn.
    repeat split; try reflexivity. exact Ht.
  - split; [split; reflexivity|]. intros r E. discriminate E.
  - split; [split; reflexivity|]. intros r E. discriminate E.
Qed.

End AckOrderProps.

(* ================================================================== *)
(** ** More about nextFrameToSend: what a frame holds and counts *)

Module FrameAccounting.

Import Codec MessageOut IntFacts FrameProps.

(** When [dataToSend] has nothing to hand out, nothing is left at all. *)
Lemma nothing_to_send :
  forall c ref c1,
    Contents.dataToSend c = Some (ref, c1) ->
    len (Contents.get ref c1) = 0 ->
    Contents.hasMoreDataToSend c1 = false.
Proof.
  intros c ref c1 E Hz. unfold Contents.dataToSend in E.
  destruct (Z.gtb_spec (len (Contents._unsentPayload c)) 0) as [Hp|Hp].
  { inversion E; subst. cbn in Hz. lia. }
  assert (Hp0 : Contents._unsentPayload c = []).
  { apply len_zero. pose proof (len_nonneg _ (Contents._unsentPayload c)). lia. }
  cbn [Contents._dataSource Contents._unsentDataBuffer] in E.
  destruct (Contents._dataSource c) as [src|] eqn:Hs.
  - destruct (Z.eqb_spec (len (Contents._unsentDataBuffer c)) 0) as [Hb|Hb].
    + unfold Contents.readFromDataSource in E.
      cbn [Contents._sourceCalls Contents._payload Contents._unsentPayload] in E.
      destruct (src (Contents._sourceCalls c) Contents.kDataBufferSize)
        as [bytes|code]; [|discriminate E].
      destruct (len bytes <=? Contents.kDataBufferSize); [|discriminate E].
      cbn [Contents._unsentDataBuffer] in E.
      destruct (Z.eqb_spec (len bytes) 0) as [Hz0|Hz0].
      * apply len_zero in Hz0. subst bytes.
        inversion E; subst. unfold Contents.hasMoreDataToSend. cbn.
        rewrite Hp0. reflexivity.
      * inversion E; subst. cbn in Hz. contradiction.
    + inversion E; subst. cbn in Hz. contradiction.
  - inversion E; subst. cbn in Hz. unfold Contents.hasMoreDataToSend. cbn.
    rewrite Hp0, Hz. reflexivity.
Qed.

Section AnyCodec.

Context {C : Type} {O : Ops C}.

(** The loop ends for one of two reasons: nothing is left to send, or
    fewer than 1024 bytes of the destination are left. *)
Lemma loop_exit :
  forall fuel mode codec dst m codec1 dst1 m1,
    nextFrameToSend_loop fuel mode codec dst m = LoopDone codec1 dst1 m1 ->
    Contents.hasMoreDataToSend (_contents m1) = false
    \/ Slice.size dst1 < 1024.
Proof.
  induction fuel as [|fuel IH]; intros mode codec dst m codec1 dst1 m1 E;
    simpl in E; [discriminate E|].
  destruct (Contents.dataToSend (_contents m)) as [[ref c1]|] eqn:Hd;
    [|discriminate E].
  destruct (Z.eqb_spec (len (Contents.get ref c1)) 0) as [Hz|Hz].
  - inversion E; subst. left. cbn. eapply nothing_to_send; eassumption.
  - destruct (write codec (Contents.get ref c1) (Slice.size dst) mode)
      as [[codec2 consumed] out].
    match type of E with
    | (if ?b >=? 1024 then _ else _) = _ =>
        destruct (Z.geb_spec b 1024) as [G|G]
    end.
    + eapply IH. exact E.
    + inversion E; subst. right. simpl. exact G.
Qed.

(** Without a data source the loop takes the pending bytes from the front,
    in order, and counts each byte it took. *)
Lemma loop_consumes_in_order :
  forall fuel mode codec dst m codec1 dst1 m1,
    Contents._dataSource (_contents m) = None ->
    is_u32 (_uncompressedBytesSent m) ->
    nextFrameToSend_loop fuel mode codec dst m = LoopDone codec1 dst1 m1 ->
    Contents._dataSource (_contents m1) = None
    /\ exists taken,
         Replies.pending (_contents m) = taken ++ Replies.pending (_contents m1)
         /\ _uncompressedBytesSent m1
            = u32 (_uncompressedBytesSent m + len taken).
Proof.
  induction fuel as [|fuel IH]; intros mode codec dst m codec1 dst1 m1 Hs Hu E;
    simpl in E; [discriminate E|].
  destruct (SourceProps.dataToSend_without_source _ Hs)
    as [ref [c1 [Hd [Hs1 [_ [Hup Hub]]]]]].
  rewrite Hd in E.
  assert (Hpend : Replies.pending c1 = Replies.pending (_contents m)).
  { unfold Replies.pending. rewrite Hup, Hub. reflexivity. }
  destruct (Z.eqb_spec (len (Contents.get ref c1)) 0) as [Hz|Hz].
  { inversion E; subst. cbn [_contents set_contents _uncompressedBytesSent].
    split; [exact Hs1|]. exists []. rewrite Hpend.
    split; [reflexivity|].
    change (len (@nil byte)) with 0. rewrite Z.add_0_r.
    symmetry. apply u32_small. exact Hu. }
  assert (Href : Replies.pending c1
                 = Contents.get ref c1
                   ++ Replies.pending (Contents.set ref [] c1)).
  { unfold Replies.pending.
    unfold Contents.dataToSend in Hd.
    destruct (Z.gtb_spec (len (Contents._unsentPayload (_contents m))) 0)
      as [Hp|Hp].
    - inversion Hd; subst. reflexivity.
    - assert (Hp0 : Contents._unsentPayload (_contents m) = []).
      { apply len_zero.
        pose proof (len_nonneg _ (Contents._unsentPayload (_contents m))). lia. }
      cbn [Contents._dataSource] in Hd. rewrite Hs in Hd.
      inversion Hd; subst. cbn. rewrite Hp0. rewrite app_nil_r. reflexivity. }
  assert (Hrefp : ref = Contents.UnsentDataBuffer ->
                  Contents._unsentPayload c1 = []).
  { intro Er. subst ref. unfold Contents.dataToSend in Hd.
    destruct (Z.gtb_spec (len (Contents._unsentPayload (_contents m))) 0)
      as [Hp|Hp]; [inversion Hd|].
    rewrite Hup. apply len_zero.
    pose proof (len_nonneg _ (Contents._unsentPayload (_contents m))). lia. }
  destruct (write codec (Contents.get ref c1) (Slice.size dst) mode)
    as [[codec2 consumed] out].
  set (data := Contents.get ref c1) in *.
  set (rest := skipn consumed data) in *.
  assert (Hsplit : data = firstn consumed data ++ rest)
    by (symmetry; apply firstn_skipn).
  assert (Hlen : len data = len (firstn consumed data) + len rest).
  { rewrite Hsplit at 1. apply len_app. }
  assert (Hcount : u32 (u32 (_uncompressedBytesSent m + u32 (len data))
                        - u32 (len rest))
                   = u32 (_uncompressedBytesSent m + len (firstn consumed data))).
  { unfold u32, wrap.
    rewrite Zplus_mod_idemp_r, Zminus_mod_idemp_l, Zminus_mod_idemp_r.
    f_equal. lia. }
  rewrite Hcount in E.
  set (m' := set_uncompressedBytesSent
               (u32 (_uncompressedBytesSent m + len (firstn consumed data)))
               (set_contents (Contents.set ref rest c1) m)) in *.
  assert (Hs' : Contents._dataSource (_contents m') = None).
  { subst m'. cbn. destruct ref; exact Hs1. }
  assert (Hpend' : Replies.pending (_contents m)
                   = firstn consumed data ++ Replies.pending (_contents m')).
  { rewrite <- Hpend, Href. subst m'. cbn [_contents set_contents
      set_uncompressedBytesSent]. unfold Replies.pending.
    rewrite Hsplit at 1. rewrite <- app_assoc. f_equal.
    destruct ref; cbn.
    - reflexivity.
    - rewrite (Hrefp eq_refl). cbn. apply app_nil_r. }
  assert (Hdone : Contents._dataSource (_contents m') = None
     /\ exists taken,
         Replies.pending (_contents m) = taken ++ Replies.pending (_contents m')
         /\ _uncompressedBytesSent m'
            = u32 (_uncompressedBytesSent m + len taken)).
  { split; [exact Hs'|]. exists (firstn consumed data).
    split; [exact Hpend' | reflexivity]. }
  match type of E with
  | (if ?b then _ else _) = _ => destruct b
  end.
  - apply IH in E; [|exact Hs' | subst m'; cbn; apply u32_range].
    destruct E as [Hs2 [taken [Ht Hu2]]].
    split; [exact Hs2|].
    exists (firstn consumed data ++ taken).
    split; [rewrite Hpend', Ht, app_assoc; reflexivity|].
    rewrite Hu2. subst m'.
    cbn [_uncompressedBytesSent set_uncompressedBytesSent].
    rewrite u32_add_u32_l, len_app. f_equal. lia.
  - inversion E; subst codec1 dst1 m1. exact Hdone.
Qed.

(** A message without a data source has its bytes sent in order: a call of
    [nextFrameToSend] that returns has taken a prefix of the bytes still
    pending (unsent payload, then buffered data) and left the rest
    pending; [_uncompressedBytesSent], which is also the byte count of the
    progress notification, has grown by the length of that prefix. *)
Theorem payload_sent_in_order :
  forall (fuel : nat) (codec : C) (dst : Slice.slice) (m : MessageOut.t)
         (r : Sent C),
    isAck m = false ->
    Contents._dataSource (_contents m) = None ->
    is_u32 (_uncompressedBytesSent m) ->
    nextFrameToSend fuel codec dst m = Returned r ->
    Contents._dataSource (_contents (msg r)) = None
    /\ exists taken,
         Replies.pending (_contents m)
         = taken ++ Replies.pending (_contents (msg r))
         /\ _uncompressedBytesSent (msg r)
            = u32 (_uncompressedBytesSent m + len taken)
         /\ map bytesSent (progress r)
            = [u32 (_uncompressedBytesSent m + len taken)].
Proof.
  intros fuel codec dst m r Hack Hs Hu E.
  destruct (returned_inv _ _ _ _ _ Hack E)
    as [codec1 [dst1 [m1 [dst2 [L [_ [_ [_ Er]]]]]]]].
  destruct (loop_consumes_in_order _ _ _ _ _ _ _ _ Hs Hu L)
    as [Hs1 [taken [Ht Hc]]].
  rewrite Er. unfold finishFrame. cbn.
  split; [exact Hs1|]. exists taken.
  split; [exact Ht|]. split; [exact Hc|]. rewrite Hc. reflexivity.
Qed.

End AnyCodec.

Section LawfulCodec.

Context {C : Type} {O : Ops C} {Lw : @Lawful C O}.

(** What a call that returns has put into the destination, in either mode. *)
Lemma frame_shape :
  forall fuel codec dst m r,
    isAck m = false ->
    kChecksumSize <= Slice.size dst < 2 ^ 64 ->
    nextFrameToSend fuel codec dst m = Returned r ->
    exists codec1 dst1 m1 out body,
      nextFrameToSend_loop fuel
        (if hasFlag m kCompressed then SyncFlush else Raw) codec
        (Slice.setSize dst (Slice.size dst - kChecksumSize)) m
      = LoopDone codec1 dst1 m1
      /\ r = finishFrame codec1 (Slice.size dst) (dst' r) (flags m) m1
      /\ Slice.written dst1 = Slice.written dst ++ out
      /\ Slice.size dst1 = Slice.size dst - 4 - len out
      /\ 0 <= Slice.size dst1
      /\ (body = out \/ (hasFlag m kCompressed = true
                         /\ out = body ++ syncFlushMarker))
      /\ (hasFlag m kCompressed = false -> body = out)
      /\ Slice.written (dst' r)
         = Slice.written dst ++ body ++ bigEndian32 (checksum codec1)
      /\ Slice.size (dst' r) = Slice.size dst - len body - 4.
Proof.
  intros fuel codec dst m r Hack Hsz E. unfold kChecksumSize in Hsz.
  destruct (returned_inv _ _ _ _ _ Hack E)
    as [codec1 [dst1 [m1 [dst2 [L [_ [Hs [Hw Er]]]]]]]].
  exists codec1, dst1, m1.
  assert (Hsz0 : Slice.size (Slice.setSize dst (Slice.size dst - kChecksumSize))
                 = Slice.size dst - 4).
  { simpl. apply u64_small. unfold is_u64, kChecksumSize. lia. }
  destruct (CompressionProps.loop_appends _ _ _ _ _ _ _ _
              ltac:(rewrite Hsz0; lia) L) as [out [Ew [Es Ep]]].
  simpl in Ew. rewrite Hsz0 in Es.
  pose proof (len_nonneg _ out) as Hout.
  assert (Hbe : forall c, len (bigEndian32 c) = 4) by reflexivity.
  assert (Hplain : dst2 = dst1 ->
            Slice.written (dst' r)
            = Slice.written dst ++ out ++ bigEndian32 (checksum codec1)
            /\ Slice.size (dst' r) = Slice.size dst - len out - 4).
  { intro E2. subst dst2. unfold writeChecksum, kChecksumSize in Hw.
    cbn [Slice.size Slice.setSize] in Hw. rewrite Es in Hw.
    replace (Slice.size dst - 4 - len out + 4)
      with (Slice.size dst - len out) in Hw by lia.
    rewrite (u64_small (Slice.size dst - len out)) in Hw
      by (unfold is_u64; lia).
    destruct (Z.ltb_spec (Slice.size dst - len out) 4) as [Hbad|_]; [lia|].
    inversion Hw as [Hd]. try rewrite <- Hd.
    unfold Slice.put, Slice.setSize. cbn [Slice.size Slice.written].
    rewrite (u64_small (Slice.size dst - len out)) by (unfold is_u64; lia).
    rewrite Ew, <- app_assoc, Hbe.
    split; [reflexivity|].
    rewrite u64_small by (unfold is_u64; lia). lia. }
  unfold stripSyncFlushMarker in Hs.
  destruct (hasFlag m kCompressed) eqn:Hcomp.
  - assert (Hbw : u64 (Slice.size dst - kChecksumSize - Slice.size dst1)
                  = len out).
    { unfold kChecksumSize. rewrite Es.
      replace (Slice.size dst - 4 - (Slice.size dst - 4 - len out))
        with (len out) by lia.
      apply u64_small. unfold is_u64. lia. }
    rewrite Hbw in Hs.
    destruct (Z.gtb_spec (len out) 0) as [Hpos|Hzero].
    + destruct (Z.geb_spec (len out) 4) as [H4|H4]; [|discriminate Hs].
      destruct (bytes_eqb (Slice.tail 4 dst1) syncFlushMarker) eqn:Hm;
        [|discriminate Hs].
      cbn [andb] in Hs. inversion Hs; subst dst2. clear Hs.
      apply bytes_eqb_eq in Hm. unfold Slice.tail in Hm.
      assert (Hn : (4 <= length out)%nat) by (unfold len in H4; lia).
      destruct (tail_of_app (Slice.written dst) out 4 Hn) as [Tskip Tfirst].
      rewrite Ew, Tskip in Hm.
      set (body := firstn (length out - 4) out) in *.
      assert (Hsplit : out = body ++ syncFlushMarker).
      { rewrite <- Hm. unfold body. symmetry. apply firstn_skipn. }
      assert (Hlb : len out = len body + 4).
      { rewrite Hsplit. rewrite len_app. reflexivity. }
      exists out, body.
      split; [exact L|]. split; [exact Er|]. split; [exact Ew|].
      split; [exact Es|]. split; [exact Ep|].
      split; [right; split; [reflexivity | exact Hsplit]|].
      split; [intro X; discriminate X|].
      unfold writeChecksum, kChecksumSize in Hw.
      unfold Slice.moveStart, Slice.setSize in Hw.
      cbn [Slice.size Slice.written] in Hw. rewrite Es in Hw.
      replace (Slice.size dst - 4 - len out - -4)
        with (Slice.size dst - len out) in Hw by lia.
      rewrite (u64_small (Slice.size dst - len out)) in Hw
        by (unfold is_u64; lia).
      rewrite (u64_small (Slice.size dst - len out + 4)) in Hw
        by (unfold is_u64; lia).
      destruct (Z.ltb_spec (Slice.size dst - len out + 4) 4) as [Hbad|_];
        [lia|].
      inversion Hw as [Hd]. try rewrite <- Hd.
      unfold Slice.put. cbn [Slice.size Slice.written].
      rewrite Ew.
      replace (Z.to_nat (len (Slice.written dst ++ out) + -4))
        with (length (Slice.written dst ++ out) - 4)%nat
        by (unfold len; lia).
      rewrite Tfirst, <- app_assoc, Hbe.
      split; [reflexivity|].
      rewrite u64_small by (unfold is_u64; lia). lia.
    + injection Hs as E2. destruct (Hplain (eq_sym E2)) as [Hw1 Hs1].
      exists out, out.
      split; [exact L|]. split; [exact Er|]. split; [exact Ew|].
      split; [exact Es|]. split; [exact Ep|].
      split; [left; reflexivity|].
      split; [reflexivity|]. split; assumption.
  - injection Hs as E2. destruct (Hplain (eq_sym E2)) as [Hw1 Hs1].
    exists out, out.
    split; [exact L|]. split; [exact Er|]. split; [exact Ew|].
    split; [exact Es|]. split; [exact Ep|].
    split; [left; reflexivity|].
    split; [reflexivity|]. split; assumption.
Qed.

(** [_bytesSent] and [_unackedBytes] count exactly the bytes of the frame:
    a call on a message that is not an ack appends a frame of at least
    four bytes (the checksum) and at most the size of the destination,
    takes as many bytes off the destination's room, and adds the frame's
    length to both counters. *)
Theorem counters_count_frame_bytes :
  forall (fuel : nat) (codec : C) (dst : Slice.slice) (m : MessageOut.t)
         (r : Sent C),
    isAck m = false ->
    kChecksumSize <= Slice.size dst < 2 ^ 64 ->
    nextFrameToSend fuel codec dst m = Returned r ->
    exists frame,
      Slice.written (dst' r) = Slice.written dst ++ frame
      /\ kChecksumSize <= len frame <= Slice.size dst
      /\ Slice.size (dst' r) = Slice.size dst - len frame
      /\ _bytesSent (msg r) = u32 (_bytesSent m + len frame)
      /\ _unackedBytes (msg r) = u32 (_unackedBytes m + len frame).
Proof.
  intros fuel codec dst m r Hack Hsz E.
  destruct (frame_shape _ _ _ _ _ Hack Hsz E)
    as [codec1 [dst1 [m1 [out [body [L [Er [Ew [Es [Ep [Hb [_ [Hw Hs]]]]]]]]]]]]].
  unfold kChecksumSize in *.
  apply loop_keeps_header in L. destruct L as [_ [_ [Lb Lu]]].
  pose proof (len_nonneg _ body) as Hbody.
  assert (Hbo : len body <= len out).
  { destruct Hb as [Hb|[_ Hb]]; rewrite Hb; [lia|].
    rewrite len_app. pose proof (len_nonneg _ syncFlushMarker). lia. }
  pose proof (len_nonneg _ out) as Hout.
  exists (body ++ bigEndian32 (checksum codec1)).
  assert (Hl : len (body ++ bigEndian32 (checksum codec1)) = len body + 4).
  { rewrite len_app. reflexivity. }
  rewrite Hl.
  split; [exact Hw|]. split; [lia|]. split; [lia|].
  rewrite Er. unfold finishFrame.
  cbn [msg _bytesSent _unackedBytes set_unackedBytes set_bytesSent].
  rewrite Hs, Lb, Lu.
  replace (Slice.size dst - (Slice.size dst - len body - 4))
    with (len body + 4) by lia.
  rewrite (u64_small (len body + 4)) by (unfold is_u64; lia).
  rewrite !u32_add_u32_r. split; reflexivity.
Qed.

(** Without [kCompressed] nothing is stripped: the frame is everything the
    codec wrote in [Raw] mode, followed by the checksum, even when that
    output happens to end with [00 00 FF FF]. *)
Theorem uncompressed_frame_keeps_output :
  forall (fuel : nat) (codec : C) (dst : Slice.slice) (m : MessageOut.t)
         (r : Sent C),
    isAck m = false ->
    hasFlag m kCompressed = false ->
    kChecksumSize <= Slice.size dst < 2 ^ 64 ->
    nextFrameToSend fuel codec dst m = Returned r ->
    exists dst1 m1 out,
      nextFrameToSend_loop fuel Raw codec
        (Slice.setSize dst (Slice.size dst - kChecksumSize)) m
      = LoopDone (codec' r) dst1 m1
      /\ Slice.written dst1 = Slice.written dst ++ out
      /\ Slice.written (dst' r)
         = Slice.written dst ++ out ++ bigEndian32 (checksum (codec' r)).
Proof.
  intros fuel codec dst m r Hack Hraw Hsz E.
  destruct (frame_shape _ _ _ _ _ Hack Hsz E)
    as [codec1 [dst1 [m1 [out [body [L [Er [Ew [_ [_ [_ [Hb [Hw _]]]]]]]]]]]]].
  rewrite Hraw in L. rewrite (Hb Hraw) in Hw.
  assert (Hc : codec' r = codec1) by (rewrite Er; reflexivity).
  rewrite Hc. exists dst1, m1, out.
  split; [exact L|]. split; [exact Ew | exact Hw].
Qed.

(** A frame that is not the last one is nearly full: when more data
    remains after a call, fewer than 1028 bytes of the destination are
    left unused (fewer than 1024 without [kCompressed]). *)
Theorem frame_before_last_is_nearly_full :
  forall (fuel : nat) (codec : C) (dst : Slice.slice) (m : MessageOut.t)
         (r : Sent C),
    isAck m = false ->
    kChecksumSize <= Slice.size dst < 2 ^ 64 ->
    nextFrameToSend fuel codec dst m = Returned r ->
    Contents.hasMoreDataToSend (_contents (msg r)) = true ->
    Slice.size (dst' r) < 1028
    /\ (hasFlag m kCompressed = false -> Slice.size (dst' r) < 1024).
Proof.
  intros fuel codec dst m r Hack Hsz E Hmore.
  destruct (frame_shape _ _ _ _ _ Hack Hsz E)
    as [codec1 [dst1 [m1 [out [body [L [Er [Ew [Es [Ep [Hb [Hraw [Hw Hs]]]]]]]]]]]]].
  unfold kChecksumSize in *.
  assert (Hm1 : Contents.hasMoreDataToSend (_contents m1) = true).
  { rewrite Er in Hmore. exact Hmore. }
  destruct (loop_exit _ _ _ _ _ _ _ _ L) as [Hno|Hsmall].
  { rewrite Hno in Hm1. discriminate Hm1. }
  rewrite Hs. split.
  - destruct Hb as [Hb|[_ Hb]]; rewrite Hb in *.
    + lia.
    + rewrite len_app in Es.
      change (len syncFlushMarker) with 4 in Es. lia.
  - intro Hr. rewrite (Hraw Hr). lia.
Qed.

End LawfulCodec.

Lemma payload_sent_in_order_witness :
  exists r taken,
    nextFrameToSend 2 StoredCodec.new (Samples.buffer 7)
                    SampleMessages.helloRequest = Returned r
    /\ Samples.hello = taken ++ [x6c; x6f]
    /\ _uncompressedBytesSent (msg r) = u32 (0 + len taken).
Proof.
  eexists.
  match goal with
  | |- exists taken, ?o = Returned ?r /\ _ =>
      assert (E : o = Returned r) by (vm_compute; reflexivity)
  end.
  match type of E with
  | _ = Returned ?r =>
      destruct (@payload_sent_in_order _ StoredCodec.ops 2 StoredCodec.new
                  (Samples.buffer 7) SampleMessages.helloRequest r
                  eq_refl eq_refl) as [_ [taken [Ht [Hu _]]]]
  end.
  - vm_compute. split; [discriminate | reflexivity].
  - exact E.
  - exists taken. split; [exact E|]. split; [exact Ht | exact Hu].
Defined.

Lemma counters_count_frame_bytes_witness :
  exists r frame,
    nextFrameToSend 2 StoredCodec.new (Samples.buffer 7)
                    SampleMessages.helloRequest = Returned r
    /\ Slice.written (dst' r) = frame
    /\ len frame = 7
    /\ _bytesSent (msg r) = 7.
Proof.
  eexists. 
  match goal with
  | |- exists frame, ?o = Returned ?r /\ _ =>
      assert (E : o = Returned r) by (vm_compute; reflexivity)
  end.
  match type of E with
  | _ = Returned ?r =>
      destruct (@counters_count_frame_bytes _ StoredCodec.ops
                  StoredCodecProps.lawful 2 StoredCodec.new
                  (Samples.buffer 7) SampleMessages.helloRequest r
                  eq_refl) as [frame [Hw [Hl [Hs Hb]]]]
  end.
  - vm_compute. split; [discriminate | reflexivity].
  - exact E.
  - exists frame. split; [exact E|]. split; [exact Hw|].
    split; [|reflexivity].
    change (Slice.written (Samples.buffer 7) ++ frame) with frame in Hw.
    rewrite <- Hw. reflexivity.
Defined.

Lemma uncompressed_frame_keeps_output_witness :
  exists r,
    nextFrameToSend 2 StoredCodec.new (Samples.buffer 100)
                    SampleMessages.helloRequest = Returned r
    /\ Slice.written (dst' r)
       = Samples.hello ++ bigEndian32 (checksum (codec' r)).
Proof.
  eexists. split; [vm_compute; reflexivity|].
  match goal with
  | |- Slice.written (dst' ?r) = _ =>
      destruct (@uncompressed_frame_keeps_output _ StoredCodec.ops
                  StoredCodecProps.lawful 2 StoredCodec.new
                  (Samples.buffer 100) SampleMessages.helloRequest r
                  eq_refl eq_refl) as [dst1 [m1 [out [L [Ew Hw]]]]]
  end.
  - vm_compute. split; [discriminate | reflexivity].
  - vm_compute. reflexivity.
  - vm_compute in L. inversion L; subst dst1 m1. clear L.
    simpl in Ew. subst out. exact Hw.
Defined.

Lemma frame_before_last_is_nearly_full_witness :
  exists r,
    nextFrameToSend 2 StoredCodec.new (Samples.buffer 7)
                    SampleMessages.helloRequest = Returned r
    /\ Slice.size (dst' r) < 1024.
Proof.
  eexists. split; [vm_compute; reflexivity|].
  match goal with
  | |- Slice.size (dst' ?r) < _ =>
      destruct (@frame_before_last_is_nearly_full _ StoredCodec.ops
                  StoredCodecProps.lawful 2 StoredCodec.new
                  (Samples.buffer 7) SampleMessages.helloRequest r
                  eq_refl) as [_ Hraw]
  end.
  - vm_compute. split; [discriminate | reflexivity].
  - vm_compute. reflexivity.
  - reflexivity.
  - apply Hraw. reflexivity.
Defined.

End FrameAccounting.

(* ================================================================== *)
(** ** ChannelManifest: the bounded record of calls *)

Module ManifestProps.

Import ChannelManifest IntFacts.

(** The trimming loop drops entries from the front until at most [limit]
    are left, and counts the ones it dropped. *)
Lemma truncate_drops_oldest :
  forall (limit : Z) (l : list ChannelManifestEntry) (truncated : Z),
    0 <= limit -> is_u32 truncated ->
    exists dropped,
      l = dropped ++ fst (truncate limit l truncated)
      /\ len (fst (truncate limit l truncated)) = Z.min (len l) limit
      /\ snd (truncate limit l truncated) = u32 (truncated + len dropped).
Proof.
  intros limit l. induction l as [|x rest IH]; intros truncated Hl Ht.
  - exists []. cbn. split; [reflexivity|].
    split; [unfold len; cbn; lia|].
    rewrite Z.add_0_r. symmetry. apply u32_small. exact Ht.
  - cbn [truncate].
    destruct (Z.gtb_spec (len (x :: rest)) limit) as [Hgt|Hle].
    + destruct (IH (u32 (truncated + 1)) Hl (u32_range _))
        as [dropped [Hd [Hn Hc]]].
      exists (x :: dropped). split; [cbn; f_equal; exact Hd|].
      split.
      * rewrite Hn. unfold len in *. cbn [length] in *. lia.
      * rewrite Hc, u32_add_u32_l. f_equal.
        unfold len. cbn [length]. lia.
    + exists []. cbn [fst snd app]. split; [reflexivity|].
      split; [lia|].
      change (len (@nil ChannelManifestEntry)) with 0.
      rewrite Z.add_0_r. symmetry. apply u32_small. exact Ht.
Qed.

(** A manifest is a bounded record that keeps the most recent calls.
    After [addEnqueueCall] the list of enqueue calls is the old list with
    the new entry at its end, less the oldest entries that no longer fit
    within [_limit]; the entries dropped are added to [_truncatedEnqueue];
    the record of executions is untouched.  [addExecution] does the same
    to the record of executions.  A limit lowered by [setLimit] trims
    nothing by itself: the excess goes at the next addition. *)
Theorem manifest_keeps_most_recent :
  forall (now : Z) (nm : string) (m : ChannelManifest.t),
    0 <= _limit m ->
    is_u32 (_truncatedEnqueue m) -> is_u32 (_truncatedExecution m) ->
    (exists dropped,
        _enqueueCalls m ++ [mkEntry (now - _start m) nm]
        = dropped ++ _enqueueCalls (addEnqueueCall now nm m)
        /\ len (_enqueueCalls (addEnqueueCall now nm m))
           = Z.min (len (_enqueueCalls m) + 1) (_limit m)
        /\ _truncatedEnqueue (addEnqueueCall now nm m)
           = u32 (_truncatedEnqueue m + len dropped)
        /\ _executions (addEnqueueCall now nm m) = _executions m
        /\ _truncatedExecution (addEnqueueCall now nm m)
           = _truncatedExecution m)
    /\ (exists dropped,
        _executions m ++ [mkEntry (now - _start m) nm]
        = dropped ++ _executions (addExecution now nm m)
        /\ len (_executions (addExecution now nm m))
           = Z.min (len (_executions m) + 1) (_limit m)
        /\ _truncatedExecution (addExecution now nm m)
           = u32 (_truncatedExecution m + len dropped)
        /\ _enqueueCalls (addExecution now nm m) = _enqueueCalls m
        /\ _truncatedEnqueue (addExecution now nm m) = _truncatedEnqueue m)
    /\ (forall limit,
          _enqueueCalls (ManifestLimit.setLimit limit m) = _enqueueCalls m
          /\ _executions (ManifestLimit.setLimit limit m) = _executions m
          /\ _limit (ManifestLimit.setLimit limit m) = limit mod 256).
Proof.
  intros now nm m Hl He Hx.
  split; [|split].
  - destruct (truncate_drops_oldest (_limit m)
                (_enqueueCalls m ++ [mkEntry (now - _start m) nm])
                (_truncatedEnqueue m) Hl He) as [dropped [Hd [Hn Hc]]].
    unfold addEnqueueCall.
    destruct (truncate (_limit m)
                (_enqueueCalls m ++ [mkEntry (now - _start m) nm])
                (_truncatedEnqueue m)) as [calls truncated].
    cbn [fst snd] in *. cbn.
    exists dropped. split; [exact Hd|].
    split; [rewrite Hn, len_app; reflexivity|].
    split; [exact Hc|]. split; reflexivity.
  - destruct (truncate_drops_oldest (_limit m)
                (_executions m ++ [mkEntry (now - _start m) nm])
                (_truncatedExecution m) Hl Hx) as [dropped [Hd [Hn Hc]]].
    unfold addExecution.
    destruct (truncate (_limit m)
                (_executions m ++ [mkEntry (now - _start m) nm])
                (_truncatedExecution m)) as [execs truncated].
    cbn [fst snd] in *. cbn.
    exists dropped. split; [exact Hd|].
    split; [rewrite Hn, len_app; reflexivity|].
    split; [exact Hc|]. split; reflexivity.
  - intro limit. split; [reflexivity|]. split; reflexivity.
Qed.

Lemma manifest_keeps_most_recent_witness :
  exists dropped,
    [mkEntry 0 "a"; mkEntry 1 "b"; mkEntry 7 "c"]
    = dropped ++ _enqueueCalls
                   (addEnqueueCall 7 "c"
                      (mk 0 [mkEntry 0 "a"; mkEntry 1 "b"] [] 2 0 0))
    /\ len (_enqueueCalls
              (addEnqueueCall 7 "c"
                 (mk 0 [mkEntry 0 "a"; mkEntry 1 "b"] [] 2 0 0))) = 2.
Proof.
  destruct (manifest_keeps_most_recent 7 "c"
              (mk 0 [mkEntry 0 "a"; mkEntry 1 "b"] [] 2 0 0))
    as [[dropped [Hd [Hn _]]] _].
  - vm_compute. discriminate.
  - vm_compute. split; [discriminate | reflexivity].
  - vm_compute. split; [discriminate | reflexivity].
  - exists dropped. split; [exact Hd | exact Hn].
Defined.

End ManifestProps.

(* ================================================================== *)
(** ** GCDMailbox: the queue over many blocks *)

Module MailboxRunProps.

Import GCDMailbox MailboxRuns IntFacts.

Lemma update_length :
  forall (h : list ChannelManifest.t) id f,
    length (update id f h) = length h.
Proof.
  intros h id f. unfold update.
  destruct (nth_error h id) as [m|] eqn:Hm; [|reflexivity].
  assert (Hlt : (id < length h)%nat).
  { apply nth_error_Some. rewrite Hm. discriminate. }
  rewrite length_app. cbn [length].
  rewrite length_firstn, length_skipn. lia.
Qed.

Lemma alive_spec :
  forall w,
    manifestsAlive w = true <->
    (forall wb, In wb (_queue w) -> (currentManifest wb < length (heap w))%nat)
    /\ (forall id, sCurrentManifest w = Some id -> (id < length (heap w))%nat).
Proof.
  intro w. unfold manifestsAlive.
  rewrite andb_true_iff, forallb_forall. split.
  - intros [Hq Hc]. split.
    + intros wb Hin. apply Nat.ltb_lt. apply Hq. exact Hin.
    + intros id E. rewrite E in Hc. apply Nat.ltb_lt. exact Hc.
  - intros [Hq Hc]. split.
    + intros wb Hin. apply Nat.ltb_lt. apply Hq. exact Hin.
    + destruct (sCurrentManifest w) as [id|]; [|reflexivity].
      apply Nat.ltb_lt. apply Hc. reflexivity.
Qed.

(** One [enqueue]: a block joins the end of the queue, and the event
    count and the actor's reference count go up by one. *)
Lemma enqueue_effect :
  forall nm b w,
    manifestsAlive w = true ->
    manifestsAlive (enqueue nm b w) = true
    /\ (exists id, _queue (enqueue nm b w) = _queue w ++ [mkWrapped id nm b])
    /\ _eventCount (enqueue nm b w) = _eventCount w + 1
    /\ actorRefs (enqueue nm b w) = actorRefs w + 1
    /\ sCurrentManifest (enqueue nm b w) = sCurrentManifest w
    /\ log (enqueue nm b w) = log w.
Proof.
  intros nm b w Hw. apply alive_spec in Hw. destruct Hw as [Hq Hc].
  unfold enqueue.
  destruct (sCurrentManifest w) as [id|] eqn:E; cbn.
  - split.
    + apply alive_spec. cbn. rewrite update_length. split.
      * intros wb Hin. apply in_app_or in Hin. destruct Hin as [Hin|[<-|[]]].
        -- apply Hq. exact Hin.
        -- cbn. apply Hc. reflexivity.
      * intros id' E'. apply Hc. exact E'.
    + split; [eexists; reflexivity|]. repeat (split; [reflexivity|]). reflexivity.
  - split.
    + apply alive_spec. cbn. rewrite update_length, length_app. cbn [length].
      split.
      * intros wb Hin. apply in_app_or in Hin. destruct Hin as [Hin|[<-|[]]].
        -- specialize (Hq wb Hin). lia.
        -- cbn. lia.
      * intros id' E'. discriminate.
    + split; [eexists; reflexivity|]. repeat (split; [reflexivity|]). reflexivity.
Qed.

Lemma calls_effect :
  forall (l : list (string * Block)) w,
    manifestsAlive w = true ->
    let w' := fold_left (fun w0 nb => enqueue (fst nb) (snd nb) w0) l w in
    manifestsAlive w' = true
    /\ (exists added, _queue w' = _queue w ++ added /\ len added = len l)
    /\ _eventCount w' = _eventCount w + len l
    /\ actorRefs w' = actorRefs w + len l
    /\ sCurrentManifest w' = sCurrentManifest w
    /\ log w' = log w.
Proof.
  induction l as [|[nm b] l IH]; intros w Hw; cbn [fold_left].
  - split; [exact Hw|]. split.
    { exists []. rewrite app_nil_r. split; reflexivity. }
    change (len (@nil (string * Block))) with 0.
    rewrite !Z.add_0_r. repeat (split; [reflexivity|]). reflexivity.
  - cbn [fst snd].
    destruct (enqueue_effect nm b w Hw) as [Hw1 [[id Hq1] [He1 [Hr1 [Hc1 Hl1]]]]].
    destruct (IH (enqueue nm b w) Hw1)
      as [Hw2 [[added [Hq2 Hn2]] [He2 [Hr2 [Hc2 Hl2]]]]].
    split; [exact Hw2|]. split.
    { exists (mkWrapped id nm b :: added). split.
      - rewrite Hq2, Hq1, <- app_assoc. reflexivity.
      - unfold len in *. cbn [length]. lia. }
    unfold len in *. cbn [length].
    split; [rewrite He2, He1; lia|].
    split; [rewrite Hr2, Hr1; lia|].
    split; [rewrite Hc2; exact Hc1|].
    rewrite Hl2. exact Hl1.
Qed.

(** One block taken off the queue and run. *)
Lemma wrappedBlock_effect :
  forall wb w,
    manifestsAlive w = true ->
    (currentManifest wb < length (heap w))%nat ->
    match wrappedBlock wb w with
    | Done w' =>
        manifestsAlive w' = true
        /\ (exists added, _queue w' = _queue w ++ added
                          /\ _eventCount w' = _eventCount w + len added - 1
                          /\ actorRefs w' = actorRefs w + len added - 1)
        /\ sCurrentManifest w' = None
    | Uncaught x w' =>
        (exists added, _queue w' = _queue w ++ added
                       /\ _eventCount w' = _eventCount w + len added
                       /\ actorRefs w' = actorRefs w + len added)
        /\ sCurrentManifest w' = Some (currentManifest wb)
        /\ (forall what, x <> StdException what)
    | NullManifest => False
    end.
Proof.
  intros wb w Hw Hlt. unfold wrappedBlock.
  set (w1 := mk (now w) _ _ _ _ _ _).
  assert (Hw1 : manifestsAlive w1 = true).
  { apply alive_spec in Hw. destruct Hw as [Hq _].
    apply alive_spec. unfold w1. cbn. rewrite update_length. split.
    - exact Hq.
    - intros id E. injection E as <-. exact Hlt. }
  unfold safelyCall, call.
  destruct (calls_effect (enqueues (block wb)) w1 Hw1)
    as [Hw2 [[added [Hq2 Hn2]] [He2 [Hr2 [Hc2 Hl2]]]]].
  set (w2 := fold_left _ (enqueues (block wb)) w1) in *.
  assert (Hq : _queue w1 = _queue w) by reflexivity.
  assert (He : _eventCount w1 = _eventCount w) by reflexivity.
  assert (Hr : actorRefs w1 = actorRefs w) by reflexivity.
  assert (Hc : sCurrentManifest w1 = Some (currentManifest wb)) by reflexivity.
  rewrite Hq in Hq2. rewrite He in He2. rewrite Hr in Hr2. rewrite Hc in Hc2.
  assert (Halive : forall w3 : GCDMailbox.t,
            heap w3 = heap w2 -> _queue w3 = _queue w2 ->
            manifestsAlive
              (set_sCurrentManifest None (afterEvent w3)) = true).
  { intros w3 Hh3 Hq3. apply alive_spec in Hw2. destruct Hw2 as [Hq' _].
    apply alive_spec. cbn. rewrite Hh3, Hq3. split; [exact Hq'|].
    intros id E. discriminate. }
  destruct (ending (block wb)) as [[what|d]|].
  - cbn [add_log sCurrentManifest heap]. rewrite Hc2.
    destruct (nth_error (heap w2) (currentManifest wb)) as [manifest|] eqn:Hm.
    + split; [apply Halive; reflexivity|].
      split; [|reflexivity].
      exists added. cbn. rewrite He2, Hr2, Hn2.
      split; [exact Hq2|]. split; reflexivity.
    + apply nth_error_None in Hm.
      apply alive_spec in Hw2. destruct Hw2 as [_ Hc'].
      specialize (Hc' _ Hc2). lia.
  - split.
    + exists added. rewrite He2, Hr2, Hn2.
      split; [exact Hq2|]. split; reflexivity.
    + split; [exact Hc2|]. intros what E. discriminate.
  - split; [apply Halive; reflexivity|].
    split; [|reflexivity].
    exists added. cbn. rewrite He2, Hr2, Hn2.
    split; [exact Hq2|]. split; reflexivity.
Qed.

(** The event count and the actor's reference count follow the queue.
    From a mailbox whose manifests are alive, however many blocks are
    run and whatever they enqueue, [_eventCount] minus the queue length
    and the actor's reference count minus the queue length are what they
    were, as long as every block returns or throws a [std::exception];
    the thread's current manifest is then the one it was before, or none
    once a block has run.  When a block lets a foreign exception escape,
    [afterEvent] is skipped: both counts stay one too high, and the
    thread's [sCurrentManifest] still points to the manifest of that
    block.  The manifest that the catch clause dumps is never null. *)
Theorem counts_follow_queue :
  forall (fuel : nat) (w : GCDMailbox.t),
    manifestsAlive w = true ->
    match drain fuel w with
    | Done w' =>
        manifestsAlive w' = true
        /\ _eventCount w' - len (_queue w') = _eventCount w - len (_queue w)
        /\ actorRefs w' - len (_queue w') = actorRefs w - len (_queue w)
        /\ (sCurrentManifest w' = sCurrentManifest w
            \/ sCurrentManifest w' = None)
    | Uncaught x w' =>
        _eventCount w' - len (_queue w') = _eventCount w - len (_queue w) + 1
        /\ actorRefs w' - len (_queue w') = actorRefs w - len (_queue w) + 1
        /\ sCurrentManifest w' <> None
        /\ (forall what, x <> StdException what)
    | NullManifest => False
    end.
Proof.
  induction fuel as [|fuel IH]; intros w Hw; cbn [drain].
  - split; [exact Hw|]. split; [reflexivity|]. split; [reflexivity|].
    left. reflexivity.
  - unfold runNext.
    destruct (_queue w) as [|wb rest] eqn:Hq.
    + split; [exact Hw|]. rewrite Hq.
      split; [reflexivity|]. split; [reflexivity|]. left. reflexivity.
    + set (w0 := mk (now w) (heap w) (sCurrentManifest w) (_eventCount w)
                    (actorRefs w) rest (log w)).
      assert (Hw0 : manifestsAlive w0 = true /\
                    (currentManifest wb < length (heap w0))%nat).
      { apply alive_spec in Hw. destruct Hw as [Hq' Hc'].
        rewrite Hq in Hq'. split.
        - apply alive_spec. unfold w0. cbn. split.
          + intros wb' Hin. apply Hq'. right. exact Hin.
          + exact Hc'.
        - unfold w0. cbn. apply Hq'. left. reflexivity. }
      destruct Hw0 as [Hw0 Hlt].
      pose proof (wrappedBlock_effect wb w0 Hw0 Hlt) as Hstep.
      destruct (wrappedBlock wb w0) as [w1|x w1|].
      * destruct Hstep as [Hw1 [[added [Hq1 [He1 Hr1]]] Hc1]].
        specialize (IH w1 Hw1).
        assert (Hlen : len (_queue w1) = len rest + len added).
        { rewrite Hq1. unfold w0. cbn. apply len_app. }
        assert (Hlw : len (wb :: rest) = len rest + 1).
        { unfold len. cbn [length]. lia. }
        unfold w0 in He1, Hr1. cbn in He1, Hr1.
        destruct (drain fuel w1) as [w2|x w2|].
        -- destruct IH as [Hw2 [He2 [Hr2 Hc2]]].
           split; [exact Hw2|].
           split; [lia|]. split; [lia|].
           right. destruct Hc2 as [Hc2|Hc2]; rewrite Hc2; [exact Hc1|reflexivity].
        -- destruct IH as [He2 [Hr2 [Hc2 Hx]]].
           split; [lia|]. split; [lia|]. split; [exact Hc2 | exact Hx].
        -- exact IH.
      * destruct Hstep as [[added [Hq1 [He1 Hr1]]] [Hc1 Hx]].
        assert (Hlen : len (_queue w1) = len rest + len added).
        { rewrite Hq1. unfold w0. cbn. apply len_app. }
        assert (Hlw : len (wb :: rest) = len rest + 1).
        { unfold len. cbn [length]. lia. }
        unfold w0 in He1, Hr1. cbn in He1, Hr1.
        split; [lia|]. split; [lia|].
        split; [rewrite Hc1; discriminate | exact Hx].
      * exact Hstep.
Qed.

Lemma counts_follow_queue_witness :
  manifestsAlive threeQueued = true
  /\ match drain 1 threeQueued with
     | Done w' => _eventCount w' = 4 /\ len (_queue w') = 4
     | _ => False
     end
  /\ match drain 5 threeQueued with
     | Uncaught _ w' => _eventCount w' = 4 /\ len (_queue w') = 3
     | _ => False
     end.
Proof.
  split; [reflexivity|].
  pose proof (counts_follow_queue 1 threeQueued eq_refl) as H1.
  pose proof (counts_follow_queue 5 threeQueued eq_refl) as H5.
  split.
  - destruct (drain 1 threeQueued) as [w'|x w'|] eqn:E;
      [|vm_compute in E; discriminate|exact H1].
    destruct H1 as [_ [He _]].
    assert (Hq : len (_queue w') = 4).
    { vm_compute in E. injection E as <-. reflexivity. }
    split; [|exact Hq]. rewrite Hq in He.
    change (_eventCount threeQueued - len (_queue threeQueued)) with 0 in He.
    lia.
  - destruct (drain 5 threeQueued) as [w'|x w'|] eqn:E;
      [vm_compute in E; discriminate| |exact H5].
    destruct H5 as [He _].
    assert (Hq : len (_queue w') = 3).
    { vm_compute in E. injection E as _ <-. reflexivity. }
    split; [|exact Hq]. rewrite Hq in He.
    change (_eventCount threeQueued - len (_queue threeQueued)) with 0 in He.
    lia.
Defined.

(** Blocks run in the order they were enqueued, one at a time.  When the
    blocks ahead of [wb] have run without an exception escaping, [wb] is
    at the head of the queue, the blocks that were behind it follow in
    their order, and whatever the earlier blocks enqueued comes after
    them. *)
Theorem blocks_run_in_fifo_order :
  forall (ahead : list WrappedBlock) (wb : WrappedBlock)
         (behind : list WrappedBlock) (w w' : GCDMailbox.t),
    manifestsAlive w = true ->
    _queue w = ahead ++ wb :: behind ->
    drain (length ahead) w = Done w' ->
    exists added, _queue w' = wb :: behind ++ added.
Proof.
  induction ahead as [|first ahead IH]; intros wb behind w w' Hw Hq Hd.
  - cbn in Hd. injection Hd as <-. exists []. rewrite app_nil_r. exact Hq.
  - cbn [length drain] in Hd. unfold runNext in Hd. rewrite Hq in Hd.
    cbn [app] in Hd.
    set (w0 := mk (now w) (heap w) (sCurrentManifest w) (_eventCount w)
                  (actorRefs w) (ahead ++ wb :: behind) (log w)) in *.
    assert (Hw0 : manifestsAlive w0 = true /\
                  (currentManifest first < length (heap w0))%nat).
    { apply alive_spec in Hw. destruct Hw as [Hq' Hc'].
      rewrite Hq in Hq'. split.
      - apply alive_spec. unfold w0. cbn. split.
        + intros wb' Hin. apply Hq'. right. exact Hin.
        + exact Hc'.
      - unfold w0. cbn. apply Hq'. left. reflexivity. }
    destruct Hw0 as [Hw0 Hlt].
    pose proof (wrappedBlock_effect first w0 Hw0 Hlt) as Hstep.
    destruct (wrappedBlock first w0) as [w1|x w1|]; [|discriminate|contradiction].
    destruct Hstep as [Hw1 [[added [Hq1 _]] _]].
    unfold w0 in Hq1. cbn in Hq1. rewrite <- app_assoc in Hq1.
    cbn [app] in Hq1.
    destruct (IH wb (behind ++ added) w1 w' Hw1 Hq1 Hd) as [added' Hq2].
    exists (added ++ added'). rewrite Hq2, <- app_assoc. reflexivity.
Qed.

Lemma blocks_run_in_fifo_order_witness :
  exists w' added,
    drain 1 threeQueued = Done w'
    /\ _queue w'
       = mkWrapped 1 "second" (MkBlock [] (Some (OtherObject "NSException")))
         :: [mkWrapped 2 "third" (MkBlock [] None)] ++ added.
Proof.
  eexists.
  match goal with
  | |- exists added, ?d = Done ?w /\ _ =>
      assert (E : d = Done w) by (vm_compute; reflexivity)
  end.
  destruct (blocks_run_in_fifo_order
              [mkWrapped 0 "first" spawnsTwo]
              (mkWrapped 1 "second" (MkBlock [] (Some (OtherObject "NSException"))))
              [mkWrapped 2 "third" (MkBlock [] None)]
              threeQueued _ eq_refl eq_refl E) as [added Hq].
  exists added. split; [exact E | exact Hq].
Defined.

End MailboxRunProps.

(* ================================================================== *)
(** ** LoopbackWebSocket: back-pressure over a run of messages *)

Module LoopbackRunProps.

Import LoopbackWebSocket LoopbackRuns IntFacts.

Lemma total_nonneg : forall msgs, 0 <= total msgs.
Proof.
  induction msgs as [|msg rest IH]; cbn; [lia|].
  pose proof (len_nonneg _ msg). unfold total in IH. lia.
Qed.

Lemma sendAll_effect :
  forall msgs s,
    0 <= _bufferedBytes s ->
    _bufferedBytes s + total msgs < 2 ^ 64 ->
    _bufferedBytes (snd (sendAll msgs s)) = _bufferedBytes s + total msgs
    /\ _isOpen (snd (sendAll msgs s)) = _isOpen s
    /\ (In false (fst (sendAll msgs s))
        <-> msgs <> [] /\ kSendBufferSize < _bufferedBytes s + total msgs).
Proof.
  induction msgs as [|msg rest IH]; intros s H0 Hlt.
  - cbn. split; [lia|]. split; [reflexivity|].
    split; [intros []|intros [H _]; apply H; reflexivity].
  - cbn [sendAll send total fold_right] in *.
    fold (total rest) in *.
    pose proof (len_nonneg _ msg) as Hm.
    pose proof (total_nonneg rest) as Hr.
    assert (E : u64 (_bufferedBytes s + len msg) = _bufferedBytes s + len msg).
    { apply u64_small. unfold is_u64. lia. }
    rewrite E.
    set (s1 := mk (_isOpen s) (_bufferedBytes s + len msg)).
    destruct (IH s1) as [Hb [Ho Hin]];
      [unfold s1; cbn; lia | unfold s1; cbn; lia |].
    destruct (sendAll rest s1) as [oks s2]. cbn [fst snd] in *.
    unfold s1 in Hb, Ho, Hin. cbn [_bufferedBytes _isOpen] in Hb, Ho, Hin.
    split; [lia|]. split; [exact Ho|].
    split.
    + intros [Hf|Hf].
      * split; [discriminate|].
        apply Z.leb_gt in Hf. lia.
      * apply Hin in Hf. split; [discriminate|lia].
    + intros [_ Hk].
      destruct (Z.leb_spec (_bufferedBytes s + len msg) kSendBufferSize)
        as [Hle|Hgt]; [|left; reflexivity].
      right. apply Hin. split; [|lia].
      intro Hnil. subst rest. cbn [total fold_right] in Hk. lia.
Qed.

Lemma ackAll_effect :
  forall sizes s,
    connected s = true ->
    Forall (fun n => 0 <= n) sizes ->
    fold_right Z.add 0 sizes <= _bufferedBytes s ->
    _bufferedBytes s < 2 ^ 64 ->
    _bufferedBytes (snd (ackAll sizes s))
    = _bufferedBytes s - fold_right Z.add 0 sizes
    /\ fst (ackAll sizes s)
       = if (kSendBufferSize <? _bufferedBytes s)
            && (_bufferedBytes s - fold_right Z.add 0 sizes <=? kSendBufferSize)
         then [onWebSocketWriteable] else [].
Proof.
  induction sizes as [|n rest IH]; intros s Hc Hpos Hsum Hlt.
  - cbn [ackAll fold_right fst snd]. split; [lia|].
    destruct (Z.ltb_spec kSendBufferSize (_bufferedBytes s));
      destruct (Z.leb_spec (_bufferedBytes s - 0) kSendBufferSize);
      cbn [andb]; try reflexivity; lia.
  - cbn [ackAll fold_right] in *. unfold _ack. rewrite Hc. cbn [negb].
    inversion Hpos as [|n' rest' Hn Hrest]; subst.
    assert (Hr : 0 <= fold_right Z.add 0 rest).
    { clear -Hrest. induction Hrest; cbn; lia. }
    assert (E : u64 (_bufferedBytes s - n) = _bufferedBytes s - n).
    { apply u64_small. unfold is_u64. lia. }
    rewrite E.
    assert (E2 : u64 (_bufferedBytes s - n + n) = _bufferedBytes s).
    { replace (_bufferedBytes s - n + n) with (_bufferedBytes s) by lia.
      apply u64_small. unfold is_u64. lia. }
    rewrite E2.
    set (s1 := mk (_isOpen s) (_bufferedBytes s - n)).
    destruct (IH s1) as [Hb Hev];
      [exact Hc | exact Hrest | unfold s1; cbn; lia | unfold s1; cbn; lia |].
    destruct (ackAll rest s1) as [more s2]. cbn [fst snd] in *.
    unfold s1 in Hb, Hev. cbn [_bufferedBytes _isOpen] in Hb, Hev.
    split; [lia|]. rewrite Hev.
    replace (_bufferedBytes s - (n + fold_right Z.add 0 rest))
      with (_bufferedBytes s - n - fold_right Z.add 0 rest) by lia.
    destruct (Z.leb_spec (_bufferedBytes s - n) kSendBufferSize);
      destruct (Z.gtb_spec (_bufferedBytes s) kSendBufferSize);
      destruct (Z.ltb_spec kSendBufferSize (_bufferedBytes s));
      destruct (Z.ltb_spec kSendBufferSize (_bufferedBytes s - n));
      destruct (Z.leb_spec (_bufferedBytes s - n - fold_right Z.add 0 rest)
                           kSendBufferSize);
      cbn [andb app]; try reflexivity; lia.
Qed.

Lemma sizes_of_messages :
  forall msgs,
    Forall (fun n => 0 <= n) (map (@len byte) msgs)
    /\ fold_right Z.add 0 (map (@len byte) msgs) = total msgs.
Proof.
  induction msgs as [|msg rest [IH1 IH2]]; cbn.
  - split; [constructor | reflexivity].
  - split; [constructor; [apply len_nonneg | exact IH1]|].
    unfold total in IH2. rewrite IH2. reflexivity.
Qed.

(** Back-pressure is released once.  On a connected socket that starts
    at or below the high-water mark, after a run of [send] calls the
    buffered byte count has grown by the total size of the messages, and
    some [send] of the run has returned false exactly when the total has
    taken the count above [kSendBufferSize].  When the peer then
    acknowledges the messages one by one, the count comes back to where
    it started, and the delegate's [onWebSocketWriteable] is called
    exactly once over all the acknowledgements if some [send] had
    returned false, and not at all otherwise. *)
Theorem backpressure_released_once :
  forall (msgs : list (list byte)) (s : LoopbackWebSocket.t),
    connected s = true ->
    0 <= _bufferedBytes s <= kSendBufferSize ->
    _bufferedBytes s + total msgs < 2 ^ 64 ->
    _bufferedBytes (snd (sendAll msgs s)) = _bufferedBytes s + total msgs
    /\ (In false (fst (sendAll msgs s))
        <-> kSendBufferSize < _bufferedBytes s + total msgs)
    /\ _bufferedBytes (snd (ackAll (map (@len byte) msgs) (snd (sendAll msgs s))))
       = _bufferedBytes s
    /\ fst (ackAll (map (@len byte) msgs) (snd (sendAll msgs s)))
       = if existsb negb (fst (sendAll msgs s))
         then [onWebSocketWriteable] else [].
Proof.
  intros msgs s Hc [H0 Hk] Hlt.
  destruct (sendAll_effect msgs s H0 Hlt) as [Hb [Ho Hin]].
  destruct (sizes_of_messages msgs) as [Hpos Hsum].
  pose proof (total_nonneg msgs) as Ht.
  assert (Hin' : In false (fst (sendAll msgs s))
                 <-> kSendBufferSize < _bufferedBytes s + total msgs).
  { rewrite Hin. split; [intros [_ H]; exact H|].
    intro H. split; [|exact H]. intro E. subst msgs.
    cbn [total fold_right] in H. lia. }
  destruct (ackAll_effect (map (@len byte) msgs) (snd (sendAll msgs s)))
    as [Hb2 Hev].
  { unfold connected. rewrite Ho. exact Hc. }
  { exact Hpos. }
  { rewrite Hsum, Hb. lia. }
  { rewrite Hb. exact Hlt. }
  split; [exact Hb|]. split; [exact Hin'|].
  split; [rewrite Hb2, Hsum, Hb; lia|].
  rewrite Hev, Hsum, Hb.
  replace (_bufferedBytes s + total msgs - total msgs) with (_bufferedBytes s)
    by lia.
  assert (Hle : (_bufferedBytes s <=? kSendBufferSize) = true)
    by (apply Z.leb_le; exact Hk).
  rewrite Hle, andb_true_r.
  destruct (existsb negb (fst (sendAll msgs s))) eqn:Hex.
  - apply existsb_exists in Hex. destruct Hex as [b [Hb' Hneg]].
    destruct b; [discriminate|].
    apply Hin' in Hb'.
    apply Z.ltb_lt in Hb'. rewrite Hb'. reflexivity.
  - destruct (Z.ltb_spec kSendBufferSize (_bufferedBytes s + total msgs))
      as [Hgt|Hle']; [|reflexivity].
    apply Hin' in Hgt.
    assert (Hex' : existsb negb (fst (sendAll msgs s)) = true).
    { apply existsb_exists. exists false. split; [exact Hgt | reflexivity]. }
    rewrite Hex in Hex'. discriminate.
Qed.

Lemma backpressure_released_once_witness :
  fst (ackAll (map (@len byte) [repeat x00 5; repeat x00 10; repeat x00 3])
         (snd (sendAll [repeat x00 5; repeat x00 10; repeat x00 3]
                 (mk true 32760))))
  = if existsb negb
         (fst (sendAll [repeat x00 5; repeat x00 10; repeat x00 3]
                 (mk true 32760)))
    then [onWebSocketWriteable] else [].
Proof.
  apply (backpressure_released_once
           [repeat x00 5; repeat x00 10; repeat x00 3] (mk true 32760)).
  - reflexivity.
  - vm_compute. split; discriminate.
  - vm_compute. reflexivity.
Defined.

End LoopbackRunProps.

(* ================================================================== *)
(** ** Batcher *)

Module BatcherProps.

Import Batcher IntFacts.

Section Items.

Variable ITEM : Type.

(** The items a batcher holds, [nullptr] read as none. *)
Lemma push_items :
  forall now (item : ITEM) b,
    _items (fst (push now item b))
    = Some (match _items b with None => [] | Some l => l end ++ [item])
    /\ _scheduled (fst (push now item b)) = true
    /\ _latency (fst (push now item b)) = _latency b
    /\ _capacity (fst (push now item b)) = _capacity b
    /\ _popTime (fst (push now item b)) = _popTime b.
Proof.
  intros now item b. unfold push.
  destruct (_items b) as [l|];
    destruct ((_latency b >? 0) && (_capacity b >? 0) && _) ;
    destruct (_scheduled b) eqn:Hs; cbn; rewrite ?Hs;
    repeat (split; try reflexivity).
Qed.

Lemma pushAll_items :
  forall (pushes : list (Z * ITEM)) b,
    pushes <> [] ->
    _items (fst (pushAll pushes b))
    = Some (match _items b with None => [] | Some l => l end ++ map snd pushes)
    /\ _scheduled (fst (pushAll pushes b)) = true.
Proof.
  induction pushes as [|[now item] rest IH]; intros b Hne; [contradiction|].
  cbn [pushAll].
  destruct (push_items now item b) as [Hi [Hs _]].
  destruct (push now item b) as [b1 asked]. cbn [fst] in Hi, Hs.
  destruct rest as [|p rest'].
  - cbn. split; [exact Hi | exact Hs].
  - destruct (IH b1) as [Hi2 Hs2]; [discriminate|].
    destruct (pushAll (p :: rest') b1) as [b2 more]. cbn [fst] in *.
    rewrite Hi2, Hi. split; [|exact Hs2].
    f_equal. rewrite <- app_assoc. reflexivity.
Qed.

(** No item is left without a scheduled pop.  After any sequence of
    [push] and [pop] calls on a new batcher, whenever items are waiting
    ([_items] is not null) [_scheduled] is set, so that a call of the
    processor has been asked of the actor and not yet answered by a
    [pop]. *)
Theorem waiting_items_have_a_pop_scheduled :
  forall (calls : list (Call ITEM)) (latency capacity : Z),
    _items (run calls (new latency capacity)) <> None ->
    _scheduled (run calls (new latency capacity)) = true.
Proof.
  intros calls latency capacity.
  assert (Hinv : forall (b : t ITEM),
             (_items b <> None -> _scheduled b = true) ->
             _items (run calls b) <> None -> _scheduled (run calls b) = true).
  { induction calls as [|c rest IH]; intros b Hb; [exact Hb|].
    cbn [run fold_left]. apply IH.
    destruct c as [now item|now]; cbn [step].
    - intros _. apply push_items.
    - cbn. intro H. contradiction H. reflexivity. }
  apply Hinv. cbn. intro H. contradiction H. reflexivity.
Qed.

(** Once a pop is scheduled, further pushes ask the actor only when the
    batch becomes full. *)
Lemma pushAll_scheduled :
  forall (pushes : list (Z * ITEM)) b,
    _scheduled b = true ->
    snd (pushAll pushes b)
    = if (_latency b >? 0) && (_capacity b >? 0)
         && (len (match _items b with None => [] | Some l => l end)
             <? _capacity b)
         && (_capacity b
             <=? len (match _items b with None => [] | Some l => l end)
                 + len pushes)
      then [enqueue] else [].
Proof.
  induction pushes as [|[now item] rest IH]; intros b Hs.
  - cbn [pushAll snd]. change (len (@nil (Z * ITEM))) with 0.
    rewrite Z.add_0_r.
    destruct (_latency b >? 0); destruct (_capacity b >? 0);
      try reflexivity. cbn [andb].
    destruct (Z.ltb_spec (len match _items b with
                              | Some l => l | None => [] end) (_capacity b));
      destruct (Z.leb_spec (_capacity b)
                  (len match _items b with Some l => l | None => [] end));
      try reflexivity; lia.
  - cbn [pushAll].
    destruct (push_items now item b) as [Hi [Hs1 [Hl [Hc _]]]].
    assert (Hask : snd (push now item b)
                   = if (_latency b >? 0) && (_capacity b >? 0)
                        && (len (match _items b with
                                 | None => [] | Some l => l end) + 1
                            =? _capacity b)
                     then [enqueue] else []).
    { unfold push. rewrite Hs. cbn [negb andb]. rewrite orb_false_r.
      assert (E : len (match _items b with
                       | Some l => l ++ [item] | None => [item] end)
                  = len (match _items b with
                         | None => [] | Some l => l end) + 1).
      { destruct (_items b) as [l|]; [rewrite len_app|]; reflexivity. }
      rewrite E.
      destruct ((_latency b >? 0) && (_capacity b >? 0) && _); reflexivity. }
    destruct (push now item b) as [b1 asked]. cbn [fst snd] in *.
    specialize (IH b1 Hs1).
    destruct (pushAll rest b1) as [b2 more]. cbn [fst snd] in *.
    rewrite Hask, IH, Hi, Hl, Hc, len_app.
    change (len [item]) with 1.
    assert (Hn : len ((now, item) :: rest) = 1 + len rest).
    { unfold len. cbn [length]. lia. }
    rewrite Hn.
    pose proof (len_nonneg _ rest) as Hr.
    set (n0 := len match _items b with Some l => l | None => [] end).
    destruct (_latency b >? 0); destruct (_capacity b >? 0);
      try reflexivity. cbn [andb].
    destruct (Z.eqb_spec (n0 + 1) (_capacity b));
      destruct (Z.ltb_spec (n0 + 1) (_capacity b));
      destruct (Z.ltb_spec n0 (_capacity b));
      destruct (Z.leb_spec (_capacity b) (n0 + 1 + len rest));
      destruct (Z.leb_spec (_capacity b) (n0 + (1 + len rest)));
      cbn [andb app]; try reflexivity; lia.
Qed.

(** [pop] hands over the batch.  After a burst of pushes on a batcher
    that held nothing, [pop] returns the pushed items in the order they
    were pushed ([nullptr] when nothing was pushed), notes the time, and
    clears [_scheduled]; a second [pop] right after it returns
    [nullptr]. *)
Theorem pop_returns_the_batch_in_order :
  forall (pushes : list (Z * ITEM)) (now now' : Z) (b : t ITEM),
    _items b = None ->
    snd (pop now (fst (pushAll pushes b)))
    = match pushes with [] => None | _ => Some (map snd pushes) end
    /\ _scheduled (fst (pop now (fst (pushAll pushes b)))) = false
    /\ _popTime (fst (pop now (fst (pushAll pushes b)))) = now
    /\ snd (pop now' (fst (pop now (fst (pushAll pushes b))))) = None.
Proof.
  intros pushes now now' b Hb.
  split; [|split; [reflexivity | split; reflexivity]].
  cbn [pop snd].
  destruct pushes as [|p rest]; [exact Hb|].
  destruct (pushAll_items (p :: rest) b) as [Hi _]; [discriminate|].
  rewrite Hi, Hb. reflexivity.
Qed.

(** One batch asks the actor at most twice.  On a batcher that holds
    nothing and has nothing scheduled, the first push of a burst asks for
    the processor once: at once when latency and capacity are positive
    and the capacity is one or the last pop is more than the latency ago,
    after the latency otherwise.  The pushes that follow ask once more,
    at once, when the batch reaches a capacity above one (and the latency
    is positive), and never otherwise. *)
Theorem one_batch_asks_at_most_twice :
  forall (now : Z) (item : ITEM) (rest : list (Z * ITEM)) (b : t ITEM),
    _items b = None ->
    _scheduled b = false ->
    snd (pushAll ((now, item) :: rest) b)
    = (if (_latency b >? 0) && (_capacity b >? 0)
          && ((_capacity b =? 1) || (timeSincePop now b >? _latency b))
       then enqueue else enqueueAfter (_latency b))
      :: (if (_latency b >? 0) && (1 <? _capacity b)
             && (_capacity b <=? 1 + len rest)
          then [enqueue] else []).
Proof.
  intros now item rest b Hi Hs. cbn [pushAll].
  destruct (push_items now item b) as [Hi1 [Hs1 [Hl [Hc _]]]].
  assert (Hask : snd (push now item b)
                 = [if (_latency b >? 0) && (_capacity b >? 0)
                       && ((_capacity b =? 1)
                           || (timeSincePop now b >? _latency b))
                    then enqueue else enqueueAfter (_latency b)]).
  { unfold push. rewrite Hi, Hs. cbn [negb andb].
    change (len [item]) with 1. rewrite (Z.eqb_sym 1).
    destruct ((_latency b >? 0) && (_capacity b >? 0) && _); reflexivity. }
  pose proof (pushAll_scheduled rest (fst (push now item b)) Hs1) as Hrest.
  destruct (push now item b) as [b1 asked]. cbn [fst snd] in *.
  destruct (pushAll rest b1) as [b2 more]. cbn [fst snd] in *.
  rewrite Hask, Hrest, Hi1, Hl, Hc, Hi. cbn [app].
  change (len [item]) with 1.
  f_equal.
  destruct (_latency b >? 0); [|reflexivity]. cbn [andb].
  destruct (Z.gtb_spec (_capacity b) 0);
    destruct (Z.ltb_spec 1 (_capacity b));
    cbn [andb]; try reflexivity; lia.
Qed.

End Items.

Lemma waiting_items_have_a_pop_scheduled_witness :
  _scheduled (run [Push 0 x00; Pop 5; Push 6 x01] (new 10 2)) = true.
Proof.
  apply (waiting_items_have_a_pop_scheduled byte
           [Push 0 x00; Pop 5; Push 6 x01] 10 2).
  vm_compute. discriminate.
Defined.

Lemma pop_returns_the_batch_in_order_witness :
  snd (pop 9 (fst (pushAll [(1, x01); (2, x02); (3, x03)] (new 10 2))))
  = Some [x01; x02; x03].
Proof.
  apply (pop_returns_the_batch_in_order byte
           [(1, x01); (2, x02); (3, x03)] 9 9 (new 10 2)).
  reflexivity.
Defined.

Lemma one_batch_asks_at_most_twice_witness :
  snd (pushAll [(1, x01); (2, x02); (3, x03)] (new 10 2))
  = [enqueueAfter 10; enqueue].
Proof.
  apply (one_batch_asks_at_most_twice byte 1 x01 [(2, x02); (3, x03)]
           (new 10 2)); reflexivity.
Defined.

End BatcherProps.

(* ================================================================== *)
(** ** Async: awaiting a value *)

Module AsyncProps.

Import Async.

Section Awaiting.

Variable T : Type.
Variable T0 : T.

(** An asynchronous function that awaits [a] and is created while [a] is
    not ready suspends: it is left unready, waiting on [a] and observing
    it, bound to the current actor. *)
Lemma asyncBody_suspends :
  forall (w : World T) (a : nat) (line : Z) (f : T -> T)
         (xa : AsyncProvider T) (fuel : nat),
    heap w a = Some xa -> _ready xa = false -> _observer xa = None ->
    a <> allocated w ->
    exists w1,
      _asyncBody T0 (S fuel) (awaiting T0 a line f) w = Ok (allocated w, w1)
      /\ heap w1 (allocated w)
         = Some (mkProvider T (mkState (Some a) line) false (currentActor w)
                            None T0)
      /\ heap w1 a
         = Some (mkProvider T (_state xa) false (_actor xa)
                            (Some (allocated w)) (_result xa))
      /\ bodies w1 (allocated w) = Some (awaiting T0 a line f)
      /\ (forall i, i <> a -> i <> allocated w ->
                    heap w1 i = heap w i /\ bodies w1 i = bodies w i)
      /\ bodies w1 a = bodies w a
      /\ allocated w1 = S (allocated w)
      /\ currentActor w1 = currentActor w
      /\ woken w1 = woken w.
Proof.
  intros w a line f xa fuel Ha Hr Ho Hne.
  assert (E : Nat.eqb a (allocated w) = false) by (apply Nat.eqb_neq; exact Hne).
  assert (E' : Nat.eqb (allocated w) a = false)
    by (apply Nat.eqb_neq; intro; apply Hne; symmetry; assumption).
  unfold _asyncBody. cbn [next]. heap_simpl.
  unfold awaiting at 1. heap_simpl. cbn [Z.eqb].
  unfold mustWaitFor, ready. heap_simpl. rewrite E, Ha, Hr. heap_simpl.
  unfold _wait. heap_simpl. unfold setObserver. heap_simpl.
  rewrite E, Ha, Ho.
  eexists. split; [reflexivity|]. heap_simpl. rewrite E'.
  split; [reflexivity|]. split; [rewrite Hr; reflexivity|].
  split; [reflexivity|].
  split.
  { intros i Hi Hi'.
    apply Nat.eqb_neq in Hi. apply Nat.eqb_neq in Hi'.
    rewrite Hi, Hi'. split; reflexivity. }
  rewrite E. repeat (split; [reflexivity|]). reflexivity.
Qed.

(** [next()] on a suspended function whose awaited value has arrived
    runs the rest of the body and reports the result. *)
Lemma next_resumes :
  forall (w : World T) (self a : nat) (line : Z) (f : T -> T)
         (x xa : AsyncProvider T) (fuel : nat),
    line <> 0 ->
    heap w self = Some x -> bodies w self = Some (awaiting T0 a line f) ->
    _state x = mkState (Some a) line ->
    heap w a = Some xa -> _ready xa = true ->
    next (S fuel) self w
    = _gotResult (next fuel) self
        (store self (mkProvider T (mkState None line) (_ready x) (_actor x)
                                (_observer x) (f (_result xa))) w).
Proof.
  intros w self a line f x xa fuel Hl Hx Hb Hs Ha Hr.
  cbn [next]. rewrite Hx, Hb. unfold awaiting at 1. rewrite Hs. heap_simpl.
  destruct (Z.eqb_spec line 0) as [E|_]; [contradiction|].
  rewrite Z.eqb_refl. unfold asyncResult, result. heap_simpl.
  rewrite Ha, Hr. heap_simpl. reflexivity.
Qed.

(** An asynchronous function resumes when the value it awaits arrives.
    Created outside any actor while provider [a] is not ready and has no
    observer, the function that awaits [a] and returns [f v] comes back
    unready.  [setResult(v)] on [a] then resumes it within the call: it
    is ready with [f v] when [setResult] returns, [a] is ready with [v]
    and has let go of its observer. *)
Theorem awaiting_function_resumes_with_the_value :
  forall (w : World T) (a : nat) (line : Z) (f : T -> T)
         (xa : AsyncProvider T) (v : T) (fuel : nat),
    line <> 0 ->
    heap w a = Some xa -> _ready xa = false -> _observer xa = None ->
    a <> allocated w -> currentActor w = None ->
    exists w1 w2,
      _asyncBody T0 (S fuel) (awaiting T0 a line f) w = Ok (allocated w, w1)
      /\ ready (allocated w) (heap w1) = Ok false
      /\ setResult (S fuel) a v w1 = Ok w2
      /\ result (allocated w) (heap w2) = Ok (f v)
      /\ result a (heap w2) = Ok v
      /\ heap w2 a = Some (mkProvider T (_state xa) true (_actor xa) None v).
Proof.
  intros w a line f xa v fuel Hl Ha Hr Ho Hne Hc.
  destruct (asyncBody_suspends w a line f xa fuel Ha Hr Ho Hne)
    as [w1 [Hw1 [HF [Ha1 [Hb1 _]]]]].
  assert (E : Nat.eqb a (allocated w) = false) by (apply Nat.eqb_neq; exact Hne).
  assert (E' : Nat.eqb (allocated w) a = false)
    by (apply Nat.eqb_neq; intro; apply Hne; symmetry; assumption).
  exists w1. eexists. split; [exact Hw1|].
  split; [unfold ready; rewrite HF; reflexivity|].
  rewrite Hc in HF.
  unfold setResult. rewrite Ha1. heap_simpl.
  unfold _gotResult at 1. heap_simpl.
  unfold wakeUp. heap_simpl. rewrite E', HF. heap_simpl.
  erewrite next_resumes with (a := a) (line := line) (f := f);
    [ | exact Hl | heap_simpl; rewrite E'; exact HF
      | heap_simpl; exact Hb1 | reflexivity
      | heap_simpl; reflexivity | reflexivity ].
  unfold _gotResult. heap_simpl.
  split; [reflexivity|]. unfold result. heap_simpl. rewrite E.
  split; [reflexivity|]. split; reflexivity.
Qed.

(** Awaiting a value that is already there does not suspend.  When [a]
    is ready, the function that awaits it runs to its end inside
    [_asyncBody]: it comes back ready with [f] of [a]'s result, and [a]
    has not been given an observer. *)
Theorem awaiting_a_ready_value_does_not_suspend :
  forall (w : World T) (a : nat) (line : Z) (f : T -> T)
         (xa : AsyncProvider T) (fuel : nat),
    heap w a = Some xa -> _ready xa = true ->
    a <> allocated w ->
    exists w1,
      _asyncBody T0 (S fuel) (awaiting T0 a line f) w = Ok (allocated w, w1)
      /\ result (allocated w) (heap w1) = Ok (f (_result xa))
      /\ heap w1 a = Some xa
      /\ woken w1 = woken w.
Proof.
  intros w a line f xa fuel Ha Hr Hne.
  assert (E : Nat.eqb a (allocated w) = false) by (apply Nat.eqb_neq; exact Hne).
  unfold _asyncBody. cbn [next]. heap_simpl.
  unfold awaiting at 1. heap_simpl. cbn [Z.eqb].
  unfold mustWaitFor, ready. heap_simpl. rewrite E, Ha, Hr. heap_simpl.
  unfold asyncResult, result. heap_simpl. rewrite E, Ha, Hr. heap_simpl.
  unfold _gotResult. heap_simpl.
  eexists. split; [reflexivity|]. unfold result. heap_simpl. rewrite E.
  split; [reflexivity|]. split; [exact Ha | reflexivity].
Qed.

(** A provider has room for one observer.  When [a] is not ready and is
    already observed, a second function that awaits it fails the
    assertion in [setObserver] while it is being created. *)
Theorem second_observer_fails_the_assertion :
  forall (w : World T) (a : nat) (line : Z) (f : T -> T)
         (xa : AsyncProvider T) (observer : nat) (fuel : nat),
    heap w a = Some xa -> _ready xa = false ->
    _observer xa = Some observer ->
    a <> allocated w ->
    _asyncBody T0 (S fuel) (awaiting T0 a line f) w = AssertionFailed.
Proof.
  intros w a line f xa observer fuel Ha Hr Ho Hne.
  assert (E : Nat.eqb a (allocated w) = false) by (apply Nat.eqb_neq; exact Hne).
  unfold _asyncBody. cbn [next]. heap_simpl.
  unfold awaiting at 1. heap_simpl. cbn [Z.eqb].
  unfold mustWaitFor, ready. heap_simpl. rewrite E, Ha, Hr. heap_simpl.
  unfold _wait. heap_simpl. unfold setObserver. heap_simpl.
  rewrite E, Ha, Ho. reflexivity.
Qed.

(** Inside an actor the resumption is handed to the actor.  A function
    created while [actor] is the current actor is not resumed by
    [setResult] itself, whoever calls it: the provider asks the actor
    once, through [wakeAsyncProvider], and the function is still unready
    when [setResult] returns.  The [next()] that the actor calls later
    completes it with [f v]. *)
Theorem actor_function_is_resumed_by_its_actor :
  forall (w : World T) (a : nat) (line : Z) (f : T -> T)
         (xa : AsyncProvider T) (v : T) (actor : nat) (fuel fuel' : nat),
    line <> 0 ->
    heap w a = Some xa -> _ready xa = false -> _observer xa = None ->
    a <> allocated w -> currentActor w = Some actor ->
    exists w1 w2 w3,
      _asyncBody T0 (S fuel) (awaiting T0 a line f) w = Ok (allocated w, w1)
      /\ setResult fuel' a v w1 = Ok w2
      /\ woken w2 = woken w ++ [(actor, allocated w)]
      /\ ready (allocated w) (heap w2) = Ok false
      /\ result a (heap w2) = Ok v
      /\ next (S fuel) (allocated w) w2 = Ok w3
      /\ result (allocated w) (heap w3) = Ok (f v)
      /\ woken w3 = woken w2.
Proof.
  intros w a line f xa v actor fuel fuel' Hl Ha Hr Ho Hne Hc.
  destruct (asyncBody_suspends w a line f xa fuel Ha Hr Ho Hne)
    as [w1 [Hw1 [HF [Ha1 [Hb1 [_ [_ [_ [_ Hwk]]]]]]]]].
  assert (E : Nat.eqb a (allocated w) = false) by (apply Nat.eqb_neq; exact Hne).
  assert (E' : Nat.eqb (allocated w) a = false)
    by (apply Nat.eqb_neq; intro; apply Hne; symmetry; assumption).
  rewrite Hc in HF.
  exists w1. eexists. eexists. split; [exact Hw1|].
  unfold setResult. rewrite Ha1. heap_simpl.
  unfold _gotResult at 1. heap_simpl.
  unfold wakeUp. heap_simpl. rewrite E', HF. heap_simpl.
  split; [reflexivity|]. heap_simpl.
  split; [rewrite Hwk; reflexivity|].
  split; [unfold ready; heap_simpl; rewrite E', HF; reflexivity|].
  split; [unfold result; heap_simpl; reflexivity|].
  erewrite next_resumes with (a := a) (line := line) (f := f);
    [ | exact Hl | heap_simpl; rewrite E'; exact HF
      | heap_simpl; exact Hb1 | reflexivity
      | heap_simpl; reflexivity | reflexivity ].
  unfold _gotResult. heap_simpl.
  split; [reflexivity|]. unfold result. heap_simpl.
  split; reflexivity.
Qed.

(** Asynchronous functions compose.  When one function awaits [a] and
    a second function awaits the first, both created outside any actor,
    a single [setResult(v)] on [a] resumes the first, whose result
    resumes the second: when [setResult] returns, the first is ready with
    [f v] and the second with [g (f v)]. *)
Theorem awaiting_functions_compose :
  forall (w : World T) (a : nat) (line line' : Z) (f g : T -> T)
         (xa : AsyncProvider T) (v : T) (fuel : nat),
    line <> 0 -> line' <> 0 ->
    heap w a = Some xa -> _ready xa = false -> _observer xa = None ->
    (a < allocated w)%nat -> currentActor w = None ->
    exists w1 w2 w3,
      _asyncBody T0 (S fuel) (awaiting T0 a line f) w = Ok (allocated w, w1)
      /\ _asyncBody T0 (S fuel) (awaiting T0 (allocated w) line' g) w1
         = Ok (S (allocated w), w2)
      /\ ready (S (allocated w)) (heap w2) = Ok false
      /\ setResult (S (S fuel)) a v w2 = Ok w3
      /\ result (allocated w) (heap w3) = Ok (f v)
      /\ result (S (allocated w)) (heap w3) = Ok (g (f v)).
Proof.
  intros w a line line' f g xa v fuel Hl Hl' Ha Hr Ho Hlt Hc.
  assert (Hne : a <> allocated w) by lia.
  destruct (asyncBody_suspends w a line f xa fuel Ha Hr Ho Hne)
    as [w1 [Hw1 [HF [Ha1 [Hb1 [_ [_ [Hal1 [Hc1 _]]]]]]]]].
  rewrite Hc in HF.
  assert (HneF : allocated w <> allocated w1) by lia.
  destruct (asyncBody_suspends w1 (allocated w) line' g _ fuel HF
              eq_refl eq_refl HneF)
    as [w2 [Hw2 [HG [HF2 [Hb2 [Hother [HbF _]]]]]]].
  rewrite Hal1 in Hw2, HG, HF2, Hb2, Hother. rewrite Hc1, Hc in HG.
  cbn [_state _actor _result] in HF2.
  destruct (Hother a) as [Ha2 _]; [lia | lia |]. rewrite Ha1 in Ha2.
  rewrite Hb1 in HbF.
  assert (E1 : Nat.eqb a (allocated w) = false) by (apply Nat.eqb_neq; lia).
  assert (E2 : Nat.eqb (allocated w) a = false) by (apply Nat.eqb_neq; lia).
  assert (E3 : Nat.eqb (S (allocated w)) (allocated w) = false)
    by (apply Nat.eqb_neq; lia).
  assert (E4 : Nat.eqb (allocated w) (S (allocated w)) = false)
    by (apply Nat.eqb_neq; lia).
  assert (E5 : Nat.eqb (S (allocated w)) a = false) by (apply Nat.eqb_neq; lia).
  assert (E6 : Nat.eqb a (S (allocated w)) = false) by (apply Nat.eqb_neq; lia).
  exists w1, w2. eexists. split; [exact Hw1|]. split; [exact Hw2|].
  split; [unfold ready; rewrite HG; reflexivity|].
  unfold setResult. rewrite Ha2. heap_simpl.
  unfold _gotResult at 1. heap_simpl.
  unfold wakeUp at 1. heap_simpl. rewrite E2, HF2. heap_simpl.
  erewrite next_resumes with (a := a) (line := line) (f := f);
    [ | exact Hl | heap_simpl; rewrite E2; exact HF2
      | heap_simpl; exact HbF | reflexivity
      | heap_simpl; reflexivity | reflexivity ].
  unfold _gotResult at 1. heap_simpl.
  unfold wakeUp at 1. heap_simpl. rewrite E3, E5, HG. heap_simpl.
  erewrite next_resumes with (a := allocated w) (line := line') (f := g);
    [ | exact Hl' | heap_simpl; rewrite E3, E5; exact HG
      | heap_simpl; exact Hb2 | reflexivity
      | heap_simpl; reflexivity | reflexivity ].
  unfold _gotResult. heap_simpl.
  split; [reflexivity|]. unfold result. heap_simpl. rewrite E4. heap_simpl.
  split; reflexivity.
Qed.

End Awaiting.

(** A world with one provider made by [create()], outside any actor. *)
Lemma awaiting_function_resumes_with_the_value_witness :
  exists w1 w2,
    _asyncBody 0 1 (awaiting 0 O 42 Z.succ) (snd (create 0 (empty (T:=Z))))
    = Ok (1%nat, w1)
    /\ ready 1 (heap w1) = Ok false
    /\ setResult 1 O 7 w1 = Ok w2
    /\ result 1 (heap w2) = Ok 8.
Proof.
  destruct (awaiting_function_resumes_with_the_value Z 0
              (snd (create 0 (empty (T:=Z)))) O 42 Z.succ (fresh Z 0) 7 O)
    as [w1 [w2 [H1 [H2 [H3 [H4 _]]]]]];
    try reflexivity; try discriminate.
  exists w1, w2. split; [exact H1|]. split; [exact H2|].
  split; [exact H3 | exact H4].
Defined.

Lemma awaiting_a_ready_value_does_not_suspend_witness :
  exists w1,
    _asyncBody 0 1 (awaiting 0 O 42 Z.succ)
      (store O (mkProvider Z (mkState None 0) true None None 7)
         (snd (create 0 (empty (T:=Z)))))
    = Ok (1%nat, w1)
    /\ result 1 (heap w1) = Ok 8.
Proof.
  destruct (awaiting_a_ready_value_does_not_suspend Z 0
              (store O (mkProvider Z (mkState None 0) true None None 7)
                 (snd (create 0 (empty (T:=Z)))))
              O 42 Z.succ (mkProvider Z (mkState None 0) true None None 7) O)
    as [w1 [H1 [H2 _]]];
    try reflexivity; try discriminate.
  exists w1. split; [exact H1 | exact H2].
Defined.

Lemma second_observer_fails_the_assertion_witness :
  _asyncBody 0 1 (awaiting 0 O 43 Z.pred)
    (store O (mkProvider Z (mkState None 0) false None (Some 1%nat) 0)
       (snd (create 0 (snd (create 0 (empty (T:=Z)))))))
  = AssertionFailed.
Proof.
  apply (second_observer_fails_the_assertion Z 0
           (store O (mkProvider Z (mkState None 0) false None (Some 1%nat) 0)
              (snd (create 0 (snd (create 0 (empty (T:=Z)))))))
           O 43 Z.pred
           (mkProvider Z (mkState None 0) false None (Some 1%nat) 0) 1%nat O);
    try reflexivity; discriminate.
Defined.

Lemma actor_function_is_resumed_by_its_actor_witness :
  exists w1 w2,
    _asyncBody 0 1 (awaiting 0 O 42 Z.succ)
      (mkWorld Z (heap (snd (create 0 (empty (T:=Z)))))
               (bodies (snd (create 0 (empty (T:=Z))))) 1 (Some 5%nat) [])
    = Ok (1%nat, w1)
    /\ setResult 0 O 7 w1 = Ok w2
    /\ woken w2 = [(5%nat, 1%nat)]
    /\ ready 1 (heap w2) = Ok false.
Proof.
  destruct (actor_function_is_resumed_by_its_actor Z 0
              (mkWorld Z (heap (snd (create 0 (empty (T:=Z)))))
                 (bodies (snd (create 0 (empty (T:=Z))))) 1 (Some 5%nat) [])
              O 42 Z.succ (fresh Z 0) 7 5%nat O O)
    as [w1 [w2 [w3 [H1 [H2 [H3 [H4 _]]]]]]];
    try reflexivity; try discriminate.
  exists w1, w2. split; [exact H1|]. split; [exact H2|].
  split; [exact H3 | exact H4].
Defined.

Lemma awaiting_functions_compose_witness :
  exists w1 w2 w3,
    _asyncBody 0 1 (awaiting 0 O 42 Z.succ) (snd (create 0 (empty (T:=Z))))
    = Ok (1%nat, w1)
    /\ _asyncBody 0 1 (awaiting 0 1%nat 43 (Z.mul 2)) w1 = Ok (2%nat, w2)
    /\ setResult 2 O 7 w2 = Ok w3
    /\ result 2 (heap w3) = Ok 16.
Proof.
  destruct (awaiting_functions_compose Z 0
              (snd (create 0 (empty (T:=Z)))) O 42 43 Z.succ (Z.mul 2)
              (fresh Z 0) 7 O)
    as [w1 [w2 [w3 [H1 [H2 [_ [H3 [_ H4]]]]]]]];
    try reflexivity; try discriminate.
  { cbn. lia. }
  exists w1, w2, w3. split; [exact H1|]. split; [exact H2|].
  split; [exact H3 | exact H4].
Defined.

End AsyncProps.
